(** * Booking allocation engine (services/booking-service/crud.py)

    A shallow embedding of the booking service's storage operations: the
    capacity checker, fixed-slot and time-range creation, cancellation,
    extension, lazy auto-completion and zone closure.

    Tables are finite maps from the primary key to the row.  Instants are
    integers (seconds on the canonical UTC clock), so the [tzinfo]
    normalisation of the source is the identity.  An operation takes the
    store and returns an outcome together with the store it leaves behind. *)

From Stdlib Require Import ZArith Lia Bool List String.
From stdpp Require Import base option list gmap fin_maps strings pretty.
Import ListNotations.

Local Open Scope Z_scope.

(** ** Data model *)

Inductive Status := Active | Cancelled | Completed.

(** The value stored in [Booking.status]. *)
Definition status_name (s : Status) : string :=
  match s with
  | Active => "active"
  | Cancelled => "cancelled"
  | Completed => "completed"
  end.

Definition is_active_status (s : Status) : bool :=
  match s with Active => true | _ => false end.

Record Zone := mkZone {
  zone_name : string;
  zone_address : string;
  zone_is_active : bool;
  closure_reason : option string;
  closed_until : option Z
}.

Record Place := mkPlace {
  place_zone_id : option Z;
  place_name : string;
  place_is_active : bool
}.

Record Slot := mkSlot {
  slot_place_id : option Z;
  slot_start_time : Z;
  slot_end_time : Z;
  is_available : bool
}.

Record Booking := mkBooking {
  user_id : Z;
  slot_id : option Z;
  status : Status;
  booking_zone_name : option string;
  booking_zone_address : option string;
  start_time : option Z;
  end_time : option Z;
  cancellation_reason : option string
}.

(** Events handed to the notifier after a commit. *)
Inductive Event :=
| BookingCreated (user : Z) (zname : option string) (s e : option Z)
| BookingCancelled (user : Z) (zname : option string) (s e : option Z)
| BookingExtended (user : Z) (zname : option string) (e : option Z)
| ZoneClosed (user : Z) (zname : string) (reason : string) (s e : option Z).

Record Store := mkStore {
  zones : gmap Z Zone;
  places : gmap Z Place;
  slots : gmap Z Slot;
  bookings : gmap Z Booking;
  events : list Event
}.

(** ** Errors *)

Inductive BookingCode :=
| INVALID_DATE | INVALID_TIME_RANGE | TIME_LIMIT_EXCEEDED | ZONE_INACTIVE
| USER_CONFLICT | ZONE_CAPACITY_EXCEEDED | NO_AVAILABLE_PLACES.

Inductive ExtensionCode :=
| booking_not_found | booking_expired | permission_denied | invalid_status
| invalid_data | slot_not_found | max_duration_exceeded | user_time_conflict
| zone_not_found | zone_capacity_exceeded | slot_unavailable
| slot_partially_occupied | integrity_error.

(** What a call can raise.  [IntegrityError] never escapes: every operation
    that can meet it catches it and rolls back. *)
Inductive Exn :=
| BookingError (code : BookingCode)
| BookingExtensionError (code : ExtensionCode)
| MultipleResultsFound
| ValueError
| OverflowError.

Inductive Outcome (A : Type) :=
| Return (a : A)
| Raise (e : Exn).
Arguments Return {A} a.
Arguments Raise {A} e.

(** ** Row helpers *)

Definition set_status (s : Status) (b : Booking) : Booking :=
  mkBooking (user_id b) (slot_id b) s (booking_zone_name b)
            (booking_zone_address b) (start_time b) (end_time b)
            (cancellation_reason b).

Definition set_cancellation_reason (r : option string) (b : Booking) : Booking :=
  mkBooking (user_id b) (slot_id b) (status b) (booking_zone_name b)
            (booking_zone_address b) (start_time b) (end_time b) r.

Definition set_available (a : bool) (s : Slot) : Slot :=
  mkSlot (slot_place_id s) (slot_start_time s) (slot_end_time s) a.

Definition set_bookings (m : gmap Z Booking) (st : Store) : Store :=
  mkStore (zones st) (places st) (slots st) m (events st).

Definition set_slots (m : gmap Z Slot) (st : Store) : Store :=
  mkStore (zones st) (places st) m (bookings st) (events st).

Definition set_zones (m : gmap Z Zone) (st : Store) : Store :=
  mkStore m (places st) (slots st) (bookings st) (events st).

Definition emit (e : Event) (st : Store) : Store :=
  mkStore (zones st) (places st) (slots st) (bookings st) (events st ++ [e]).

(** Python truthiness of a (possibly NULL) integer column: [if row.col:]. *)
Definition truthy_id (o : option Z) : bool :=
  match o with
  | Some i => negb (i =? 0)
  | None => false
  end.

(** SQL comparisons of a nullable column against a value: NULL never
    satisfies them. *)
Definition col_ltb (o : option Z) (x : Z) : bool :=
  match o with Some v => v <? x | None => false end.

Definition col_gtb (o : option Z) (x : Z) : bool :=
  match o with Some v => x <? v | None => false end.

Definition col_leb (o : option Z) (x : Z) : bool :=
  match o with Some v => v <=? x | None => false end.

Definition col_eqb (o : option Z) (x : Z) : bool :=
  match o with Some v => v =? x | None => false end.

(** The key the store hands to the next inserted row. *)
Definition next_id {A} (m : gmap Z A) : Z :=
  1 + foldr Z.max 0 (map fst (map_to_list m)).

(** The rows of a table as a query without [ORDER BY] hands them out: in
    the order of their keys, which is the order of their insertion. *)
Fixpoint insert_row {V} (row : Z * V) (rows : list (Z * V)) : list (Z * V) :=
  match rows with
  | [] => [row]
  | r :: rest => if fst row <=? fst r then row :: rows
                 else r :: insert_row row rest
  end.

Definition scan {V} (m : gmap Z V) : list (Z * V) :=
  foldr insert_row [] (map_to_list m).

(** [Result.scalar_one_or_none()]. *)
Definition scalar_one_or_none {A} (rows : list A) : Outcome (option A) :=
  match rows with
  | [] => Return None
  | [x] => Return (Some x)
  | _ => Raise MultipleResultsFound
  end.

(** The joins [Booking -> Slot -> Place]: the zone a booking's slot lies in. *)
Definition slot_zone (st : Store) (s : Slot) : option Z :=
  pid ← slot_place_id s; p ← places st !! pid; place_zone_id p.

Definition booking_slot (st : Store) (b : Booking) : option Slot :=
  sid ← slot_id b; slots st !! sid.

Definition booking_zone (st : Store) (b : Booking) : option Z :=
  s ← booking_slot st b; slot_zone st s.

Definition in_zone (st : Store) (zone_id : Z) (b : Booking) : bool :=
  match booking_zone st b with
  | Some z => z =? zone_id
  | None => false
  end.

(** ** Capacity checker *)

(** [select count(Place.id) where zone_id = ... and is_active]. *)
Definition max_capacity (st : Store) (zone_id : Z) : Z :=
  Z.of_nat (length (List.filter
    (fun '(_, p) => col_eqb (place_zone_id p) zone_id && place_is_active p)
    (map_to_list (places st)))).

(** The active bookings of the zone overlapping the candidate interval. *)
Definition overlapping_bookings (st : Store) (zone_id start_t end_t : Z)
  : list (Z * Booking) :=
  List.filter
    (fun '(_, b) => in_zone st zone_id b && is_active_status (status b)
                    && col_ltb (start_time b) end_t
                    && col_gtb (end_time b) start_t)
    (map_to_list (bookings st)).

(** [sorted(set(time_points))]. *)
Fixpoint insert_point (x : Z) (l : list Z) : list Z :=
  match l with
  | [] => [x]
  | y :: r => if x <? y then x :: l
              else if x =? y then l
              else y :: insert_point x r
  end.

Definition sorted_set (l : list Z) : list Z := foldr insert_point [] l.

Definition booking_points (b : Booking) : list Z :=
  match start_time b, end_time b with
  | Some bs, Some be => [bs; be]
  | _, _ => []
  end.

Definition contains (b : Booking) (t : Z) : bool :=
  match start_time b, end_time b with
  | Some bs, Some be => (bs <=? t) && (t <? be)
  | _, _ => false
  end.

(** The inner loop: bookings of the fetched list that contain [t]. *)
Definition count_at (bs : list (Z * Booking)) (t : Z) : Z :=
  Z.of_nat (length (List.filter (fun '(_, b) => contains b t) bs)).

(** The outer loop over the sorted time points, with its early return. *)
Fixpoint sweep (cap start_t end_t : Z) (bs : list (Z * Booking))
         (points : list Z) : bool :=
  match points with
  | [] => true
  | check_time :: rest =>
      if (check_time <? start_t) || (end_t <=? check_time)
      then sweep cap start_t end_t bs rest
      else
        let active_count := count_at bs check_time in
        let active_count :=
          if (start_t <=? check_time) && (check_time <? end_t)
          then active_count + 1 else active_count in
        if cap <? active_count then false
        else sweep cap start_t end_t bs rest
  end.

Definition time_points (start_t end_t : Z) (bs : list (Z * Booking)) : list Z :=
  sorted_set ([start_t; end_t] ++ flat_map (fun '(_, b) => booking_points b) bs).

(** The part of the check that runs on the fetched list alone. *)
Definition capacity_sweep (cap start_t end_t : Z) (bs : list (Z * Booking)) : bool :=
  sweep cap start_t end_t bs (time_points start_t end_t bs).

Definition check_zone_capacity (st : Store) (zone_id start_t end_t : Z) : bool :=
  let cap := max_capacity st zone_id in
  if cap =? 0 then false
  else capacity_sweep cap start_t end_t (overlapping_bookings st zone_id start_t end_t).

(** ** Booking operations *)

(** [check_user_booking_conflicts]. *)
Definition conflicting_bookings (st : Store) (user start_t end_t : Z)
           (exclude_booking_id : option Z) : list (Z * Booking) :=
  List.filter
    (fun '(bid, b) =>
       (user_id b =? user) && is_active_status (status b)
       && col_ltb (start_time b) end_t && col_gtb (end_time b) start_t
       && match exclude_booking_id with
          | Some x => negb (bid =? x)
          | None => true
          end)
    (map_to_list (bookings st)).

Definition check_user_booking_conflicts (st : Store) (user start_t end_t : Z)
           (exclude_booking_id : option Z) : bool :=
  (0 <? length (conflicting_bookings st user start_t end_t exclude_booking_id))%nat.

(** [auto_complete_expired_bookings]: with a booking, only that row is
    looked at; without, every expired active row is completed. *)
Definition expired (now : Z) (b : Booking) : bool :=
  is_active_status (status b) && col_leb (end_time b) now.

Definition auto_complete_expired_bookings (st : Store) (now : Z)
           (booking : option Z) : Store :=
  match booking with
  | Some bid =>
      match bookings st !! bid with
      | Some b =>
          if expired now b
          then set_bookings (<[bid := set_status Completed b]> (bookings st)) st
          else st
      | None => st
      end
  | None =>
      let expired_bookings :=
        List.filter (fun '(_, b) => expired now b) (map_to_list (bookings st)) in
      set_bookings
        (foldl (fun m '(bid, _) => alter (set_status Completed) bid m)
               (bookings st) expired_bookings) st
  end.

(** The zone reached from a slot the way [create_booking] loads it:
    [session.get] on the place and on its zone, each behind a truthiness
    test of the foreign key. *)
Definition load_slot_zone (st : Store) (slot : Slot) : option (Z * Zone) :=
  if truthy_id (slot_place_id slot) then
    pid ← slot_place_id slot;
    place ← places st !! pid;
    if truthy_id (place_zone_id place) then
      zid ← place_zone_id place;
      zone ← zones st !! zid;
      Some (zid, zone)
    else None
  else None.

(** The user's active bookings on the slot. *)
Definition existing_bookings (st : Store) (user sid : Z) : list (Z * Booking) :=
  List.filter
    (fun '(_, b) => (user_id b =? user) && col_eqb (slot_id b) sid
                    && is_active_status (status b))
    (map_to_list (bookings st)).

(** [create_booking].  [commit_conflict] tells whether the store raises
    [IntegrityError] at commit (a concurrent writer won). *)
Definition create_booking (st : Store) (user : Z) (booking_in_slot_id : Z)
           (commit_conflict : bool) : Outcome (option (Z * Booking)) * Store :=
  match slots st !! booking_in_slot_id with
  | None => (Return None, st)
  | Some slot =>
      if negb (is_available slot) then (Return None, st)
      else
        let zone := load_slot_zone st slot in
        match scalar_one_or_none (existing_bookings st user booking_in_slot_id) with
        | Raise e => (Raise e, st)
        | Return (Some _) => (Return None, st)
        | Return None =>
            if check_user_booking_conflicts st user (slot_start_time slot)
                                            (slot_end_time slot) None
            then (Return None, st)
            else if match zone with
                    | Some (zid, _) =>
                        negb (check_zone_capacity st zid (slot_start_time slot)
                                                  (slot_end_time slot))
                    | None => false
                    end
            then (Return None, st)
            else
              let booking :=
                mkBooking user (Some booking_in_slot_id) Active
                          (zone_name ∘ snd <$> zone) (zone_address ∘ snd <$> zone)
                          (Some (slot_start_time slot)) (Some (slot_end_time slot))
                          None in
              if commit_conflict then (Return None, st)
              else
                let bid := next_id (bookings st) in
                let st := set_bookings (<[bid := booking]> (bookings st)) st in
                let st := set_slots (<[booking_in_slot_id := set_available false slot]>
                                       (slots st)) st in
                let st := emit (BookingCreated user (booking_zone_name booking)
                                  (start_time booking) (end_time booking)) st in
                (Return (Some (bid, booking)), st)
        end
  end.

(** [cancel_booking]. *)
Definition cancel_booking (st : Store) (user booking_id : Z) (is_admin : bool)
           (commit_conflict : bool) : Outcome (option (Z * Booking)) * Store :=
  match bookings st !! booking_id with
  | None => (Return None, st)
  | Some booking =>
      if negb is_admin && negb (user_id booking =? user) then (Return None, st)
      else if negb (is_active_status (status booking))
      then (Return (Some (booking_id, booking)), st)
      else
        let st1 :=
          if truthy_id (slot_id booking) then
            match sid ← slot_id booking; slot ← slots st !! sid; Some (sid, slot) with
            | Some (sid, slot) =>
                set_slots (<[sid := set_available true slot]> (slots st)) st
            | None => st
            end
          else st in
        let booking := set_status Cancelled booking in
        if commit_conflict then (Return None, st)
        else
          let st1 := set_bookings (<[booking_id := booking]> (bookings st1)) st1 in
          let st1 := emit (BookingCancelled (user_id booking) (booking_zone_name booking)
                             (start_time booking) (end_time booking)) st1 in
          (Return (Some (booking_id, booking)), st1)
  end.

(** [schemas.ZoneCloseRequest]. *)
Record ZoneCloseRequest := mkZoneCloseRequest {
  reason : string;
  from_time : Z;
  to_time : Z
}.

(** The rows [close_zone] selects: active bookings joined to a slot, a
    place and the zone, whose slot overlaps the closure window. *)
Definition affected_by_closure (st : Store) (zone_id : Z) (data : ZoneCloseRequest)
           (b : Booking) : bool :=
  in_zone st zone_id b && is_active_status (status b)
  && match booking_slot st b with
     | Some s => (slot_start_time s <? to_time data) && (from_time data <? slot_end_time s)
     | None => false
     end.

Definition closure_rows (st : Store) (z : Z) (data : ZoneCloseRequest)
  : list (Z * Booking) :=
  List.filter (fun '(_, b) => affected_by_closure st z data b)
              (scan (bookings st)).

Definition close_booking (data : ZoneCloseRequest) (b : Booking) : Booking :=
  set_cancellation_reason (Some ("Зона закрыта: " ++ reason data)%string)
                          (set_status Cancelled b).

(** One turn of the loop over the affected bookings. *)
Definition close_one (data : ZoneCloseRequest) (st : Store) (row : Z * Booking) : Store :=
  let '(bid, b) := row in
  let st := set_bookings (alter (close_booking data) bid (bookings st)) st in
  match slot_id b with
  | Some sid => set_slots (alter (set_available true) sid (slots st)) st
  | None => st
  end.

(** [close_zone]. *)
Definition close_zone (st : Store) (zone_id : Z) (data : ZoneCloseRequest)
  : list (Z * Booking) * Store :=
  match zones st !! zone_id with
  | None => ([], st)
  | Some zone =>
      let zone' := mkZone (zone_name zone) (zone_address zone) false
                          (Some (reason data)) (Some (to_time data)) in
      let st1 := set_zones (<[zone_id := zone']> (zones st)) st in
      let affected_bookings := closure_rows st zone_id data in
      let st2 := foldl (close_one data) st1 affected_bookings in
      let result := map (fun '(bid, b) => (bid, close_booking data b)) affected_bookings in
      let st3 := foldl (fun s '(_, b) =>
                          emit (ZoneClosed (user_id b) (zone_name zone') (reason data)
                                           (start_time b) (end_time b)) s)
                       st2 result in
      (result, st3)
  end.

(** [schemas.BookingCreateTimeRange]. *)
Record BookingCreateTimeRange := mkBookingCreateTimeRange {
  zone_id : Z;
  date : string;
  start_hour : Z;
  start_minute : Z;
  end_hour : Z;
  end_minute : Z
}.

(** [datetime.min.time().replace(hour=h, minute=m)], as seconds into the
    day; out-of-range fields raise [ValueError]. *)
Definition time_replace (h m : Z) : Outcome Z :=
  if (0 <=? h) && (h <? 24) && (0 <=? m) && (m <? 60)
  then Return (h * 3600 + m * 60)
  else Raise ValueError.

(** [timedelta(hours=h, minutes=m)] in seconds; [OverflowError] when the
    days leave the range of [timedelta.min] to [timedelta.max]. *)
Definition timedelta (h m : Z) : Outcome Z :=
  let seconds := h * 3600 + m * 60 in
  if (-999999999 <=? seconds / 86400) && (seconds / 86400 <=? 999999999)
  then Return seconds
  else Raise OverflowError.

(** [datetime.min] and [datetime.max]: the first second of year 1 and the
    last second of year 9999. *)
Definition datetime_min : Z := -62135596800.
Definition datetime_max : Z := 253402300799.

(** [t + delta] on a datetime; [OverflowError] outside the years 1 to 9999. *)
Definition datetime_add (t delta : Z) : Outcome Z :=
  if (datetime_min <=? t + delta) && (t + delta <=? datetime_max)
  then Return (t + delta)
  else Raise OverflowError.

(** [booking.end_time + timedelta(hours=extend_hours, minutes=extend_minutes)]. *)
Definition new_end_time (b_end extend_hours extend_minutes : Z) : Outcome Z :=
  match timedelta extend_hours extend_minutes with
  | Return delta => datetime_add b_end delta
  | Raise e => Raise e
  end.

Definition exact_slots (st : Store) (place_id : option Z) (start_t end_t : Z)
  : list (Z * Slot) :=
  List.filter
    (fun '(_, s) => match place_id with
                    | Some pid => col_eqb (slot_place_id s) pid
                    | None => false
                    end
                    && (slot_start_time s =? start_t) && (slot_end_time s =? end_t))
    (map_to_list (slots st)).

Definition overlapping_slots (st : Store) (place_id : option Z) (start_t end_t : Z)
  : list (Z * Slot) :=
  List.filter
    (fun '(_, s) => match place_id with
                    | Some pid => col_eqb (slot_place_id s) pid
                    | None => false
                    end
                    && (slot_start_time s <? end_t) && (start_t <? slot_end_time s))
    (map_to_list (slots st)).

Definition active_places (st : Store) (zid : Z) : list (Z * Place) :=
  List.filter
    (fun '(_, p) => col_eqb (place_zone_id p) zid && place_is_active p)
    (scan (places st)).

(** Adding a booking on a slot that is already in the store (and is
    flipped to unavailable), then commit and notify. *)
Definition book_existing_slot (st : Store) (sid : Z) (slot : Slot) (booking : Booking)
  : Z * Store :=
  let st := set_slots (<[sid := set_available false slot]> (slots st)) st in
  let bid := next_id (bookings st) in
  (bid, set_bookings (<[bid := booking]> (bookings st)) st).

(** Adding a fresh unavailable slot and a booking on it. *)
Definition book_new_slot (st : Store) (place_id : option Z) (start_t end_t : Z)
           (mk : Z -> Booking) : Z * Booking * Store :=
  let sid := next_id (slots st) in
  let st := set_slots (<[sid := mkSlot place_id start_t end_t false]> (slots st)) st in
  let bid := next_id (bookings st) in
  (bid, mk sid, set_bookings (<[bid := mk sid]> (bookings st)) st).

(** The zone [extend_booking] reaches from the slot: the place by key with
    its [zone] relationship joined, behind a truthiness test of
    [slot.place_id]. *)
Definition load_place_zone (st : Store) (slot : Slot) : option (Z * Zone) :=
  if truthy_id (slot_place_id slot) then
    pid ← slot_place_id slot;
    place ← places st !! pid;
    zid ← place_zone_id place;
    zone ← zones st !! zid;
    Some (zid, zone)
  else None.

Section Configured.

(** [settings.MAX_BOOKING_HOURS] and [date.fromisoformat] (the day number
    of a parseable date) come from outside the module. *)
Context (MAX_BOOKING_HOURS : Z) (fromisoformat : string -> option Z).

(** The loop of [create_booking_by_time_range] over the zone's active places. *)
Fixpoint try_places (st : Store) (user : Z) (zone : Zone) (start_t end_t : Z)
         (commit_conflict : bool) (places : list (Z * Place))
  : Outcome (Z * Booking) * Store :=
  match places with
  | [] => (Raise (BookingError NO_AVAILABLE_PLACES), st)
  | (pid, _) :: rest =>
      let mk sid := mkBooking user (Some sid) Active (Some (zone_name zone))
                              (Some (zone_address zone))
                              (Some start_t) (Some end_t) None in
      match scalar_one_or_none (exact_slots st (Some pid) start_t end_t) with
      | Raise e => (Raise e, st)
      | Return (Some (sid, exact_slot)) =>
          if is_available exact_slot then
            if commit_conflict then (Raise (BookingError NO_AVAILABLE_PLACES), st)
            else
              let '(bid, st') := book_existing_slot st sid exact_slot (mk sid) in
              (Return (bid, mk sid),
               emit (BookingCreated user (Some (zone_name zone))
                                    (Some start_t) (Some end_t)) st')
          else try_places st user zone start_t end_t commit_conflict rest
      | Return None =>
          let has_conflict :=
            existsb (fun '(_, s) => negb (is_available s))
                    (overlapping_slots st (Some pid) start_t end_t) in
          if has_conflict
          then try_places st user zone start_t end_t commit_conflict rest
          else if commit_conflict then (Raise (BookingError NO_AVAILABLE_PLACES), st)
          else
            let '(bid, b, st') := book_new_slot st (Some pid) start_t end_t mk in
            (Return (bid, b),
             emit (BookingCreated user (Some (zone_name zone))
                                  (Some start_t) (Some end_t)) st')
      end
  end.

(** [create_booking_by_time_range]. *)
Definition create_booking_by_time_range (st : Store) (user : Z)
           (booking_in : BookingCreateTimeRange) (commit_conflict : bool)
  : Outcome (Z * Booking) * Store :=
  match fromisoformat (date booking_in) with
  | None => (Raise (BookingError INVALID_DATE), st)
  | Some target_date =>
      match time_replace (start_hour booking_in) (start_minute booking_in) with
      | Raise e => (Raise e, st)
      | Return start_of_day =>
      match time_replace (end_hour booking_in) (end_minute booking_in) with
      | Raise e => (Raise e, st)
      | Return end_of_day =>
          let start_t := target_date * 86400 + start_of_day in
          let end_t := target_date * 86400 + end_of_day in
          let duration := end_t - start_t in
          if duration <=? 0 then (Raise (BookingError INVALID_TIME_RANGE), st)
          else if MAX_BOOKING_HOURS * 3600 <? duration
          then (Raise (BookingError TIME_LIMIT_EXCEEDED), st)
          else
            match zones st !! zone_id booking_in with
            | None => (Raise (BookingError ZONE_INACTIVE), st)
            | Some zone =>
                if negb (zone_is_active zone)
                then (Raise (BookingError ZONE_INACTIVE), st)
                else if check_user_booking_conflicts st user start_t end_t None
                then (Raise (BookingError USER_CONFLICT), st)
                else if negb (check_zone_capacity st (zone_id booking_in) start_t end_t)
                then (Raise (BookingError ZONE_CAPACITY_EXCEEDED), st)
                else
                  match active_places st (zone_id booking_in) with
                  | [] => (Raise (BookingError NO_AVAILABLE_PLACES), st)
                  | places =>
                      try_places st user zone start_t end_t commit_conflict places
                  end
            end
      end
      end
  end.

(** [extend_booking].  The clock is read twice: [now] by the expiry test
    and [now'] inside [auto_complete_expired_bookings]. *)
Definition extend_booking (st : Store) (now now' : Z) (user booking_id : Z)
           (extend_hours extend_minutes : Z) (commit_conflict : bool)
  : Outcome (Z * Booking) * Store :=
  match bookings st !! booking_id with
  | None => (Raise (BookingExtensionError booking_not_found), st)
  | Some booking =>
      if col_leb (end_time booking) now
      then (Raise (BookingExtensionError booking_expired),
            auto_complete_expired_bookings st now' (Some booking_id))
      else if negb (user_id booking =? user)
      then (Raise (BookingExtensionError permission_denied), st)
      else if negb (is_active_status (status booking))
      then (Raise (BookingExtensionError invalid_status), st)
      else
        match start_time booking, end_time booking with
        | Some b_start, Some b_end =>
            match (if truthy_id (slot_id booking) then booking_slot st booking
                   else None) with
            | None => (Raise (BookingExtensionError slot_not_found), st)
            | Some slot =>
                match new_end_time b_end extend_hours extend_minutes with
                | Raise e => (Raise e, st)
                | Return new_end_time =>
                let total_duration := new_end_time - b_start in
                if MAX_BOOKING_HOURS * 3600 <? total_duration
                then (Raise (BookingExtensionError max_duration_exceeded), st)
                else if check_user_booking_conflicts st user b_end new_end_time
                                                     (Some booking_id)
                then (Raise (BookingExtensionError user_time_conflict), st)
                else
                  match load_place_zone st slot with
                  | None => (Raise (BookingExtensionError zone_not_found), st)
                  | Some (zid, zone) =>
                      if negb (check_zone_capacity st zid b_end new_end_time)
                      then (Raise (BookingExtensionError zone_capacity_exceeded), st)
                      else
                        let mk sid :=
                          mkBooking user (Some sid) Active (Some (zone_name zone))
                                    (Some (zone_address zone))
                                    (Some b_end) (Some new_end_time) None in
                        let notify :=
                          emit (BookingExtended user (Some (zone_name zone))
                                                (Some new_end_time)) in
                        match scalar_one_or_none
                                (exact_slots st (slot_place_id slot) b_end new_end_time) with
                        | Raise e => (Raise e, st)
                        | Return (Some (sid, extended_slot)) =>
                            if is_available extended_slot then
                              if commit_conflict
                              then (Raise (BookingExtensionError integrity_error), st)
                              else
                                let '(bid, st') :=
                                  book_existing_slot st sid extended_slot (mk sid) in
                                (Return (bid, mk sid), notify st')
                            else (Raise (BookingExtensionError slot_unavailable), st)
                        | Return None =>
                            if existsb (fun '(_, s) => negb (is_available s))
                                 (overlapping_slots st (slot_place_id slot) b_end new_end_time)
                            then (Raise (BookingExtensionError slot_partially_occupied), st)
                            else if commit_conflict
                            then (Raise (BookingExtensionError integrity_error), st)
                            else
                              let '(bid, b, st') :=
                                book_new_slot st (slot_place_id slot) b_end new_end_time mk in
                              (Return (bid, b), notify st')
                        end
                  end
                end
            end
        | _, _ => (Raise (BookingExtensionError invalid_data), st)
        end
  end.

End Configured.

(** * Vocabulary of the properties *)

(** Strictly increasing lists: sorted and free of duplicates. *)
Fixpoint increasing (l : list Z) : Prop :=
  match l with
  | [] => True
  | x :: r => match r with [] => True | y :: _ => x < y end /\ increasing r
  end.

Definition in_window (start_t end_t t : Z) : Prop := start_t <= t < end_t.

(** The columns of a booking row other than its status and its
    cancellation reason, and those of a slot other than its availability. *)
Definition same_columns (b b' : Booking) : Prop :=
  user_id b' = user_id b /\ slot_id b' = slot_id b /\
  booking_zone_name b' = booking_zone_name b /\
  booking_zone_address b' = booking_zone_address b /\
  start_time b' = start_time b /\ end_time b' = end_time b.

Definition same_slot_columns (s s' : Slot) : Prop :=
  slot_place_id s' = slot_place_id s /\
  slot_start_time s' = slot_start_time s /\ slot_end_time s' = slot_end_time s.

(** Rows in the order of their keys. *)
Fixpoint ascending {V} (rows : list (Z * V)) : Prop :=
  match rows with
  | [] => True
  | r :: rest => (forall r', In r' rest -> fst r <= fst r') /\ ascending rest
  end.

(** [n] is the number of the [x] that satisfy [P]. *)
Definition number_of {A} (P : A -> Prop) (n : Z) : Prop :=
  exists l : list A,
    NoDup l /\ (forall x, x ∈ l <-> P x) /\ n = Z.of_nat (length l).

(** The capacity of a zone in the words of the design: its active places. *)
Definition active_place_of (st : Store) (z : Z) (row : Z * Place) : Prop :=
  places st !! fst row = Some (snd row) /\
  place_zone_id (snd row) = Some z /\ place_is_active (snd row) = true.

(** The booking's slot lies on a place of zone [z]. *)
Definition booked_in_zone (st : Store) (z : Z) (b : Booking) : Prop :=
  exists sid s pid p,
    slot_id b = Some sid /\ slots st !! sid = Some s /\
    slot_place_id s = Some pid /\ places st !! pid = Some p /\
    place_zone_id p = Some z.

(** The active bookings of the zone whose interval overlaps the candidate
    [start_t, end_t), and those of them that contain the instant [t]:
    [b.start <= t < b.end]. *)
Definition overlaps_candidate (st : Store) (z start_t end_t : Z)
           (row : Z * Booking) : Prop :=
  bookings st !! fst row = Some (snd row) /\
  booked_in_zone st z (snd row) /\ status (snd row) = Active /\
  exists bs be, start_time (snd row) = Some bs /\ end_time (snd row) = Some be /\
                bs < end_t /\ start_t < be.

Definition occupies (st : Store) (z start_t end_t t : Z) (row : Z * Booking) : Prop :=
  overlaps_candidate st z start_t end_t row /\
  exists bs be, start_time (snd row) = Some bs /\ end_time (snd row) = Some be /\
                bs <= t < be.

(** The boundary points of the sweep: the ends of the candidate and of
    every overlapping booking. *)
Definition sweep_point (st : Store) (z start_t end_t t : Z) : Prop :=
  t = start_t \/ t = end_t \/
  exists row, overlaps_candidate st z start_t end_t row /\
              (start_time (snd row) = Some t \/ end_time (snd row) = Some t).

(** The boundary points in the words of the design: the candidate's ends
    and the ends of every fetched booking. *)
Definition boundary_point (start_t end_t : Z) (bs : list (Z * Booking)) (t : Z) : Prop :=
  t = start_t \/ t = end_t \/
  exists bid b, In (bid, b) bs /\ (start_time b = Some t \/ end_time b = Some t).

(** The bookings a closure cancels, in the words of the design: active,
    on a place of the zone, with a slot that overlaps the window
    ([slot.start < to_time] and [slot.end > from_time]). *)
Definition hit_by_closure (st : Store) (z : Z) (data : ZoneCloseRequest)
           (b : Booking) : Prop :=
  status b = Active /\
  exists sid s pid p,
    slot_id b = Some sid /\ slots st !! sid = Some s /\
    slot_place_id s = Some pid /\ places st !! pid = Some p /\
    place_zone_id p = Some z /\
    slot_start_time s < to_time data /\ from_time data < slot_end_time s.

(** The slots [close_zone] frees: those of the cancelled bookings. *)
Definition freed_by_closure (st : Store) (z : Z) (data : ZoneCloseRequest) (sid : Z) : Prop :=
  exists bid b, bookings st !! bid = Some b /\
                hit_by_closure st z data b /\ slot_id b = Some sid.

(** The reasons for the empty result, in the words of the design. *)
Definition holds_active_on (st : Store) (user sid : Z) : Prop :=
  exists bid b, bookings st !! bid = Some b /\ user_id b = user /\
                slot_id b = Some sid /\ status b = Active.

Definition has_overlapping_booking (st : Store) (user start_t end_t : Z) : Prop :=
  exists bid b bs be,
    bookings st !! bid = Some b /\ user_id b = user /\ status b = Active /\
    start_time b = Some bs /\ end_time b = Some be /\ bs < end_t /\ start_t < be.

(** The zone of a slot, through its place: both foreign keys are set
    (neither NULL nor 0) and lead to rows of the store. *)
Definition zone_of_slot (st : Store) (slot : Slot) (zid : Z) (zone : Zone) : Prop :=
  exists pid place,
    slot_place_id slot = Some pid /\ pid <> 0 /\ places st !! pid = Some place /\
    place_zone_id place = Some zid /\ zid <> 0 /\ zones st !! zid = Some zone.

Definition capacity_rejects (st : Store) (slot : Slot) : Prop :=
  exists zid zone, zone_of_slot st slot zid zone /\
    check_zone_capacity st zid (slot_start_time slot) (slot_end_time slot) = false.

(** The store never holds two active bookings of one user on one slot. *)
Definition single_active_booking (st : Store) (user sid : Z) : Prop :=
  (length (existing_bookings st user sid) <= 1)%nat.

(** The store's uniqueness constraint on [(place_id, start_time, end_time)]. *)
Definition slots_unique (st : Store) : Prop :=
  forall sid1 s1 sid2 s2 pid,
    slots st !! sid1 = Some s1 -> slots st !! sid2 = Some s2 ->
    slot_place_id s1 = Some pid -> slot_place_id s2 = Some pid ->
    slot_start_time s1 = slot_start_time s2 ->
    slot_end_time s1 = slot_end_time s2 ->
    sid1 = sid2.

(** The request schema's range of clock fields. *)
Definition valid_clock_fields (bi : BookingCreateTimeRange) : Prop :=
  0 <= start_hour bi < 24 /\ 0 <= start_minute bi < 60 /\
  0 <= end_hour bi < 24 /\ 0 <= end_minute bi < 60.

(** The validation order in the words of the design. *)
Inductive Check :=
| ParseableDate | EndAfterStart | WithinTimeLimit | ZoneActive
| NoUserConflict | CapacityAvailable | ActivePlaceExists.

Definition validation_order : list Check :=
  [ParseableDate; EndAfterStart; WithinTimeLimit; ZoneActive;
   NoUserConflict; CapacityAvailable; ActivePlaceExists].

Definition check_code (chk : Check) : BookingCode :=
  match chk with
  | ParseableDate => INVALID_DATE
  | EndAfterStart => INVALID_TIME_RANGE
  | WithinTimeLimit => TIME_LIMIT_EXCEEDED
  | ZoneActive => ZONE_INACTIVE
  | NoUserConflict => USER_CONFLICT
  | CapacityAvailable => ZONE_CAPACITY_EXCEEDED
  | ActivePlaceExists => NO_AVAILABLE_PLACES
  end.

Section Validation.
Context (MAX_BOOKING_HOURS : Z) (fromisoformat : string -> option Z).

(** The requested interval, when the date parses. *)
Definition requested_interval (bi : BookingCreateTimeRange) : option (Z * Z) :=
  d ← fromisoformat (date bi);
  Some (d * 86400 + (start_hour bi * 3600 + start_minute bi * 60),
        d * 86400 + (end_hour bi * 3600 + end_minute bi * 60)).

Definition check_passes (st : Store) (user : Z) (bi : BookingCreateTimeRange)
           (chk : Check) : bool :=
  match chk with
  | ParseableDate =>
      match fromisoformat (date bi) with Some _ => true | None => false end
  | EndAfterStart =>
      match requested_interval bi with Some (s, e) => s <? e | None => false end
  | WithinTimeLimit =>
      match requested_interval bi with
      | Some (s, e) => e - s <=? MAX_BOOKING_HOURS * 3600
      | None => false
      end
  | ZoneActive =>
      match zones st !! zone_id bi with
      | Some zone => zone_is_active zone
      | None => false
      end
  | NoUserConflict =>
      match requested_interval bi with
      | Some (s, e) => negb (check_user_booking_conflicts st user s e None)
      | None => false
      end
  | CapacityAvailable =>
      match requested_interval bi with
      | Some (s, e) => check_zone_capacity st (zone_id bi) s e
      | None => false
      end
  | ActivePlaceExists =>
      match active_places st (zone_id bi) with [] => false | _ => true end
  end.

Definition first_failing_check (st : Store) (user : Z) (bi : BookingCreateTimeRange)
  : option Check :=
  List.find (fun chk => negb (check_passes st user bi chk)) validation_order.

End Validation.

(** Active bookings of zone [z] whose interval contains [t]. *)
Definition occupancy (st : Store) (z t : Z) : Z :=
  Z.of_nat (length (List.filter
    (fun '(_, b) => in_zone st z b && is_active_status (status b) && contains b t)
    (map_to_list (bookings st)))).

Definition capacity_invariant (st : Store) : Prop :=
  forall z t, is_Some (zones st !! z) -> occupancy st z t <= max_capacity st z.

(** Keys are never zero and every booking's slot is in the store. *)
Definition well_formed (st : Store) : Prop :=
  zones st !! 0 = None /\ places st !! 0 = None /\
  forall bid b sid, bookings st !! bid = Some b -> slot_id b = Some sid ->
                    is_Some (slots st !! sid).

(** Slots stay, on the place they are on. *)
Definition slots_extend (st st' : Store) : Prop :=
  forall sid s, slots st !! sid = Some s ->
                exists s', slots st' !! sid = Some s' /\
                           slot_place_id s' = slot_place_id s.

(** A transition that adds no booking and activates none. *)
Definition releases (st st' : Store) : Prop :=
  places st' = places st /\
  (forall z, is_Some (zones st' !! z) <-> is_Some (zones st !! z)) /\
  slots_extend st st' /\
  forall bid b', bookings st' !! bid = Some b' ->
    exists b, bookings st !! bid = Some b /\ slot_id b' = slot_id b /\
              start_time b' = start_time b /\ end_time b' = end_time b /\
              (status b' = Active -> status b = Active).

(** A transition that adds one booking whose interval passed the capacity
    check of the zone its slot lies in. *)
Definition adds (st st' : Store) : Prop :=
  exists bid b sid s e,
    bookings st !! bid = None /\
    bookings st' = <[bid := b]> (bookings st) /\
    places st' = places st /\ zones st' = zones st /\
    slots_extend st st' /\
    slot_id b = Some sid /\ is_Some (slots st' !! sid) /\
    start_time b = Some s /\ end_time b = Some e /\
    forall z, booking_zone st' b = Some z -> is_Some (zones st !! z) ->
              check_zone_capacity st z s e = true.

Section Engine.
Context (MAX_BOOKING_HOURS : Z) (fromisoformat : string -> option Z).

(** One call of an operation of the engine, with any arguments, any
    reading of the clock and any outcome of the commit. *)
Inductive step (st : Store) : Store -> Prop :=
| step_create_booking user sid c :
    step st (snd (create_booking st user sid c))
| step_create_booking_by_time_range user bi c :
    step st (snd (create_booking_by_time_range MAX_BOOKING_HOURS fromisoformat
                                               st user bi c))
| step_cancel_booking user bid is_admin c :
    step st (snd (cancel_booking st user bid is_admin c))
| step_extend_booking now now' user bid h m c :
    step st (snd (extend_booking MAX_BOOKING_HOURS st now now' user bid h m c))
| step_auto_complete now booking :
    step st (auto_complete_expired_bookings st now booking)
| step_close_zone z data :
    step st (snd (close_zone st z data)).

Inductive reachable (st0 : Store) : Store -> Prop :=
| reachable_start : reachable st0 st0
| reachable_step st st' : reachable st0 st -> step st st' -> reachable st0 st'.

End Engine.

(** What the engine keeps true of the store: bookings refer to slots of
    the store, no two slots share place and interval, the slot of an active
    booking is unavailable, and a slot has at most one active booking. *)
Definition references_resolve (st : Store) : Prop :=
  forall bid b sid, bookings st !! bid = Some b -> slot_id b = Some sid ->
                    is_Some (slots st !! sid).

Definition active_slots_unavailable (st : Store) : Prop :=
  forall bid b sid slot,
    bookings st !! bid = Some b -> status b = Active -> slot_id b = Some sid ->
    slots st !! sid = Some slot -> is_available slot = false.

Definition one_active_per_slot (st : Store) : Prop :=
  forall bid1 b1 bid2 b2 sid,
    bookings st !! bid1 = Some b1 -> bookings st !! bid2 = Some b2 ->
    status b1 = Active -> status b2 = Active ->
    slot_id b1 = Some sid -> slot_id b2 = Some sid -> bid1 = bid2.

Definition consistent (st : Store) : Prop :=
  references_resolve st /\ slots_unique st /\
  active_slots_unavailable st /\ one_active_per_slot st.

Definition same_interval (s s' : Slot) : Prop :=
  slot_place_id s' = slot_place_id s /\
  slot_start_time s' = slot_start_time s /\
  slot_end_time s' = slot_end_time s.

(** A transition that adds no row, activates no booking, and makes a slot
    available only when no active booking is left on it. *)
Definition frees (st st' : Store) : Prop :=
  (forall sid s', slots st' !! sid = Some s' ->
     exists s, slots st !! sid = Some s /\ same_interval s s' /\
       (is_available s' = is_available s \/
        forall bid b', bookings st' !! bid = Some b' -> slot_id b' = Some sid ->
                       status b' <> Active)) /\
  (forall sid s, slots st !! sid = Some s -> is_Some (slots st' !! sid)) /\
  (forall bid b', bookings st' !! bid = Some b' ->
     exists b, bookings st !! bid = Some b /\ slot_id b' = slot_id b /\
               (status b' = Active -> status b = Active)).

(** A transition that adds one booking on a slot it makes unavailable: a
    slot that was available, or a new slot whose place and interval no slot
    of the store has. *)
Definition books (st st' : Store) : Prop :=
  exists nid nb sid s',
    bookings st !! nid = None /\
    bookings st' = <[nid := nb]> (bookings st) /\
    slot_id nb = Some sid /\
    slots st' = <[sid := s']> (slots st) /\
    is_available s' = false /\
    ((exists es, slots st !! sid = Some es /\ is_available es = true /\
                 same_interval es s') \/
     (slots st !! sid = None /\
      forall k s pid, slots st !! k = Some s ->
        slot_place_id s = Some pid -> slot_place_id s' = Some pid ->
        slot_start_time s = slot_start_time s' ->
        slot_end_time s = slot_end_time s' -> False)).

(** Two bookings whose intervals meet, by the test of
    [check_user_booking_conflicts]. *)
Definition overlap (b1 b2 : Booking) : Prop :=
  exists s1 e1 s2 e2,
    start_time b1 = Some s1 /\ end_time b1 = Some e1 /\
    start_time b2 = Some s2 /\ end_time b2 = Some e2 /\
    s1 < e2 /\ s2 < e1.

Definition no_self_overlap (st : Store) : Prop :=
  forall bid1 b1 bid2 b2,
    bid1 <> bid2 ->
    bookings st !! bid1 = Some b1 -> bookings st !! bid2 = Some b2 ->
    user_id b1 = user_id b2 ->
    status b1 = Active -> status b2 = Active ->
    ~ overlap b1 b2.

(** What can happen to a booking row: nothing, or an active row is
    completed, cancelled, or cancelled by a zone closure. *)
Definition retired (b b' : Booking) : Prop :=
  b' = b \/
  (status b = Active /\
   (b' = set_status Completed b \/ b' = set_status Cancelled b \/
    exists data, b' = close_booking data b)).

(** A transition that adds no booking. *)
Definition quiet (st st' : Store) : Prop :=
  forall bid,
    match bookings st !! bid, bookings st' !! bid with
    | Some b, Some b' => retired b b'
    | None, None => True
    | _, _ => False
    end.

(** A transition that adds one active booking, which meets no active
    booking of the same user. *)
Definition admits (st st' : Store) : Prop :=
  exists nid nb s e,
    bookings st !! nid = None /\
    bookings st' = <[nid := nb]> (bookings st) /\
    status nb = Active /\
    start_time nb = Some s /\ end_time nb = Some e /\
    forall k b, bookings st !! k = Some b -> user_id b = user_id nb ->
                status b = Active -> ~ overlap b nb.

(** A place on which the interval can be reserved: its slot for exactly
    that interval is available, or it has no such slot and none of its
    slots overlapping the interval is unavailable. *)
Definition place_reservable (st : Store) (start_t end_t : Z) (row : Z * Place) : bool :=
  match exact_slots st (Some (fst row)) start_t end_t with
  | [] => negb (existsb (fun '(_, s) => negb (is_available s))
                        (overlapping_slots st (Some (fst row)) start_t end_t))
  | [(_, exact_slot)] => is_available exact_slot
  | _ => false
  end.

(** A place can take the interval: its slot for exactly that interval is
    available, or it has no such slot and none of its slots that overlap
    the interval is unavailable. *)
Definition takes_interval (st : Store) (start_t end_t pid : Z) : Prop :=
  (exists sid slot,
      slots st !! sid = Some slot /\ slot_place_id slot = Some pid /\
      slot_start_time slot = start_t /\ slot_end_time slot = end_t /\
      is_available slot = true) \/
  ((forall sid slot,
       slots st !! sid = Some slot -> slot_place_id slot = Some pid ->
       slot_start_time slot = start_t -> slot_end_time slot <> end_t) /\
   (forall sid slot,
       slots st !! sid = Some slot -> slot_place_id slot = Some pid ->
       slot_start_time slot < end_t -> start_t < slot_end_time slot ->
       is_available slot = true)).

(** The checks of [extend_booking], in the order the function makes them. *)
Inductive ExtendCheck :=
| BookingExists | NotPastEnd | CallerIsOwner | StatusIsActive | HasInterval
| SlotExists | EndRepresentable | WithinMaxDuration | NoUserTimeConflict
| ZoneResolvable | ZoneHasCapacity | ExactSlotFree | NoBusyOverlap
| CommitGoesThrough.

Definition extension_order : list ExtendCheck :=
  [BookingExists; NotPastEnd; CallerIsOwner; StatusIsActive; HasInterval;
   SlotExists; EndRepresentable; WithinMaxDuration; NoUserTimeConflict;
   ZoneResolvable; ZoneHasCapacity; ExactSlotFree; NoBusyOverlap;
   CommitGoesThrough].

(** What the call raises when the check fails: the arithmetic on the end
    time raises [OverflowError], every other check its own code. *)
Definition extension_error (chk : ExtendCheck) : Exn :=
  match chk with
  | BookingExists => BookingExtensionError booking_not_found
  | NotPastEnd => BookingExtensionError booking_expired
  | CallerIsOwner => BookingExtensionError permission_denied
  | StatusIsActive => BookingExtensionError invalid_status
  | HasInterval => BookingExtensionError invalid_data
  | SlotExists => BookingExtensionError slot_not_found
  | EndRepresentable => OverflowError
  | WithinMaxDuration => BookingExtensionError max_duration_exceeded
  | NoUserTimeConflict => BookingExtensionError user_time_conflict
  | ZoneResolvable => BookingExtensionError zone_not_found
  | ZoneHasCapacity => BookingExtensionError zone_capacity_exceeded
  | ExactSlotFree => BookingExtensionError slot_unavailable
  | NoBusyOverlap => BookingExtensionError slot_partially_occupied
  | CommitGoesThrough => BookingExtensionError integrity_error
  end.

(** The slot [extend_booking] loads for the booking. *)
Definition extension_slot (st : Store) (b : Booking) : option Slot :=
  if truthy_id (slot_id b) then booking_slot st b else None.

Definition extension_check_passes (MAX_BOOKING_HOURS : Z) (st : Store)
           (now user bid h m : Z) (c : bool) (chk : ExtendCheck) : bool :=
  match bookings st !! bid with
  | None => false
  | Some b =>
      match chk with
      | BookingExists => true
      | NotPastEnd => negb (col_leb (end_time b) now)
      | CallerIsOwner => user_id b =? user
      | StatusIsActive => is_active_status (status b)
      | HasInterval =>
          match start_time b, end_time b with
          | Some _, Some _ => true
          | _, _ => false
          end
      | SlotExists =>
          match extension_slot st b with Some _ => true | None => false end
      | EndRepresentable =>
          match end_time b with
          | Some b_end =>
              (-999999999 <=? (h * 3600 + m * 60) / 86400)
              && ((h * 3600 + m * 60) / 86400 <=? 999999999)
              && (-62135596800 <=? b_end + (h * 3600 + m * 60))
              && (b_end + (h * 3600 + m * 60) <=? 253402300799)
          | None => false
          end
      | WithinMaxDuration =>
          match start_time b, end_time b with
          | Some b_start, Some b_end =>
              b_end + (h * 3600 + m * 60) - b_start <=? MAX_BOOKING_HOURS * 3600
          | _, _ => false
          end
      | NoUserTimeConflict =>
          match end_time b with
          | Some b_end =>
              negb (check_user_booking_conflicts st user b_end
                      (b_end + (h * 3600 + m * 60)) (Some bid))
          | None => false
          end
      | ZoneResolvable =>
          match extension_slot st b with
          | Some slot =>
              match load_place_zone st slot with Some _ => true | None => false end
          | None => false
          end
      | ZoneHasCapacity =>
          match extension_slot st b, end_time b with
          | Some slot, Some b_end =>
              match load_place_zone st slot with
              | Some (zid, _) =>
                  check_zone_capacity st zid b_end (b_end + (h * 3600 + m * 60))
              | None => false
              end
          | _, _ => false
          end
      | ExactSlotFree =>
          match extension_slot st b, end_time b with
          | Some slot, Some b_end =>
              match exact_slots st (slot_place_id slot) b_end
                                (b_end + (h * 3600 + m * 60)) with
              | [(_, extended_slot)] => is_available extended_slot
              | _ => true
              end
          | _, _ => false
          end
      | NoBusyOverlap =>
          match extension_slot st b, end_time b with
          | Some slot, Some b_end =>
              match exact_slots st (slot_place_id slot) b_end
                                (b_end + (h * 3600 + m * 60)) with
              | [] => negb (existsb (fun '(_, s) => negb (is_available s))
                              (overlapping_slots st (slot_place_id slot) b_end
                                                 (b_end + (h * 3600 + m * 60))))
              | _ => true
              end
          | _, _ => false
          end
      | CommitGoesThrough => negb c
      end
  end.

Definition first_failing_extension_check (MAX_BOOKING_HOURS : Z) (st : Store)
           (now user bid h m : Z) (c : bool) : option ExtendCheck :=
  List.find (fun chk => negb (extension_check_passes MAX_BOOKING_HOURS st
                                                     now user bid h m c chk))
            extension_order.

(** ** Administration: creating a zone *)

(** [schemas.ZoneCreate]. *)
Record ZoneCreate := mkZoneCreate {
  name : string;
  address : string;
  is_active : bool;
  places_count : Z
}.

Definition set_places (m : gmap Z Place) (st : Store) : Store :=
  mkStore (zones st) m (slots st) (bookings st) (events st).

(** One turn of the loop [for i in range(1, places_count + 1)]. *)
Definition add_place (zid : Z) (st : Store) (i : Z) : Store :=
  set_places
    (<[next_id (places st) := mkPlace (Some zid) ("Место " ++ pretty i)%string true]>
       (places st)) st.

(** [create_zone]: the zone, then its places, numbered from 1. *)
Definition create_zone (st : Store) (data : ZoneCreate) : Z * Zone * Store :=
  let zone := mkZone (name data) (address data) (is_active data) None None in
  let zid := next_id (zones st) in
  let st := set_zones (<[zid := zone]> (zones st)) st in
  let st := foldl (add_place zid) st (seqZ 1 (places_count data)) in
  (zid, zone, st).

(** Foreign keys of the store: places refer to zones and slots to places. *)
Definition places_reference_zones (st : Store) : Prop :=
  forall pid p z, places st !! pid = Some p -> place_zone_id p = Some z ->
                  is_Some (zones st !! z).

Definition slots_reference_places (st : Store) : Prop :=
  forall sid s pid, slots st !! sid = Some s -> slot_place_id s = Some pid ->
                    is_Some (places st !! pid).

(** ** Listings and statistics *)

(** The loop of [get_zones] over [zones_to_reactivate]. *)
Definition reactivate (z : Zone) : Zone :=
  mkZone (zone_name z) (zone_address z) true None None.

(** [is_active IS FALSE AND closed_until IS NOT NULL AND closed_until <= now]. *)
Definition due_for_reactivation (now : Z) (z : Zone) : bool :=
  negb (zone_is_active z) && col_leb (closed_until z) now.

Definition reactivate_zones (st : Store) (now : Z) : Store :=
  let zones_to_reactivate :=
    List.filter (fun '(_, z) => due_for_reactivation now z) (map_to_list (zones st)) in
  set_zones (foldl (fun m '(zid, _) => alter reactivate zid m)
                   (zones st) zones_to_reactivate) st.

(** The rows of [Zone -> Place -> Slot -> Booking] for one zone that carry
    a booking.  The outer joins add rows with no booking; their booking
    columns are NULL, so no [case] of the counts holds of them. *)
Definition JoinRow : Type := (Z * Place) * (Z * Slot) * (Z * Booking).

Definition joined_rows (st : Store) (z : Z) : list JoinRow :=
  '(pid, p) ← map_to_list (places st);
  if col_eqb (place_zone_id p) z then
    '(sid, s) ← map_to_list (slots st);
    if col_eqb (slot_place_id s) pid then
      '(bid, b) ← map_to_list (bookings st);
      if col_eqb (slot_id b) sid then [((pid, p), (sid, s), (bid, b))] else []
    else []
  else [].

(** [func.count(case((cond, 1)))]. *)
Definition count_case (cond : JoinRow -> bool) (rows : list JoinRow) : Z :=
  Z.of_nat (length (List.filter cond rows)).

Definition is_cancelled_status (s : Status) : bool :=
  match s with Cancelled => true | _ => false end.

(** One row of [stats_map]. *)
Record StatsRow := mkStatsRow {
  active_bookings : Z;
  cancelled_bookings : Z;
  current_occupancy : Z
}.

Definition stats_row (st : Store) (now z : Z) : StatsRow :=
  let rows := joined_rows st z in
  mkStatsRow
    (count_case (fun '(_, _, (_, b)) => is_active_status (status b)) rows)
    (count_case (fun '(_, _, (_, b)) => is_cancelled_status (status b)) rows)
    (count_case (fun '((_, p), _, (_, b)) =>
                   is_active_status (status b) && col_leb (start_time b) now
                   && col_gtb (end_time b) now && col_eqb (place_zone_id p) z)
                rows).

(** [schemas.ZoneOut] and [schemas.ZoneStatistics], without the
    timestamps of the row. *)
Module ZoneOut.
Record t := mk {
  id : Z;
  name : string;
  address : string;
  is_active : bool;
  closure_reason : option string;
  closed_until : option Z;
  active_bookings : Z;
  cancelled_bookings : Z;
  current_occupancy : Z
}.
End ZoneOut.

Module ZoneStatistics.
Record t := mk {
  zone_id : Z;
  zone_name : string;
  is_active : bool;
  closure_reason : option string;
  closed_until : option Z;
  active_bookings : Z;
  cancelled_bookings : Z;
  current_occupancy : Z
}.
End ZoneStatistics.

Section Listing.

(** [ORDER BY Zone.name], by the collation of the database. *)
Context (order_by_name : list (Z * Zone) -> list (Z * Zone)).

(** [get_zones].  The clock is read by the sweep ([now0]) and again for
    the reactivation and the occupancy ([now]).  Every listed zone is in
    [all_zone_ids], so [stats_map] has its row. *)
Definition get_zones (st : Store) (now0 now : Z) (include_inactive : bool)
  : list ZoneOut.t * Store :=
  let st := auto_complete_expired_bookings st now0 None in
  let st := reactivate_zones st now in
  let zones :=
    order_by_name
      (if include_inactive then map_to_list (zones st)
       else List.filter (fun '(_, z) => zone_is_active z) (map_to_list (zones st))) in
  (map (fun '(zid, zone) =>
          let row := stats_row st now zid in
          ZoneOut.mk zid (zone_name zone) (zone_address zone) (zone_is_active zone)
                     (closure_reason zone) (closed_until zone)
                     (active_bookings row) (cancelled_bookings row)
                     (current_occupancy row))
       zones,
   st).

(** [get_zones_statistics]: every zone, no reactivation. *)
Definition get_zones_statistics (st : Store) (now0 now : Z)
  : list ZoneStatistics.t * Store :=
  let st := auto_complete_expired_bookings st now0 None in
  let zones := order_by_name (map_to_list (zones st)) in
  (map (fun '(zid, zone) =>
          let row := stats_row st now zid in
          ZoneStatistics.mk zid (zone_name zone) (zone_is_active zone)
                            (closure_reason zone) (closed_until zone)
                            (active_bookings row) (cancelled_bookings row)
                            (current_occupancy row))
       zones,
   st).

End Listing.

(** [schemas.GlobalStatistics]. *)
Record GlobalStatistics := mkGlobalStatistics {
  total_active_bookings : Z;
  total_cancelled_bookings : Z;
  users_in_coworking_now : Z
}.

(** The rows of the third query of [get_global_statistics]. *)
Definition present_bookings (st : Store) (now : Z) : list (Z * Booking) :=
  List.filter (fun '(_, b) => is_active_status (status b)
                              && col_leb (start_time b) now
                              && col_gtb (end_time b) now)
              (map_to_list (bookings st)).

(** [get_global_statistics]; [count(distinct user_id)] by [remove_dups]. *)
Definition get_global_statistics (st : Store) (now0 now : Z)
  : GlobalStatistics * Store :=
  let st := auto_complete_expired_bookings st now0 None in
  let rows := map_to_list (bookings st) in
  let total_active :=
    Z.of_nat (length (List.filter (fun '(_, b) => is_active_status (status b)) rows)) in
  let total_cancelled :=
    Z.of_nat (length (List.filter (fun '(_, b) => is_cancelled_status (status b)) rows)) in
  let users_now :=
    Z.of_nat (length (remove_dups (map (fun row => user_id (snd row))
                                       (present_bookings st now)))) in
  (mkGlobalStatistics total_active total_cancelled users_now, st).

(** The number of bookings of a zone that satisfy a test. *)
Definition zone_count (st : Store) (z : Z) (cond : Booking -> bool) : Z :=
  Z.of_nat (length (List.filter (fun '(_, b) => in_zone st z b && cond b)
                                (map_to_list (bookings st)))).

(** The sum of a column. *)
Definition sum_Z (l : list Z) : Z := foldr Z.add 0 l.

(** Every booking lies, through its slot and place, in a zone of the store. *)
Definition bookings_reference_zones (st : Store) : Prop :=
  forall bid b, bookings st !! bid = Some b ->
    exists z, booking_zone st b = Some z /\ is_Some (zones st !! z).

(** ** Places of a zone and the history of a user *)

(** [get_places_by_zone]; [ORDER BY Place.name] by the collation of the
    database. *)
Definition get_places_by_zone
           (order_by_place_name : list (Z * Place) -> list (Z * Place))
           (st : Store) (zone_id : Z) : list (Z * Place) :=
  order_by_place_name
    (List.filter (fun '(_, p) => col_eqb (place_zone_id p) zone_id && place_is_active p)
                 (map_to_list (places st))).

(** The fields of [schemas.BookingHistoryFilters] that the query reads. *)
Module BookingHistoryFilters.
Record t := mk {
  status : option string;
  zone_id : option Z;
  date_from : option Z;
  date_to : option Z
}.
End BookingHistoryFilters.

(** Python truthiness of an optional string: [if filters.status:]. *)
Definition truthy_string (o : option string) : bool :=
  match o with
  | Some s => negb (String.eqb s "")
  | None => false
  end.

(** The inner joins [Booking -> Slot -> Place -> Zone], each on a key. *)
Definition history_join (st : Store) (b : Booking) : option (Slot * Place * Z) :=
  sid ← slot_id b; s ← slots st !! sid;
  pid ← slot_place_id s; p ← places st !! pid;
  zid ← place_zone_id p; _ ← zones st !! zid;
  Some (s, p, zid).

(** The conjunction of [conds]; a filter that is not set adds no condition. *)
Definition history_conds (filters : BookingHistoryFilters.t)
           (b : Booking) (s : Slot) (zid : Z) : bool :=
  (if truthy_string (BookingHistoryFilters.status filters)
   then match BookingHistoryFilters.status filters with
        | Some x => String.eqb (status_name (status b)) x
        | None => true
        end
   else true)
  && (if truthy_id (BookingHistoryFilters.zone_id filters)
      then match BookingHistoryFilters.zone_id filters with
           | Some z => zid =? z
           | None => true
           end
      else true)
  && match BookingHistoryFilters.date_from filters with
     | Some d => d <=? slot_start_time s
     | None => true
     end
  && match BookingHistoryFilters.date_to filters with
     | Some d => slot_start_time s <=? d
     | None => true
     end.

Section History.

(** [ORDER BY Booking.created_at DESC], and the instance that
    [schemas.BookingHistoryFilters()] builds. *)
Context (order_by_created_at : list (Z * Booking) -> list (Z * Booking)).
Context (default_filters : BookingHistoryFilters.t).

(** [get_booking_history]. *)
Definition get_booking_history (st : Store) (now : Z) (user : Z)
           (filters : option BookingHistoryFilters.t)
  : list (Z * Booking) * Store :=
  let st := auto_complete_expired_bookings st now None in
  let filters := match filters with Some f => f | None => default_filters end in
  (order_by_created_at
     (List.filter
        (fun '(_, b) =>
           match history_join st b with
           | Some (s, _, zid) => (user_id b =? user) && history_conds filters b s zid
           | None => false
           end)
        (map_to_list (bookings st))),
   st).

End History.

(** ** A worked scenario

    One zone with one active place; user 1 books 10:00 to 12:00 and then
    extends by an hour. *)

Module Scenario.

Definition hall : Zone := mkZone "Hall" "1 Main Street" true None None.

Definition empty_hall : Store :=
  mkStore {[1 := hall]} {[1 := mkPlace (Some 1) "Place 1" true]} ∅ ∅ [].

(** A parser that knows one date. *)
Definition parse (s : string) : option Z :=
  if String.eqb s "2025-01-10" then Some 20098 else None.

Definition max_hours : Z := 6.

Definition morning : BookingCreateTimeRange :=
  mkBookingCreateTimeRange 1 "2025-01-10" 10 0 12 0.

Definition ten : Z := 20098 * 86400 + 10 * 3600.
Definition noon : Z := 20098 * 86400 + 12 * 3600.

Definition booked : Store :=
  snd (create_booking_by_time_range max_hours parse empty_hall 1 morning false).

Definition original : Booking :=
  mkBooking 1 (Some 1) Active (Some "Hall") (Some "1 Main Street")
            (Some ten) (Some noon) None.

Definition extension : Booking :=
  mkBooking 1 (Some 2) Active (Some "Hall") (Some "1 Main Street")
            (Some noon) (Some (noon + 3600)) None.

Definition extended : Store :=
  snd (extend_booking max_hours booked 0 0 1 1 1 0 false).

Definition cancelled : Store :=
  snd (cancel_booking booked 1 1 false false).

Definition closure : ZoneCloseRequest :=
  mkZoneCloseRequest "repairs" (20098 * 86400 + 9 * 3600) (20098 * 86400 + 17 * 3600).

(** A store with one free slot on the place. *)
Definition with_free_slot : Store :=
  mkStore {[1 := hall]} {[1 := mkPlace (Some 1) "Place 1" true]}
          {[1 := mkSlot (Some 1) ten noon true]} ∅ [].

(** A second zone with two places, and the same morning asked of it. *)
Definition annex : ZoneCreate := mkZoneCreate "Annex" "2 Side Street" true 2.

Definition annex_morning : BookingCreateTimeRange :=
  mkBookingCreateTimeRange 2 "2025-01-10" 10 0 12 0.

(** The hall closed for repairs while user 1 holds the morning. *)
Definition closed : Store := snd (close_zone booked 1 closure).

Definition five : Z := 20098 * 86400 + 17 * 3600.

(** Sorting by insertion, for the [ORDER BY] of the listings: zones and
    places by name, bookings latest first (keys grow with creation). *)
Fixpoint insert_by {A} (leb : A -> A -> bool) (x : A) (l : list A) : list A :=
  match l with
  | [] => [x]
  | y :: r => if leb x y then x :: l else y :: insert_by leb x r
  end.

Definition sort_by {A} (leb : A -> A -> bool) (l : list A) : list A :=
  foldr (insert_by leb) [] l.

Definition by_name : list (Z * Zone) -> list (Z * Zone) :=
  sort_by (fun x y => String.leb (zone_name (snd x)) (zone_name (snd y))).

Definition by_place_name : list (Z * Place) -> list (Z * Place) :=
  sort_by (fun x y => String.leb (place_name (snd x)) (place_name (snd y))).

Definition latest_first : list (Z * Booking) -> list (Z * Booking) :=
  sort_by (fun x y => fst y <=? fst x).

(** No filter set, and a filter on the hall with the other fields unset. *)
Definition no_filters : BookingHistoryFilters.t :=
  BookingHistoryFilters.mk None None None None.

Definition hall_only : BookingHistoryFilters.t :=
  BookingHistoryFilters.mk (Some "") (Some 1) None None.

(** The hall with a second place, nothing booked. *)
Definition two_places : Store :=
  mkStore {[1 := hall]}
          {[1 := mkPlace (Some 1) "Place 1" true;
            2 := mkPlace (Some 1) "Place 2" true]} ∅ ∅ [].

End Scenario.

(** * Properties *)

(** ** Lists of rows *)

Section ListFacts.
Context {A : Type}.
Implicit Types (f g : A -> bool) (l : list A).

Lemma filter_length_le f g l :
  (forall x, In x l -> f x = true -> g x = true) ->
  (length (List.filter f l) <= length (List.filter g l))%nat.
Proof.
  induction l as [|x l IH]; intros H; simpl; [lia|].
  assert (IH' : (length (List.filter f l) <= length (List.filter g l))%nat).
  { apply IH. intros y Hy. apply H. now right. }
  destruct (f x) eqn:Hf.
  - rewrite (H x (or_introl eq_refl) Hf). simpl. lia.
  - destruct (g x); simpl; lia.
Qed.

Lemma filter_length_ext f g l :
  (forall x, In x l -> f x = g x) ->
  length (List.filter f l) = length (List.filter g l).
Proof.
  intros H. apply Nat.le_antisymm; apply filter_length_le; intros x Hx Hfx.
  - now rewrite <- (H x Hx).
  - now rewrite (H x Hx).
Qed.

Lemma filter_twice f g l :
  List.filter f (List.filter g l) = List.filter (fun x => g x && f x) l.
Proof.
  induction l as [|x l IH]; simpl; [reflexivity|].
  destruct (g x); simpl; [destruct (f x)|]; now rewrite IH.
Qed.

End ListFacts.

(** ** The sorted set of time points *)

Lemma insert_point_In x y l : In y (insert_point x l) <-> y = x \/ In y l.
Proof.
  induction l as [|z l IH]; simpl.
  - intuition congruence.
  - destruct (x <? z) eqn:Hlt; simpl; [intuition congruence|].
    destruct (x =? z) eqn:Heq; simpl.
    + apply Z.eqb_eq in Heq. subst. intuition congruence.
    + rewrite IH. intuition congruence.
Qed.

Lemma sorted_set_In y l : In y (sorted_set l) <-> In y l.
Proof.
  unfold sorted_set. induction l as [|x l IH]; simpl; [tauto|].
  rewrite insert_point_In, IH. intuition congruence.
Qed.

Lemma insert_point_increasing x l : increasing l -> increasing (insert_point x l).
Proof.
  induction l as [|y l IH]; simpl; [tauto|].
  intros [Hy Hl].
  destruct (x <? y) eqn:Hlt; [apply Z.ltb_lt in Hlt; simpl; tauto|].
  destruct (x =? y) eqn:Heq; [simpl; tauto|].
  apply Z.ltb_ge in Hlt. apply Z.eqb_neq in Heq.
  specialize (IH Hl). split; [|exact IH].
  destruct l as [|z l]; simpl in *; [lia|].
  destruct (x <? z); [lia|]. destruct (x =? z); [lia|]. lia.
Qed.

Lemma sorted_set_increasing l : increasing (sorted_set l).
Proof.
  unfold sorted_set. induction l; simpl; [exact I|].
  now apply insert_point_increasing.
Qed.

Lemma point_before_dec (l : list Z) (t : Z) :
  (exists x, In x l /\ x <= t) \/ ~ (exists x, In x l /\ x <= t).
Proof.
  induction l as [|y l [IH|IH]].
  - right. intros [x [[] _]].
  - left. destruct IH as [x [Hx Hle]]. exists x. split; [now right|assumption].
  - destruct (Z_le_gt_dec y t) as [Hyt|Hyt].
    + left. exists y. split; [now left|assumption].
    + right. intros [x [[->|Hx] Hle]]; [lia|]. apply IH. eauto.
Qed.

(** Among finitely many points, the last one not after [t]. *)
Lemma last_point_before (l : list Z) (t : Z) :
  (exists x, In x l /\ x <= t) ->
  exists p, In p l /\ p <= t /\ forall x, In x l -> x <= t -> x <= p.
Proof.
  induction l as [|y l IH]; intros [x [Hx Hle]]; [destruct Hx|].
  destruct (point_before_dec l t) as [Hsome|Hnone].
  - destruct (IH Hsome) as [p [Hp [Hpt Hmax]]].
    destruct (Z_le_gt_dec y t) as [Hyt|Hyt].
    + destruct (Z_le_gt_dec y p).
      * exists p. repeat split; [now right|assumption|].
        intros z [->|Hz] Hzt; [assumption|now apply Hmax].
      * exists y. repeat split; [now left|assumption|].
        intros z [->|Hz] Hzt; [lia|]. specialize (Hmax z Hz Hzt). lia.
    + exists p. repeat split; [now right|assumption|].
      intros z [->|Hz] Hzt; [lia|now apply Hmax].
  - exists y. destruct Hx as [->|Hx]; [|exfalso; apply Hnone; eauto].
    repeat split; [now left|assumption|].
    intros z [->|Hz] Hzt; [lia|]. exfalso. apply Hnone. eauto.
Qed.

(** ** The sweep over the time points *)

Lemma sweep_false_iff cap start_t end_t bs points :
  sweep cap start_t end_t bs points = false <->
  exists t, In t points /\ in_window start_t end_t t /\ cap < count_at bs t + 1.
Proof.
  unfold in_window. induction points as [|p points IH]; simpl.
  - split; [discriminate|]. intros [t [[] _]].
  - destruct (p <? start_t) eqn:Hlo; simpl.
    { apply Z.ltb_lt in Hlo. rewrite IH. split.
      - intros [t [Ht Hr]]. exists t. tauto.
      - intros [t [[->|Ht] Hr]]; [lia|]. exists t. tauto. }
    destruct (end_t <=? p) eqn:Hhi; simpl.
    { apply Z.leb_le in Hhi. rewrite IH. split.
      - intros [t [Ht Hr]]. exists t. tauto.
      - intros [t [[->|Ht] Hr]]; [lia|]. exists t. tauto. }
    apply Z.ltb_ge in Hlo. apply Z.leb_gt in Hhi.
    replace ((start_t <=? p) && (p <? end_t)) with true
      by (symmetry; apply andb_true_iff; split; [apply Z.leb_le|apply Z.ltb_lt]; lia).
    destruct (cap <? count_at bs p + 1) eqn:Hcap.
    + apply Z.ltb_lt in Hcap. split; [|reflexivity].
      intros _. exists p. split; [now left|]. split; [lia|assumption].
    + apply Z.ltb_ge in Hcap. rewrite IH. split.
      * intros [t [Ht Hr]]. exists t. tauto.
      * intros [t [[->|Ht] Hr]]; [lia|]. exists t. tauto.
Qed.

Lemma contains_spec b t :
  contains b t = true <->
  exists bs be, start_time b = Some bs /\ end_time b = Some be /\ bs <= t < be.
Proof.
  unfold contains. destruct (start_time b) as [bs|], (end_time b) as [be|].
  - rewrite andb_true_iff, Z.leb_le, Z.ltb_lt. split.
    + intros H. exists bs, be. tauto.
    + intros [? [? [[= <-] [[= <-] H]]]]. exact H.
  - split; [discriminate|]. intros [? [? [_ [[=] _]]]].
  - split; [discriminate|]. intros [? [? [[=] _]]].
  - split; [discriminate|]. intros [? [? [[=] _]]].
Qed.

Lemma time_points_In start_t end_t bs t :
  In t (time_points start_t end_t bs) <->
  t = start_t \/ t = end_t \/
  exists bid b, In (bid, b) bs /\ In t (booking_points b).
Proof.
  unfold time_points. rewrite sorted_set_In. simpl. rewrite in_flat_map.
  split.
  - intros [<-|[<-|[[bid b] [Hin Ht]]]]; eauto 6.
  - intros [->|[->|[bid [b [Hin Ht]]]]]; [now left|right; now left|].
    right. right. exists (bid, b). tauto.
Qed.

(** Every instant of the window has the same count as some earlier checked
    point of the window, or a smaller one. *)
Lemma count_at_dominated start_t end_t bs t :
  in_window start_t end_t t ->
  exists p, In p (time_points start_t end_t bs) /\ in_window start_t end_t p /\
            count_at bs t <= count_at bs p.
Proof.
  unfold in_window. intros Ht.
  destruct (last_point_before (time_points start_t end_t bs) t) as [p [Hp [Hpt Hmax]]].
  { exists start_t. split; [|lia]. apply time_points_In. now left. }
  exists p. split; [assumption|]. split.
  - split; [|lia]. apply Hmax; [|lia]. apply time_points_In. now left.
  - unfold count_at. apply inj_le, filter_length_le.
    intros [bid b] Hin Hc. apply contains_spec in Hc as [s0 [e0 [Hs [He Hr]]]].
    apply contains_spec. exists s0, e0. repeat split; try assumption; [|lia].
    apply Hmax; [|lia]. apply time_points_In. right. right. exists bid, b.
    split; [assumption|]. unfold booking_points. rewrite Hs, He. now left.
Qed.

(** Checking the boundary points is checking every instant. *)
Lemma capacity_sweep_exact cap start_t end_t bs :
  capacity_sweep cap start_t end_t bs = true <->
  forall t, in_window start_t end_t t -> count_at bs t + 1 <= cap.
Proof.
  unfold capacity_sweep. split.
  - intros Hsw t Ht.
    destruct (count_at_dominated start_t end_t bs t Ht) as [p [Hp [Hw Hle]]].
    destruct (Z_le_gt_dec (count_at bs p + 1) cap) as [Hok|Hbad]; [lia|].
    assert (Hf : sweep cap start_t end_t bs (time_points start_t end_t bs) = false).
    { apply sweep_false_iff. exists p. repeat split; try assumption; try apply Hw. lia. }
    congruence.
  - intros Hall.
    destruct (sweep cap start_t end_t bs (time_points start_t end_t bs)) eqn:Hsw;
      [reflexivity|].
    apply sweep_false_iff in Hsw as [t [_ [Hw Hbad]]].
    specialize (Hall t Hw). lia.
Qed.

Lemma In_map_to_list {V} (m : gmap Z V) (k : Z) (v : V) :
  In (k, v) (map_to_list m) <-> m !! k = Some v.
Proof. rewrite <- list_elem_of_In. apply elem_of_map_to_list. Qed.

(** ** The rows of a table *)

Lemma filter_length_Permutation {A} (f : A -> bool) (l l' : list A) :
  Permutation l l' -> length (List.filter f l) = length (List.filter f l').
Proof.
  induction 1 as [|x l l' _ IH|x y l|l l' l'' _ IH1 _ IH2]; simpl.
  - reflexivity.
  - destruct (f x); simpl; now rewrite IH.
  - destruct (f x), (f y); reflexivity.
  - now rewrite IH1.
Qed.

Lemma insert_row_Permutation {V} (row : Z * V) rows :
  insert_row row rows ≡ₚ row :: rows.
Proof.
  induction rows as [|r rest IH]; simpl; [reflexivity|].
  destruct (fst row <=? fst r); [reflexivity|].
  rewrite IH. apply Permutation_swap.
Qed.

Lemma scan_Permutation {V} (m : gmap Z V) : scan m ≡ₚ map_to_list m.
Proof.
  unfold scan. induction (map_to_list m) as [|row rows IH]; simpl; [reflexivity|].
  rewrite insert_row_Permutation. now rewrite IH.
Qed.

Lemma In_scan {V} (m : gmap Z V) (k : Z) (v : V) :
  In (k, v) (scan m) <-> m !! k = Some v.
Proof.
  rewrite <- In_map_to_list, <- !list_elem_of_In. now rewrite scan_Permutation.
Qed.

Lemma scan_NoDup {V} (m : gmap Z V) : NoDup (map fst (scan m)).
Proof.
  change (NoDup (fst <$> scan m)). rewrite scan_Permutation.
  apply NoDup_fst_map_to_list.
Qed.

Lemma insert_row_ascending {V} (row : Z * V) rows :
  ascending rows -> ascending (insert_row row rows).
Proof.
  induction rows as [|r rest IH]; simpl; [tauto|]. intros [Hr Hrest].
  destruct (Z.leb_spec (fst row) (fst r)) as [Hle|Hgt]; simpl.
  - split; [|tauto]. intros r' [<-|Hin]; [assumption|]. specialize (Hr r' Hin). lia.
  - split; [|now apply IH]. intros r' Hin.
    apply list_elem_of_In in Hin. rewrite insert_row_Permutation in Hin.
    apply list_elem_of_In in Hin as [<-|Hin]; [lia|now apply Hr].
Qed.

Lemma scan_ascending {V} (m : gmap Z V) : ascending (scan m).
Proof.
  unfold scan. induction (map_to_list m) as [|row rows IH]; simpl; [exact I|].
  now apply insert_row_ascending.
Qed.

Lemma filter_ascending {V} (f : Z * V -> bool) rows :
  ascending rows -> ascending (List.filter f rows).
Proof.
  induction rows as [|r rest IH]; simpl; [tauto|]. intros [Hr Hrest].
  destruct (f r); simpl; [|now apply IH].
  split; [|now apply IH]. intros r' Hin. apply filter_In in Hin as [Hin _]. now apply Hr.
Qed.

(** The first row that passes a test comes before every other row that
    passes it. *)
Lemma find_ascending {V} (f : Z * V -> bool) rows r :
  ascending rows -> List.find f rows = Some r ->
  In r rows /\ f r = true /\
  forall r', In r' rows -> f r' = true -> fst r <= fst r'.
Proof.
  induction rows as [|x rest IH]; simpl; [discriminate|]. intros [Hx Hrest].
  destruct (f x) eqn:Hfx.
  - intros [= <-]. split; [now left|]. split; [assumption|].
    intros r' [<-|Hin] _; [lia|now apply Hx].
  - intros Hfind. destruct (IH Hrest Hfind) as (Hin & Hfr & Hmin).
    split; [now right|]. split; [assumption|].
    intros r' [<-|Hin'] Hf'; [congruence|now apply Hmin].
Qed.

Lemma overlapping_bookings_In st z start_t end_t bid b :
  In (bid, b) (overlapping_bookings st z start_t end_t) <->
  bookings st !! bid = Some b /\ in_zone st z b = true /\ status b = Active /\
  exists bs be, start_time b = Some bs /\ end_time b = Some be /\
                bs < end_t /\ start_t < be.
Proof.
  unfold overlapping_bookings. rewrite filter_In, In_map_to_list.
  rewrite !andb_true_iff. unfold col_ltb, col_gtb.
  assert (Hact : is_active_status (status b) = true <-> status b = Active)
    by (destruct (status b); simpl; split; congruence).
  rewrite Hact.
  destruct (start_time b) as [bs|], (end_time b) as [be|];
    rewrite ?Z.ltb_lt; split.
  - intros [? [[[? ?] ?] ?]]. repeat split; try assumption. exists bs, be. tauto.
  - intros [? [? [? [? [? [[= <-] [[= <-] [? ?]]]]]]]]. tauto.
  - intros [? [_ [=]]].
  - intros [_ [_ [_ [? [? [_ [[=] _]]]]]]].
  - intros [? [[_ [=]] _]].
  - intros [_ [_ [_ [? [? [[=] _]]]]]].
  - intros [? [[_ [=]] _]].
  - intros [_ [_ [_ [? [? [[=] _]]]]]].
Qed.

(** ** The capacity checker *)

Lemma time_points_boundary st z start_t end_t t :
  In t (time_points start_t end_t (overlapping_bookings st z start_t end_t)) <->
  boundary_point start_t end_t (overlapping_bookings st z start_t end_t) t.
Proof.
  rewrite time_points_In. unfold boundary_point.
  split; (intros [H|[H|[bid [b [Hin H]]]]]; [now left|right; now left|]);
    right; right; exists bid, b; (split; [assumption|]);
    pose proof Hin as Hin';
    apply overlapping_bookings_In in Hin' as [_ [_ [_ [bs [be [Hs [He _]]]]]]];
    unfold booking_points in *; rewrite Hs, He in *; simpl in *.
  - destruct H as [<-|[<-|[]]]; [now left|now right].
  - destruct H as [[= <-]|[= <-]]; [now left|right; now left].
Qed.

(** Counting by a filter of a table. *)
Lemma number_of_filter {A} (f : A -> bool) (l : list A) (P : A -> Prop) :
  NoDup l -> (forall x, P x <-> In x l /\ f x = true) ->
  number_of P (Z.of_nat (length (List.filter f l))).
Proof.
  intros Hnd HP. exists (List.filter f l). split; [|split; [|reflexivity]].
  - now apply NoDup_ListNoDup, List.NoDup_filter, NoDup_ListNoDup.
  - intros x. rewrite list_elem_of_In, filter_In. symmetry. apply HP.
Qed.

Lemma number_of_unique {A} (P : A -> Prop) (n n' : Z) :
  number_of P n -> number_of P n' -> n = n'.
Proof.
  intros (l & Hl & HP & ->) (l' & Hl' & HP' & ->). f_equal.
  apply Permutation_length, NoDup_Permutation; try assumption.
  intros x. now rewrite HP, HP'.
Qed.

Lemma in_zone_true st z b : in_zone st z b = true <-> booking_zone st b = Some z.
Proof.
  unfold in_zone. destruct (booking_zone st b) as [z'|].
  - rewrite Z.eqb_eq. split; congruence.
  - split; discriminate.
Qed.

Lemma booking_zone_joins st z b :
  booking_zone st b = Some z <-> booked_in_zone st z b.
Proof.
  unfold booking_zone, booking_slot, slot_zone, booked_in_zone. split.
  - intros H. destruct (slot_id b) as [sid|]; [|discriminate]. simpl in H.
    destruct (slots st !! sid) as [s|] eqn:Hs; [|discriminate]. simpl in H.
    destruct (slot_place_id s) as [pid|] eqn:Hpid; [|discriminate]. simpl in H.
    destruct (places st !! pid) as [p|] eqn:Hp; [|discriminate]. simpl in H.
    exists sid, s, pid, p. repeat split; assumption.
  - intros (sid & s & pid & p & -> & Hs & Hpid & Hp & Hz). simpl.
    rewrite Hs. simpl. rewrite Hpid. simpl. rewrite Hp. exact Hz.
Qed.

Lemma overlapping_bookings_rows st z start_t end_t row :
  In row (overlapping_bookings st z start_t end_t) <->
  overlaps_candidate st z start_t end_t row.
Proof.
  destruct row as [bid b]. rewrite overlapping_bookings_In.
  unfold overlaps_candidate. cbn [fst snd].
  now rewrite in_zone_true, booking_zone_joins.
Qed.

Lemma overlapping_bookings_NoDup st z start_t end_t :
  NoDup (overlapping_bookings st z start_t end_t).
Proof.
  unfold overlapping_bookings.
  apply NoDup_ListNoDup, List.NoDup_filter, NoDup_ListNoDup, NoDup_map_to_list.
Qed.

(** The inner loop counts the overlapping bookings that contain [t]. *)
Lemma count_at_occupies st z start_t end_t t :
  number_of (occupies st z start_t end_t t)
            (count_at (overlapping_bookings st z start_t end_t) t).
Proof.
  unfold count_at. apply number_of_filter; [apply overlapping_bookings_NoDup|].
  intros [bid b]. unfold occupies. cbn [snd].
  now rewrite overlapping_bookings_rows, contains_spec.
Qed.

(** The place count is the number of active places of the zone. *)
Lemma max_capacity_active_places st z :
  number_of (active_place_of st z) (max_capacity st z).
Proof.
  unfold max_capacity. apply number_of_filter; [apply NoDup_map_to_list|].
  intros [pid p]. unfold active_place_of. cbn [fst snd].
  rewrite In_map_to_list, andb_true_iff. unfold col_eqb.
  destruct (place_zone_id p) as [z'|]; [rewrite Z.eqb_eq|];
    intuition (try congruence; try discriminate).
Qed.

Lemma sweep_point_boundary st z start_t end_t t :
  boundary_point start_t end_t (overlapping_bookings st z start_t end_t) t <->
  sweep_point st z start_t end_t t.
Proof.
  unfold boundary_point, sweep_point. split.
  - intros [H|[H|(bid & b & Hin & H)]]; [now left|right; now left|].
    right. right. exists (bid, b). split; [|exact H].
    now apply overlapping_bookings_rows.
  - intros [H|[H|([bid b] & Hin & H)]]; [now left|right; now left|].
    right. right. exists bid, b. split; [|exact H].
    now apply overlapping_bookings_rows.
Qed.

(** The sweep over the fetched list, in terms of its own count. *)
Lemma check_zone_capacity_sweep st z start_t end_t :
  max_capacity st z <> 0 ->
  (check_zone_capacity st z start_t end_t = false <->
   exists t,
     boundary_point start_t end_t (overlapping_bookings st z start_t end_t) t /\
     start_t <= t < end_t /\
     max_capacity st z < count_at (overlapping_bookings st z start_t end_t) t + 1).
Proof.
  intros Hcap. unfold check_zone_capacity, capacity_sweep.
  apply Z.eqb_neq in Hcap. rewrite Hcap.
  rewrite sweep_false_iff. unfold in_window.
  split; intros [t [Hb Hr]]; exists t; (split; [|exact Hr]);
    now apply time_points_boundary.
Qed.

(** C2: [check_zone_capacity] is false for a zone without active places;
    otherwise it fetches the zone's active bookings overlapping the
    candidate, and is false exactly when at some distinct boundary point
    inside the candidate interval the number of fetched bookings [b] with
    [b.start <= t < b.end], plus one for the candidate, exceeds the number
    of active places. *)
Theorem check_zone_capacity_boundary_sweep (st : Store) (z start_t end_t : Z) :
  exists cap,
    number_of (active_place_of st z) cap /\
    (forall row,
        In row (overlapping_bookings st z start_t end_t) <->
        overlaps_candidate st z start_t end_t row) /\
    (forall t,
        In t (time_points start_t end_t (overlapping_bookings st z start_t end_t)) <->
        sweep_point st z start_t end_t t) /\
    increasing (time_points start_t end_t (overlapping_bookings st z start_t end_t)) /\
    (forall t,
        number_of (occupies st z start_t end_t t)
                  (count_at (overlapping_bookings st z start_t end_t) t)) /\
    (cap = 0 -> check_zone_capacity st z start_t end_t = false) /\
    (cap <> 0 ->
     (check_zone_capacity st z start_t end_t = false <->
      exists t n,
        sweep_point st z start_t end_t t /\ start_t <= t < end_t /\
        number_of (occupies st z start_t end_t t) n /\ cap < n + 1) /\
     (check_zone_capacity st z start_t end_t = true <->
      forall t n,
        sweep_point st z start_t end_t t -> start_t <= t < end_t ->
        number_of (occupies st z start_t end_t t) n -> n + 1 <= cap)).
Proof.
  exists (max_capacity st z).
  split; [apply max_capacity_active_places|].
  split; [intros; apply overlapping_bookings_rows|].
  split; [intros t; rewrite time_points_boundary; apply sweep_point_boundary|].
  split; [apply sorted_set_increasing|].
  split; [intros; apply count_at_occupies|].
  split; [intros H; unfold check_zone_capacity; now rewrite H|].
  intros Hcap.
  assert (Hfalse :
    check_zone_capacity st z start_t end_t = false <->
    exists t n,
      sweep_point st z start_t end_t t /\ start_t <= t < end_t /\
      number_of (occupies st z start_t end_t t) n /\ max_capacity st z < n + 1).
  { rewrite (check_zone_capacity_sweep st z start_t end_t Hcap). split.
    - intros (t & Hb & Hw & Hlt).
      exists t, (count_at (overlapping_bookings st z start_t end_t) t).
      split; [now apply sweep_point_boundary|]. split; [exact Hw|].
      split; [apply count_at_occupies|exact Hlt].
    - intros (t & n & Hb & Hw & Hn & Hlt). exists t.
      split; [now apply sweep_point_boundary|]. split; [exact Hw|].
      now rewrite (number_of_unique _ _ _ (count_at_occupies st z start_t end_t t) Hn). }
  split; [exact Hfalse|]. split.
  - intros Htrue t n Hb Hw Hn.
    destruct (Z_le_gt_dec (n + 1) (max_capacity st z)) as [Hok|Hbad]; [exact Hok|].
    assert (Hf : check_zone_capacity st z start_t end_t = false).
    { apply Hfalse. exists t, n. repeat split; try assumption; try apply Hw. lia. }
    congruence.
  - intros Hall. apply not_false_iff_true. intros Hf.
    apply Hfalse in Hf as (t & n & Hb & Hw & Hn & Hbad).
    specialize (Hall t n Hb Hw Hn). lia.
Qed.

(** C3: for a zone with an active place, the check succeeds if and only if
    at every instant [t] of the candidate interval the number of
    overlapping active bookings [b] of the zone with [b.start <= t < b.end],
    plus one for the candidate, is at most the number of active places; the
    result is a function of the place count and the fetched list alone. *)
Theorem check_zone_capacity_exact (st : Store) (z start_t end_t cap : Z) :
  number_of (active_place_of st z) cap -> cap <> 0 ->
  (check_zone_capacity st z start_t end_t = true <->
   forall t, start_t <= t < end_t ->
     forall n, number_of (occupies st z start_t end_t t) n -> n + 1 <= cap) /\
  (forall t, exists n, number_of (occupies st z start_t end_t t) n) /\
  check_zone_capacity st z start_t end_t
  = capacity_sweep cap start_t end_t (overlapping_bookings st z start_t end_t) /\
  (forall st' z',
      number_of (active_place_of st' z') cap ->
      overlapping_bookings st' z' start_t end_t
      = overlapping_bookings st z start_t end_t ->
      check_zone_capacity st' z' start_t end_t
      = check_zone_capacity st z start_t end_t).
Proof.
  intros Hnum Hcap.
  assert (Hmax : forall st0 z0, number_of (active_place_of st0 z0) cap ->
                                max_capacity st0 z0 = cap).
  { intros st0 z0 H.
    exact (number_of_unique _ _ _ (max_capacity_active_places st0 z0) H). }
  assert (Hcheck : forall st0 z0, number_of (active_place_of st0 z0) cap ->
            check_zone_capacity st0 z0 start_t end_t
            = capacity_sweep cap start_t end_t
                             (overlapping_bookings st0 z0 start_t end_t)).
  { intros st0 z0 H. unfold check_zone_capacity. rewrite (Hmax st0 z0 H).
    apply Z.eqb_neq in Hcap. now rewrite Hcap. }
  split; [|split; [|split]].
  - rewrite (Hcheck st z Hnum), capacity_sweep_exact. unfold in_window. split.
    + intros H t Ht n Hn.
      rewrite <- (number_of_unique _ _ _ (count_at_occupies st z start_t end_t t) Hn).
      now apply H.
    + intros H t Ht. apply (H t Ht). apply count_at_occupies.
  - intros t. eexists. apply count_at_occupies.
  - now apply Hcheck.
  - intros st' z' H' Ho. rewrite (Hcheck st' z' H'), (Hcheck st z Hnum). now rewrite Ho.
Qed.

(** ** Keys and row updates *)

Lemma next_id_above {V} (m : gmap Z V) (k : Z) (v : V) :
  m !! k = Some v -> k < next_id m.
Proof.
  intros H. apply In_map_to_list in H. unfold next_id.
  induction (map_to_list m) as [|[k' v'] l IH]; [destruct H|].
  simpl. destruct H as [[= -> ->]|H]; [lia|]. specialize (IH H). lia.
Qed.

Lemma next_id_fresh {V} (m : gmap Z V) : m !! next_id m = None.
Proof.
  destruct (m !! next_id m) as [v|] eqn:H; [|reflexivity].
  apply next_id_above in H. lia.
Qed.

Lemma next_id_positive {V} (m : gmap Z V) : 0 < next_id m.
Proof.
  unfold next_id. induction (map_to_list m) as [|[k v] l IH]; simpl; lia.
Qed.

(** A loop that applies an idempotent update to each listed row. *)
Lemma foldl_alter_lookup {V} (f : V -> V) (keys : list Z) (m : gmap Z V) (k : Z) :
  (forall x, f (f x) = f x) ->
  foldl (fun m i => alter f i m) m keys !! k
  = if decide (k ∈ keys) then f <$> m !! k else m !! k.
Proof.
  intros Hf. revert m. induction keys as [|i keys IH]; intros m; simpl.
  - destruct (decide (k ∈ [])) as [H|_]; [|reflexivity]. now apply elem_of_nil in H.
  - rewrite IH. destruct (decide (i = k)) as [->|Hne].
    + rewrite lookup_alter_eq.
      destruct (decide (k ∈ k :: keys)) as [_|H]; [|exfalso; apply H; left].
      destruct (decide (k ∈ keys)); [|reflexivity].
      destruct (m !! k); simpl; [now rewrite Hf|reflexivity].
    + rewrite lookup_alter_ne by assumption.
      destruct (decide (k ∈ keys)) as [H|H], (decide (k ∈ i :: keys)) as [H'|H'];
        try reflexivity.
      * exfalso. apply H'. now right.
      * apply elem_of_cons in H' as [->|H']; [congruence|contradiction].
Qed.

Lemma set_status_idempotent s b : set_status s (set_status s b) = set_status s b.
Proof. reflexivity. Qed.

Lemma set_available_idempotent a s : set_available a (set_available a s) = set_available a s.
Proof. reflexivity. Qed.

Lemma is_active_status_true s : is_active_status s = true <-> s = Active.
Proof. destruct s; simpl; split; congruence. Qed.

Lemma is_active_status_false s : is_active_status s = false <-> s <> Active.
Proof. destruct s; simpl; split; congruence. Qed.

(** ** Auto-completion *)

Lemma sweep_fold_keys {V} (f : V -> V) (rows : list (Z * V)) (m : gmap Z V) :
  foldl (fun m '(bid, _) => alter f bid m) m rows
  = foldl (fun m i => alter f i m) m (map fst rows).
Proof.
  revert m. induction rows as [|[i v] rows IH]; intros m; simpl; [reflexivity|].
  apply IH.
Qed.

(** The sweep form, row by row. *)
Lemma auto_complete_all_lookup st now bid :
  bookings (auto_complete_expired_bookings st now None) !! bid
  = (fun b => if expired now b then set_status Completed b else b)
      <$> bookings st !! bid.
Proof.
  simpl. rewrite sweep_fold_keys, foldl_alter_lookup by apply set_status_idempotent.
  destruct (bookings st !! bid) as [b|] eqn:Hb; simpl.
  - destruct (decide _) as [Hin|Hnin].
    + apply list_elem_of_In, in_map_iff in Hin as [[k b'] [Hk Hin]]. simpl in Hk. subst k.
      apply filter_In in Hin as [Hin Hexp]. apply In_map_to_list in Hin.
      rewrite Hb in Hin. injection Hin as <-. now rewrite Hexp.
    + destruct (expired now b) eqn:Hexp; [|reflexivity].
      exfalso. apply Hnin. apply list_elem_of_In, in_map_iff.
      exists (bid, b). split; [reflexivity|].
      apply filter_In. split; [now apply In_map_to_list|assumption].
  - now destruct (decide _).
Qed.

Lemma auto_complete_all_frame st now :
  zones (auto_complete_expired_bookings st now None) = zones st /\
  places (auto_complete_expired_bookings st now None) = places st /\
  slots (auto_complete_expired_bookings st now None) = slots st /\
  events (auto_complete_expired_bookings st now None) = events st.
Proof. repeat split. Qed.

Lemma auto_complete_one_lookup st now bid k :
  bookings (auto_complete_expired_bookings st now (Some bid)) !! k
  = (fun b => if decide (k = bid) then
                if expired now b then set_status Completed b else b
              else b) <$> bookings st !! k.
Proof.
  simpl. destruct (bookings st !! bid) as [b|] eqn:Hb.
  - destruct (expired now b) eqn:Hexp; simpl.
    + destruct (decide (k = bid)) as [->|Hne].
      * rewrite lookup_insert_eq, Hb. simpl. now rewrite Hexp.
      * rewrite lookup_insert_ne by congruence. now destruct (bookings st !! k).
    + destruct (decide (k = bid)) as [->|Hne].
      * rewrite Hb. simpl. now rewrite Hexp.
      * now destruct (bookings st !! k).
  - destruct (decide (k = bid)) as [->|Hne].
    + now rewrite Hb.
    + now destruct (bookings st !! k).
Qed.

Lemma auto_complete_one_frame st now bid :
  zones (auto_complete_expired_bookings st now (Some bid)) = zones st /\
  places (auto_complete_expired_bookings st now (Some bid)) = places st /\
  slots (auto_complete_expired_bookings st now (Some bid)) = slots st /\
  events (auto_complete_expired_bookings st now (Some bid)) = events st.
Proof.
  simpl. destruct (bookings st !! bid) as [b|]; [|tauto].
  destruct (expired now b); simpl; tauto.
Qed.

Lemma expired_at_end (now' : Z) b e :
  status b = Active -> end_time b = Some e -> e <= now' ->
  expired now' b = true.
Proof.
  intros Hs He Hle. unfold expired, col_leb. rewrite Hs, He. simpl.
  now apply Z.leb_le.
Qed.

Lemma not_expired now b :
  status b <> Active \/ (exists e, end_time b = Some e /\ now < e) ->
  expired now b = false.
Proof.
  unfold expired, col_leb. intros [Hs|[e [He Hlt]]].
  - apply is_active_status_false in Hs. now rewrite Hs.
  - rewrite He. apply andb_false_iff. right. now apply Z.leb_gt.
Qed.

(** ** Extension: the expiry test *)

Lemma new_end_time_spec b_end h m :
  new_end_time b_end h m
  = if (-999999999 <=? (h * 3600 + m * 60) / 86400)
       && ((h * 3600 + m * 60) / 86400 <=? 999999999)
       && (-62135596800 <=? b_end + (h * 3600 + m * 60))
       && (b_end + (h * 3600 + m * 60) <=? 253402300799)
    then Return (b_end + (h * 3600 + m * 60))
    else Raise OverflowError.
Proof.
  unfold new_end_time, timedelta, datetime_add, datetime_min, datetime_max.
  cbv zeta.
  destruct ((-999999999 <=? (h * 3600 + m * 60) / 86400)
            && ((h * 3600 + m * 60) / 86400 <=? 999999999)); [|reflexivity].
  cbn [andb].
  now destruct ((-62135596800 <=? b_end + (h * 3600 + m * 60))
                && (b_end + (h * 3600 + m * 60) <=? 253402300799)).
Qed.

Lemma new_end_time_Return b_end h m x :
  new_end_time b_end h m = Return x -> x = b_end + (h * 3600 + m * 60).
Proof.
  rewrite new_end_time_spec. destruct (_ && _); [|discriminate]. now intros [= <-].
Qed.

Lemma new_end_time_Raise b_end h m e :
  new_end_time b_end h m = Raise e -> e = OverflowError.
Proof.
  rewrite new_end_time_spec. destruct (_ && _); [discriminate|]. now intros [= <-].
Qed.

Lemma extend_booking_missing MAX st now now' user bid h m c :
  bookings st !! bid = None ->
  extend_booking MAX st now now' user bid h m c
  = (Raise (BookingExtensionError booking_not_found), st).
Proof. intros H. unfold extend_booking. now rewrite H. Qed.

Lemma extend_booking_past_end MAX st now now' user bid h m c b e :
  bookings st !! bid = Some b -> end_time b = Some e -> e <= now ->
  extend_booking MAX st now now' user bid h m c
  = (Raise (BookingExtensionError booking_expired),
     auto_complete_expired_bookings st now' (Some bid)).
Proof.
  intros Hb He Hle. unfold extend_booking. rewrite Hb. unfold col_leb.
  rewrite He. now rewrite (proj2 (Z.leb_le e now) Hle).
Qed.

(** C7: once the booking exists and its end time has passed, extension
    fails with [booking_expired] whoever calls and whatever the status, and
    the only change is that the booking, when it was active, has status
    [Completed]; a missing booking is reported first. *)
Theorem extend_booking_expired (MAX : Z) (st : Store) (now now' : Z)
        (user bid h m : Z) (c : bool) :
  now <= now' ->
  match bookings st !! bid with
  | None =>
      extend_booking MAX st now now' user bid h m c
      = (Raise (BookingExtensionError booking_not_found), st)
  | Some b =>
      forall e, end_time b = Some e -> e <= now ->
        fst (extend_booking MAX st now now' user bid h m c)
        = Raise (BookingExtensionError booking_expired) /\
        (status b = Active ->
         exists b',
           bookings (snd (extend_booking MAX st now now' user bid h m c)) !! bid
           = Some b' /\
           status b' = Completed /\
           cancellation_reason b' = cancellation_reason b /\ same_columns b b') /\
        (status b <> Active ->
         snd (extend_booking MAX st now now' user bid h m c) = st) /\
        (forall k, k <> bid ->
           bookings (snd (extend_booking MAX st now now' user bid h m c)) !! k
           = bookings st !! k) /\
        zones (snd (extend_booking MAX st now now' user bid h m c)) = zones st /\
        places (snd (extend_booking MAX st now now' user bid h m c)) = places st /\
        slots (snd (extend_booking MAX st now now' user bid h m c)) = slots st /\
        events (snd (extend_booking MAX st now now' user bid h m c)) = events st
  end.
Proof.
  intros Hclock. destruct (bookings st !! bid) as [b|] eqn:Hb.
  - intros e He Hle.
    rewrite (extend_booking_past_end MAX st now now' user bid h m c b e Hb He Hle).
    cbn [fst snd]. split; [reflexivity|].
    split; [|split; [|split]].
    + intros Hs. rewrite auto_complete_one_lookup, Hb. simpl.
      destruct (decide (bid = bid)); [|congruence].
      rewrite (expired_at_end now' b e) by (try assumption; lia).
      eexists. split; [reflexivity|]. repeat split.
    + intros Hs. simpl. rewrite Hb.
      rewrite (not_expired now' b) by now left. reflexivity.
    + intros k Hk. rewrite auto_complete_one_lookup.
      destruct (decide (k = bid)); [congruence|]. now destruct (bookings st !! k).
    + apply auto_complete_one_frame.
  - now apply extend_booking_missing.
Qed.

(** C10: a booking ending exactly now is already expired: after either
    form of auto-completion an active one has status [Completed], and
    extension answers [booking_expired] and leaves it [Completed]; the
    sweep keeps bookings that end later and bookings that are not active as
    they are. *)
Theorem expiry_boundary_inclusive (MAX : Z) (st : Store) (now : Z) :
  (forall bid b,
      bookings st !! bid = Some b -> status b = Active -> end_time b = Some now ->
      (exists b',
         bookings (auto_complete_expired_bookings st now (Some bid)) !! bid = Some b' /\
         status b' = Completed /\
         cancellation_reason b' = cancellation_reason b /\ same_columns b b') /\
      (exists b',
         bookings (auto_complete_expired_bookings st now None) !! bid = Some b' /\
         status b' = Completed /\
         cancellation_reason b' = cancellation_reason b /\ same_columns b b') /\
      forall now' user h m c,
        now <= now' ->
        fst (extend_booking MAX st now now' user bid h m c)
        = Raise (BookingExtensionError booking_expired) /\
        exists b',
          bookings (snd (extend_booking MAX st now now' user bid h m c)) !! bid
          = Some b' /\
          status b' = Completed /\
          cancellation_reason b' = cancellation_reason b /\ same_columns b b') /\
  (forall bid b,
      bookings st !! bid = Some b ->
      status b <> Active \/ (exists e, end_time b = Some e /\ now < e) ->
      bookings (auto_complete_expired_bookings st now None) !! bid = Some b /\
      bookings (auto_complete_expired_bookings st now (Some bid)) !! bid = Some b) /\
  zones (auto_complete_expired_bookings st now None) = zones st /\
  places (auto_complete_expired_bookings st now None) = places st /\
  slots (auto_complete_expired_bookings st now None) = slots st /\
  events (auto_complete_expired_bookings st now None) = events st.
Proof.
  split; [|split; [|apply auto_complete_all_frame]].
  - intros bid b Hb Hs He.
    assert (Hexp : forall t, now <= t -> expired t b = true)
      by (intros t Ht; now apply (expired_at_end t b now)).
    split; [|split].
    + rewrite auto_complete_one_lookup, Hb. simpl.
      destruct (decide (bid = bid)); [|congruence]. rewrite Hexp by lia.
      eexists. split; [reflexivity|]. repeat split.
    + rewrite auto_complete_all_lookup, Hb. simpl. rewrite Hexp by lia.
      eexists. split; [reflexivity|]. repeat split.
    + intros now' user h m c Hclock.
      rewrite (extend_booking_past_end MAX st now now' user bid h m c b now Hb He)
        by lia.
      cbn [fst snd]. split; [reflexivity|].
      rewrite auto_complete_one_lookup, Hb. simpl.
      destruct (decide (bid = bid)); [|congruence]. rewrite Hexp by assumption.
      eexists. split; [reflexivity|]. repeat split.
  - intros bid b Hb Hkeep. pose proof (not_expired now b Hkeep) as Hne. split.
    + rewrite auto_complete_all_lookup, Hb. simpl. now rewrite Hne.
    + rewrite auto_complete_one_lookup, Hb. simpl.
      destruct (decide (bid = bid)); [|congruence]. now rewrite Hne.
Qed.

(** ** Cancellation *)

(** C8: cancelling a booking that is already cancelled or completed, as
    its owner or as an administrator, returns the booking as it is and leaves
    the whole store as it was; a caller who is neither gets the empty result
    and the store is left as it was. *)
Theorem cancel_booking_idempotent (st : Store) (user bid : Z) (is_admin c : bool)
        (b : Booking) :
  bookings st !! bid = Some b ->
  (status b = Cancelled \/ status b = Completed ->
   is_admin = true \/ user_id b = user ->
   cancel_booking st user bid is_admin c = (Return (Some (bid, b)), st)) /\
  (is_admin = false -> user_id b <> user ->
   cancel_booking st user bid is_admin c = (Return None, st)).
Proof.
  intros Hb. unfold cancel_booking. rewrite Hb. split.
  - intros Hs Hperm.
    assert (Hp : negb is_admin && negb (user_id b =? user) = false).
    { destruct Hperm as [->| <-]; [reflexivity|].
      rewrite Z.eqb_refl. now destruct is_admin. }
    rewrite Hp. now destruct Hs as [-> | ->].
  - intros -> Hu. apply Z.eqb_neq in Hu. now rewrite Hu.
Qed.

(** ** Slot resolution *)

Lemma scalar_one_or_none_Some {A} (rows : list A) (x : A) :
  scalar_one_or_none rows = Return (Some x) -> rows = [x].
Proof. destruct rows as [|y [|z rows]]; simpl; congruence. Qed.

Lemma scalar_one_or_none_None {A} (rows : list A) :
  scalar_one_or_none rows = Return None -> rows = [].
Proof. destruct rows as [|y [|z rows]]; simpl; congruence. Qed.

Lemma exact_slots_In st place_id start_t end_t sid s :
  In (sid, s) (exact_slots st place_id start_t end_t) <->
  slots st !! sid = Some s /\
  (exists pid, place_id = Some pid /\ slot_place_id s = Some pid) /\
  slot_start_time s = start_t /\ slot_end_time s = end_t.
Proof.
  unfold exact_slots. rewrite filter_In, In_map_to_list, !andb_true_iff.
  rewrite !Z.eqb_eq. unfold col_eqb.
  destruct place_id as [pid|], (slot_place_id s) as [p|];
    rewrite ?Z.eqb_eq; split.
  - intros [? [[-> ?] ?]]. eauto 10.
  - intros [? [[? [[= <-] [= <-]]] [? ?]]]. tauto.
  - intros [_ [[[=] _] _]].
  - intros [_ [[? [_ [=]]] _]].
  - intros [_ [[[=] _] _]].
  - intros [_ [[? [[=] _]] _]].
  - intros [_ [[[=] _] _]].
  - intros [_ [[? [[=] _]] _]].
Qed.

(** What a successful extension did. *)
Lemma extend_booking_success MAX st now now' user bid h m c nid nb st' :
  extend_booking MAX st now now' user bid h m c = (Return (nid, nb), st') ->
  exists orig b_start b_end slot zid zone sid,
    bookings st !! bid = Some orig /\
    start_time orig = Some b_start /\ end_time orig = Some b_end /\
    user_id orig = user /\ status orig = Active /\
    booking_slot st orig = Some slot /\
    load_place_zone st slot = Some (zid, zone) /\
    check_zone_capacity st zid b_end (b_end + (h * 3600 + m * 60)) = true /\
    nid = next_id (bookings st) /\
    nb = mkBooking user (Some sid) Active (Some (zone_name zone))
                   (Some (zone_address zone)) (Some b_end)
                   (Some (b_end + (h * 3600 + m * 60))) None /\
    bookings st' = <[nid := nb]> (bookings st) /\
    zones st' = zones st /\ places st' = places st /\
    ((exists es, slots st !! sid = Some es /\
                 slot_place_id es = slot_place_id slot /\
                 slots st' = <[sid := set_available false es]> (slots st) /\
                 is_available es = true) \/
     (sid = next_id (slots st) /\
      slots st' = <[sid := mkSlot (slot_place_id slot) b_end
                                  (b_end + (h * 3600 + m * 60)) false]> (slots st) /\
      exact_slots st (slot_place_id slot) b_end (b_end + (h * 3600 + m * 60)) = [])).
Proof.
  unfold extend_booking. intros H.
  destruct (bookings st !! bid) as [orig|] eqn:Hb; [|discriminate].
  destruct (col_leb (end_time orig) now); [discriminate|].
  destruct (user_id orig =? user) eqn:Hu; [|discriminate]. apply Z.eqb_eq in Hu.
  destruct (is_active_status (status orig)) eqn:Hs; [|discriminate].
  apply is_active_status_true in Hs. simpl in H.
  destruct (start_time orig) as [b_start|] eqn:Hst; [|discriminate].
  destruct (end_time orig) as [b_end|] eqn:Hen; [|discriminate].
  destruct (truthy_id (slot_id orig)); [|discriminate].
  destruct (booking_slot st orig) as [slot|] eqn:Hslot; [|discriminate].
  destruct (new_end_time b_end h m) as [new_end|] eqn:Hnew; [|discriminate].
  apply new_end_time_Return in Hnew. subst new_end.
  destruct (_ <? _); [discriminate|].
  destruct (check_user_booking_conflicts _ _ _ _ _); [discriminate|].
  destruct (load_place_zone st slot) as [[zid zone]|] eqn:Hz; [|discriminate].
  destruct (check_zone_capacity _ _ _ _) eqn:Hcap; [|discriminate]. simpl in H.
  destruct (scalar_one_or_none _) as [[[sid es]|]|] eqn:Hex; [| |discriminate].
  - apply scalar_one_or_none_Some in Hex.
    assert (Hin : In (sid, es) (exact_slots st (slot_place_id slot) b_end
                                            (b_end + (h * 3600 + m * 60))))
      by (rewrite Hex; now left).
    apply exact_slots_In in Hin as [Hes [[pid [Hp1 Hp2]] _]].
    destruct (is_available es) eqn:Hav; [|discriminate].
    destruct c; [discriminate|]. injection H as <- <- <-.
    exists orig, b_start, b_end, slot, zid, zone, sid.
    repeat (split; [first [assumption|reflexivity]|]).
    left. exists es. repeat split; first [assumption|congruence].
  - apply scalar_one_or_none_None in Hex.
    destruct (existsb _ _); [discriminate|].
    destruct c; [discriminate|]. injection H as <- <- <-.
    exists orig, b_start, b_end, slot, zid, zone, (next_id (slots st)).
    repeat (split; [first [assumption|reflexivity]|]).
    right. repeat split. assumption.
Qed.

(** C6: a successful extension leaves the original booking's row as it was
    and returns a new active booking that starts at the original end time
    and ends the requested duration later. *)
Theorem extend_booking_keeps_original (MAX : Z) (st st' : Store) (now now' : Z)
        (user bid h m : Z) (c : bool) (nid : Z) (nb orig : Booking) :
  bookings st !! bid = Some orig ->
  extend_booking MAX st now now' user bid h m c = (Return (nid, nb), st') ->
  bookings st' !! bid = Some orig /\
  nid <> bid /\
  bookings st !! nid = None /\
  bookings st' !! nid = Some nb /\
  (forall k, k <> nid -> bookings st' !! k = bookings st !! k) /\
  status nb = Active /\
  user_id nb = user /\
  start_time nb = end_time orig /\
  exists e, end_time orig = Some e /\
            end_time nb = Some (e + (h * 3600 + m * 60)).
Proof.
  intros Horig H.
  apply extend_booking_success in H
    as (orig' & b_start & b_end & slot & zid & zone & sid & Hb & Hst & Hen & Hu
        & Hs & Hslot & Hz & Hcap & Hnid & Hnb & Hbs & _).
  rewrite Horig in Hb. injection Hb as <-.
  assert (Hfresh : bookings st !! nid = None) by (subst nid; apply next_id_fresh).
  assert (Hne : nid <> bid) by congruence.
  rewrite Hbs. split; [now rewrite lookup_insert_ne|].
  split; [assumption|]. split; [assumption|].
  split; [apply lookup_insert_eq|].
  split; [intros k Hk; now rewrite lookup_insert_ne|].
  subst nb. simpl. repeat split; [congruence|].
  exists b_end. split; [assumption|reflexivity].
Qed.

(** ** Zone closure *)

Lemma close_booking_idempotent data b :
  close_booking data (close_booking data b) = close_booking data b.
Proof. reflexivity. Qed.

Lemma foldl_cons {A B} (f : A -> B -> A) (a : A) (x : B) (l : list B) :
  foldl f a (x :: l) = foldl f (f a x) l.
Proof. reflexivity. Qed.

Lemma close_fold_bookings data rows st :
  bookings (foldl (close_one data) st rows)
  = foldl (fun m i => alter (close_booking data) i m) (bookings st) (map fst rows).
Proof.
  revert st. induction rows as [|[bid b] rows IH]; intros st; [reflexivity|].
  rewrite foldl_cons, IH. simpl. now destruct (slot_id b).
Qed.

Lemma close_fold_slots data rows st :
  slots (foldl (close_one data) st rows)
  = foldl (fun m i => alter (set_available true) i m) (slots st)
          (omap (fun row => slot_id (snd row)) rows).
Proof.
  revert st. induction rows as [|[bid b] rows IH]; intros st; [reflexivity|].
  rewrite foldl_cons, IH. simpl. now destruct (slot_id b).
Qed.

Lemma close_fold_frame data rows st :
  zones (foldl (close_one data) st rows) = zones st /\
  places (foldl (close_one data) st rows) = places st.
Proof.
  revert st. induction rows as [|[bid b] rows IH]; intros st; [tauto|].
  rewrite foldl_cons. destruct (IH (close_one data st (bid, b))) as (-> & ->).
  simpl. now destruct (slot_id b).
Qed.

(** Notifying touches no table. *)
Lemma notify_fold_frame {R} (g : Store -> R -> Store) (rows : list R) (st : Store) :
  (forall s r, zones (g s r) = zones s /\ places (g s r) = places s /\
               slots (g s r) = slots s /\ bookings (g s r) = bookings s) ->
  zones (foldl g st rows) = zones st /\ places (foldl g st rows) = places st /\
  slots (foldl g st rows) = slots st /\ bookings (foldl g st rows) = bookings st.
Proof.
  intros Hg. revert st. induction rows as [|r rows IH]; intros st; [tauto|].
  rewrite foldl_cons. destruct (IH (g st r)) as (-> & -> & -> & ->). apply Hg.
Qed.

Lemma affected_by_closure_spec st z data b :
  affected_by_closure st z data b = true <->
  status b = Active /\ in_zone st z b = true /\
  exists s, booking_slot st b = Some s /\
            slot_start_time s < to_time data /\ from_time data < slot_end_time s.
Proof.
  unfold affected_by_closure.
  rewrite !andb_true_iff, is_active_status_true.
  destruct (booking_slot st b) as [s|].
  - rewrite andb_true_iff, !Z.ltb_lt. split.
    + intros [[? ?] [? ?]]. eauto 10.
    + intros [? [? [s' [[= <-] [? ?]]]]]. tauto.
  - split; [intros [_ [=]]|intros [_ [_ [? [[=] _]]]]].
Qed.

Lemma closure_rows_In st z data bid b :
  In (bid, b) (closure_rows st z data) <->
  bookings st !! bid = Some b /\ affected_by_closure st z data b = true.
Proof. unfold closure_rows. now rewrite filter_In, In_scan. Qed.

Lemma closure_rows_keys st z data bid :
  bid ∈ map fst (closure_rows st z data) <->
  exists b, bookings st !! bid = Some b /\ affected_by_closure st z data b = true.
Proof.
  rewrite list_elem_of_In, in_map_iff. split.
  - intros [[k b] [Hk Hin]]. simpl in Hk. subst k. exists b.
    now apply closure_rows_In.
  - intros [b Hb]. exists (bid, b). split; [reflexivity|now apply closure_rows_In].
Qed.

Lemma affected_by_closure_hit st z data b :
  affected_by_closure st z data b = true <-> hit_by_closure st z data b.
Proof.
  rewrite affected_by_closure_spec, in_zone_true. unfold hit_by_closure. split.
  - intros (Hact & Hz & s & Hs & Hlo & Hhi). split; [exact Hact|].
    apply booking_zone_joins in Hz as (sid & s' & pid & p & Hsid & Hs' & Hpid & Hp & Hzid).
    unfold booking_slot in Hs. rewrite Hsid in Hs. simpl in Hs.
    assert (s' = s) by congruence. subst s'.
    exists sid, s, pid, p. repeat split; assumption.
  - intros (Hact & sid & s & pid & p & Hsid & Hs & Hpid & Hp & Hzid & Hlo & Hhi).
    split; [exact Hact|]. split.
    + apply booking_zone_joins. exists sid, s, pid, p. repeat split; assumption.
    + exists s. unfold booking_slot. rewrite Hsid. simpl. tauto.
Qed.

Lemma closure_rows_slots st z data sid :
  sid ∈ omap (fun row => slot_id (snd row)) (closure_rows st z data) <->
  freed_by_closure st z data sid.
Proof.
  rewrite list_elem_of_omap. unfold freed_by_closure. split.
  - intros [[bid b] [Hin Hs]]. apply list_elem_of_In, closure_rows_In in Hin.
    exists bid, b. simpl in Hs. rewrite <- affected_by_closure_hit. tauto.
  - intros [bid [b [Hb [Ha Hs]]]]. exists (bid, b).
    apply affected_by_closure_hit in Ha.
    split; [apply list_elem_of_In, closure_rows_In; tauto|assumption].
Qed.

(** The tables [close_zone] leaves behind. *)
Lemma close_zone_tables st st' z data zone result :
  zones st !! z = Some zone ->
  close_zone st z data = (result, st') ->
  result = map (fun '(bid, b) => (bid, close_booking data b)) (closure_rows st z data) /\
  zones st' = <[z := mkZone (zone_name zone) (zone_address zone) false
                            (Some (reason data)) (Some (to_time data))]> (zones st) /\
  places st' = places st /\
  (forall bid, bookings st' !! bid
               = if decide (bid ∈ map fst (closure_rows st z data))
                 then close_booking data <$> bookings st !! bid
                 else bookings st !! bid) /\
  (forall sid, slots st' !! sid
               = if decide (sid ∈ omap (fun row => slot_id (snd row))
                                       (closure_rows st z data))
                 then set_available true <$> slots st !! sid
                 else slots st !! sid).
Proof.
  intros Hz H. unfold close_zone in H. rewrite Hz in H.
  injection H as <- <-.
  split; [reflexivity|].
  match goal with
  | |- context [foldl ?g (foldl (close_one data) ?s ?rows) ?l] =>
      destruct (notify_fold_frame g l (foldl (close_one data) s rows))
        as (-> & -> & -> & ->);
      [intros s0 [k b0]; simpl; tauto|];
      destruct (close_fold_frame data rows s) as (-> & ->);
      rewrite (close_fold_bookings data rows s), (close_fold_slots data rows s)
  end.
  simpl. repeat split.
  - intros bid. apply foldl_alter_lookup, close_booking_idempotent.
  - intros sid. apply foldl_alter_lookup, set_available_idempotent.
Qed.

(** C9: closing an existing zone marks it inactive with the reason and the
    end of the window; the bookings that were active in the zone with a slot
    overlapping the window get status [Cancelled] and the closure as
    reason, their slots get [is_available = true], and they are the
    bookings returned; every other booking and slot is left as it was. *)
Theorem close_zone_effect (st st' : Store) (z : Z) (data : ZoneCloseRequest)
        (zone : Zone) (result : list (Z * Booking)) :
  zones st !! z = Some zone ->
  close_zone st z data = (result, st') ->
  zones st' !! z = Some (mkZone (zone_name zone) (zone_address zone) false
                                (Some (reason data)) (Some (to_time data))) /\
  (forall z', z' <> z -> zones st' !! z' = zones st !! z') /\
  places st' = places st /\
  (forall bid b, bookings st !! bid = Some b -> hit_by_closure st z data b ->
     exists b',
       bookings st' !! bid = Some b' /\ status b' = Cancelled /\
       cancellation_reason b' = Some ("Зона закрыта: " ++ reason data)%string /\
       same_columns b b' /\
       exists sid s s',
         slot_id b = Some sid /\ slots st !! sid = Some s /\
         slots st' !! sid = Some s' /\
         is_available s' = true /\ same_slot_columns s s') /\
  (forall bid b, bookings st !! bid = Some b -> ~ hit_by_closure st z data b ->
     bookings st' !! bid = Some b) /\
  (forall bid, bookings st !! bid = None -> bookings st' !! bid = None) /\
  (forall sid s, slots st !! sid = Some s -> freed_by_closure st z data sid ->
     exists s', slots st' !! sid = Some s' /\
                is_available s' = true /\ same_slot_columns s s') /\
  (forall sid, ~ freed_by_closure st z data sid ->
     slots st' !! sid = slots st !! sid) /\
  (forall bid b', In (bid, b') result <->
     exists b, bookings st !! bid = Some b /\ hit_by_closure st z data b /\
               status b' = Cancelled /\
               cancellation_reason b'
               = Some ("Зона закрыта: " ++ reason data)%string /\
               same_columns b b').
Proof.
  intros Hz H.
  destruct (close_zone_tables st st' z data zone result Hz H)
    as (Hres & Hzs & Hps & Hbs & Hss).
  assert (Hfreed : forall sid s, slots st !! sid = Some s ->
            freed_by_closure st z data sid ->
            exists s', slots st' !! sid = Some s' /\
                       is_available s' = true /\ same_slot_columns s s').
  { intros sid s Hs Hf. rewrite Hss, Hs.
    destruct (decide _) as [_|Hn].
    - eexists. split; [reflexivity|]. repeat split.
    - exfalso. apply Hn. now apply closure_rows_slots. }
  assert (Hrow : forall b b',
            status b' = Cancelled ->
            cancellation_reason b' = Some ("Зона закрыта: " ++ reason data)%string ->
            same_columns b b' -> b' = close_booking data b).
  { intros b b' Hs Hr (H1 & H2 & H3 & H4 & H5 & H6).
    destruct b'. simpl in *. subst. reflexivity. }
  split; [rewrite Hzs; apply lookup_insert_eq|].
  split; [intros z' Hne; rewrite Hzs; now apply lookup_insert_ne|].
  split; [assumption|].
  split; [|split; [|split; [|split; [|split]]]].
  - intros bid b Hb Ha. exists (close_booking data b).
    split.
    { rewrite Hbs, Hb. destruct (decide _) as [_|Hn]; [reflexivity|].
      exfalso. apply Hn. apply closure_rows_keys. exists b.
      split; [assumption|]. now apply affected_by_closure_hit. }
    split; [reflexivity|]. split; [reflexivity|]. split; [repeat split|].
    pose proof Ha as (_ & sid & s & pid & p & Hsid & Hs & _).
    destruct (Hfreed sid s Hs) as (s' & Hs' & Hav & Hcols);
      [exists bid, b; tauto|].
    exists sid, s, s'. tauto.
  - intros bid b Hb Ha. rewrite Hbs, Hb.
    destruct (decide _) as [Hin|_]; [|reflexivity].
    apply closure_rows_keys in Hin as [b' [Hb' Ha']].
    exfalso. apply Ha. apply affected_by_closure_hit. congruence.
  - intros bid Hb. rewrite Hbs, Hb. now destruct (decide _).
  - exact Hfreed.
  - intros sid Hn. rewrite Hss. destruct (decide _) as [Hin|_]; [|reflexivity].
    exfalso. apply Hn. now apply closure_rows_slots.
  - intros bid b'. rewrite Hres, in_map_iff. split.
    + intros [[k b] [Heq Hin]]. injection Heq as -> <-.
      apply closure_rows_In in Hin as [Hb Ha]. exists b.
      split; [assumption|]. split; [now apply affected_by_closure_hit|].
      split; [reflexivity|]. split; [reflexivity|]. repeat split.
    + intros (b & Hb & Ha & Hs & Hr & Hcols). exists (bid, b).
      split; [now rewrite (Hrow b b' Hs Hr Hcols)|].
      apply closure_rows_In. split; [assumption|]. now apply affected_by_closure_hit.
Qed.

(** ** Fixed-slot creation *)

Lemma existing_bookings_In st user sid bid b :
  In (bid, b) (existing_bookings st user sid) <->
  bookings st !! bid = Some b /\ user_id b = user /\
  slot_id b = Some sid /\ status b = Active.
Proof.
  unfold existing_bookings.
  rewrite filter_In, In_map_to_list, !andb_true_iff, is_active_status_true, Z.eqb_eq.
  unfold col_eqb. destruct (slot_id b) as [s|]; rewrite ?Z.eqb_eq; split.
  - intros [? [[? ->] ?]]. tauto.
  - intros [? [? [[= ->] ?]]]. tauto.
  - intros [_ [[_ [=]] _]].
  - intros [_ [_ [[=] _]]].
Qed.

Lemma holds_active_on_spec st user sid :
  holds_active_on st user sid <-> existing_bookings st user sid <> [].
Proof.
  unfold holds_active_on. split.
  - intros [bid [b Hb]] Hnil. apply existing_bookings_In in Hb.
    rewrite Hnil in Hb. destruct Hb.
  - destruct (existing_bookings st user sid) as [|[bid b] l] eqn:He; [congruence|].
    intros _. exists bid, b. apply existing_bookings_In. rewrite He. now left.
Qed.

Lemma check_user_booking_conflicts_spec st user start_t end_t :
  check_user_booking_conflicts st user start_t end_t None = true <->
  has_overlapping_booking st user start_t end_t.
Proof.
  unfold check_user_booking_conflicts, has_overlapping_booking.
  rewrite Nat.ltb_lt. split.
  - destruct (conflicting_bookings st user start_t end_t None) as [|[bid b] l] eqn:Hc;
      [simpl; lia|]. intros _.
    assert (Hin : In (bid, b) (conflicting_bookings st user start_t end_t None))
      by (rewrite Hc; now left).
    unfold conflicting_bookings in Hin.
    apply filter_In in Hin as [Hin Hp]. apply In_map_to_list in Hin.
    rewrite !andb_true_iff, is_active_status_true, Z.eqb_eq in Hp.
    destruct Hp as [[[[Hu Hs] Hlt] Hgt] _]. unfold col_ltb, col_gtb in *.
    destruct (start_time b) as [bs|] eqn:Hbs; [|discriminate].
    destruct (end_time b) as [be|] eqn:Hbe; [|discriminate].
    apply Z.ltb_lt in Hlt, Hgt. exists bid, b, bs, be. tauto.
  - intros (bid & b & bs & be & Hb & Hu & Hs & Hbs & Hbe & Hlt & Hgt).
    assert (Hin : In (bid, b) (conflicting_bookings st user start_t end_t None)).
    { unfold conflicting_bookings. apply filter_In. split; [now apply In_map_to_list|].
      rewrite !andb_true_iff, is_active_status_true, Z.eqb_eq.
      unfold col_ltb, col_gtb. rewrite Hbs, Hbe, !Z.ltb_lt. tauto. }
    destruct (conflicting_bookings st user start_t end_t None); [destruct Hin|simpl; lia].
Qed.

Lemma load_slot_zone_spec st slot zid zone :
  load_slot_zone st slot = Some (zid, zone) <-> zone_of_slot st slot zid zone.
Proof.
  unfold load_slot_zone, zone_of_slot, truthy_id. split.
  - intros H. destruct (slot_place_id slot) as [pid|]; [|discriminate].
    destruct (Z.eqb_spec pid 0) as [|Hpid]; [discriminate|]. simpl in H.
    destruct (places st !! pid) as [place|] eqn:Hp; [|discriminate]. simpl in H.
    destruct (place_zone_id place) as [zid'|] eqn:Hz; [|discriminate].
    destruct (Z.eqb_spec zid' 0) as [|Hzid]; [discriminate|]. simpl in H.
    destruct (zones st !! zid') as [zone'|] eqn:Hzone; [|discriminate].
    simpl in H. injection H as <- <-. exists pid, place. repeat split; assumption.
  - intros (pid & place & -> & Hpid & Hp & Hz & Hzid & Hzone).
    destruct (Z.eqb_spec pid 0) as [|_]; [contradiction|]. simpl.
    rewrite Hp. simpl. rewrite Hz.
    destruct (Z.eqb_spec zid 0) as [|_]; [contradiction|]. simpl.
    now rewrite Hzone.
Qed.

(** C5: fixed-slot creation gives the empty result and leaves the store as
    it was when the slot is missing or unavailable, when the user already
    holds an active booking on the slot or another active booking that
    overlaps it, when the capacity check of the slot's zone rejects the
    interval, or when the commit meets a uniqueness violation; otherwise it
    adds exactly one booking, active, with the slot's interval and the name
    and address of the slot's zone, and the slot's [is_available] becomes
    false. *)
Theorem create_booking_outcomes (st : Store) (user sid : Z) (c : bool) :
  single_active_booking st user sid ->
  (slots st !! sid = None -> create_booking st user sid c = (Return None, st)) /\
  (forall slot,
      slots st !! sid = Some slot ->
      (is_available slot = false \/
       holds_active_on st user sid \/
       has_overlapping_booking st user (slot_start_time slot) (slot_end_time slot) \/
       capacity_rejects st slot \/
       c = true ->
       create_booking st user sid c = (Return None, st)) /\
      (~ (is_available slot = false \/
          holds_active_on st user sid \/
          has_overlapping_booking st user (slot_start_time slot) (slot_end_time slot) \/
          capacity_rejects st slot \/
          c = true) ->
       exists bid b st' slot',
         create_booking st user sid c = (Return (Some (bid, b)), st') /\
         bookings st !! bid = None /\
         bookings st' = <[bid := b]> (bookings st) /\
         slots st' = <[sid := slot']> (slots st) /\
         is_available slot' = false /\
         slot_place_id slot' = slot_place_id slot /\
         slot_start_time slot' = slot_start_time slot /\
         slot_end_time slot' = slot_end_time slot /\
         zones st' = zones st /\ places st' = places st /\
         events st' = events st ++ [BookingCreated user (booking_zone_name b)
                                      (start_time b) (end_time b)] /\
         user_id b = user /\ slot_id b = Some sid /\ status b = Active /\
         start_time b = Some (slot_start_time slot) /\
         end_time b = Some (slot_end_time slot) /\
         cancellation_reason b = None /\
         (forall zid zone, zone_of_slot st slot zid zone ->
            booking_zone_name b = Some (zone_name zone) /\
            booking_zone_address b = Some (zone_address zone)) /\
         ((forall zid zone, ~ zone_of_slot st slot zid zone) ->
          booking_zone_name b = None /\ booking_zone_address b = None))).
Proof.
  intros Hsingle. unfold create_booking. split; [now intros ->|].
  intros slot ->.
  destruct (is_available slot) eqn:Hav; simpl; [|split; [reflexivity|tauto]].
  destruct (existing_bookings st user sid) as [|row [|row' rows]] eqn:Hex;
    [| |unfold single_active_booking in Hsingle; rewrite Hex in Hsingle;
        simpl in Hsingle; lia].
  2:{ assert (Hh : holds_active_on st user sid)
        by (apply holds_active_on_spec; congruence).
      simpl. split; [reflexivity|tauto]. }
  assert (Hnh : ~ holds_active_on st user sid)
    by (rewrite holds_active_on_spec; congruence).
  simpl.
  destruct (check_user_booking_conflicts st user (slot_start_time slot)
                                         (slot_end_time slot) None) eqn:Hconf.
  { apply check_user_booking_conflicts_spec in Hconf. split; [reflexivity|tauto]. }
  assert (Hnc : ~ has_overlapping_booking st user (slot_start_time slot)
                                          (slot_end_time slot)).
  { rewrite <- check_user_booking_conflicts_spec. congruence. }
  destruct (match load_slot_zone st slot with
            | Some (zid, _) =>
                negb (check_zone_capacity st zid (slot_start_time slot)
                                          (slot_end_time slot))
            | None => false
            end) eqn:Hcap.
  { split; [reflexivity|]. intros Hn. exfalso. apply Hn. do 3 right. left.
    destruct (load_slot_zone st slot) as [[zid zone]|] eqn:Hz; [|discriminate].
    exists zid, zone. split; [now apply load_slot_zone_spec|].
    now apply negb_true_iff. }
  assert (Hncap : ~ capacity_rejects st slot).
  { intros (zid & zone & Hz & Hf). apply load_slot_zone_spec in Hz.
    rewrite Hz, Hf in Hcap. discriminate. }
  destruct c.
  { split; [reflexivity|]. intros Hn. exfalso. apply Hn. tauto. }
  split.
  { intros [H|[H|[H|[H|H]]]]; [discriminate|tauto|tauto|tauto|discriminate]. }
  intros _. eexists _, _, _, _. split; [reflexivity|]. simpl.
  split; [apply next_id_fresh|].
  do 15 (split; [reflexivity|]). split.
  - intros zid zone Hz. apply load_slot_zone_spec in Hz. rewrite Hz. split; reflexivity.
  - intros Hnone. destruct (load_slot_zone st slot) as [[zid zone]|] eqn:Hz.
    + exfalso. apply (Hnone zid zone). now apply load_slot_zone_spec.
    + split; reflexivity.
Qed.

(** ** Creation by time range *)

Lemma filter_keys_NoDup {V} (f : Z * V -> bool) (m : gmap Z V) :
  List.NoDup (map fst (List.filter f (map_to_list m))).
Proof.
  pose proof (NoDup_fst_map_to_list m) as Hnd. apply NoDup_ListNoDup in Hnd.
  induction (map_to_list m) as [|[k v] l IH]; [constructor|].
  simpl in *. apply List.NoDup_cons_iff in Hnd as [Hk Hnd].
  destruct (f (k, v)); [|now apply IH].
  simpl. constructor; [|now apply IH].
  intros Hin. apply Hk. apply in_map_iff in Hin as [[k' v'] [Heq Hin]].
  simpl in Heq. subst k'. apply filter_In in Hin as [Hin _].
  apply in_map_iff. now exists (k, v').
Qed.

Lemma exact_slot_unique st place_id start_t end_t :
  slots_unique st ->
  exists r, scalar_one_or_none (exact_slots st place_id start_t end_t) = Return r.
Proof.
  intros Hu.
  destruct (exact_slots st place_id start_t end_t) as [|[k1 s1] [|[k2 s2] rows]] eqn:He;
    [now exists None|now exists (Some (k1, s1))|].
  exfalso.
  assert (H1 : In (k1, s1) (exact_slots st place_id start_t end_t))
    by (rewrite He; now left).
  assert (H2 : In (k2, s2) (exact_slots st place_id start_t end_t))
    by (rewrite He; right; now left).
  apply exact_slots_In in H1 as (Hs1 & (p1 & Hp1 & Hq1) & Hst1 & Hen1).
  apply exact_slots_In in H2 as (Hs2 & (p2 & Hp2 & Hq2) & Hst2 & Hen2).
  assert (p1 = p2) by congruence. subst p2.
  assert (Heq : k1 = k2)
    by (apply (Hu k1 s1 k2 s2 p1); congruence).
  pose proof (filter_keys_NoDup
                (fun '(_, s) => match place_id with
                                | Some pid => col_eqb (slot_place_id s) pid
                                | None => false
                                end
                                && (slot_start_time s =? start_t)
                                && (slot_end_time s =? end_t))
                (slots st)) as Hnd.
  fold (exact_slots st place_id start_t end_t) in Hnd. rewrite He in Hnd.
  simpl in Hnd. apply List.NoDup_cons_iff in Hnd as [Hnin _].
  apply Hnin. left. congruence.
Qed.

(** The place loop ends with a booking or with [NO_AVAILABLE_PLACES]. *)
Lemma try_places_outcome st user zone start_t end_t c places :
  slots_unique st ->
  (exists bid b st',
      try_places st user zone start_t end_t c places = (Return (bid, b), st') /\
      status b = Active /\ user_id b = user /\
      start_time b = Some start_t /\ end_time b = Some end_t) \/
  try_places st user zone start_t end_t c places
  = (Raise (BookingError NO_AVAILABLE_PLACES), st).
Proof.
  intros Hu. induction places as [|[pid p] places IH]; [now right|].
  simpl.
  destruct (exact_slot_unique st (Some pid) start_t end_t Hu) as [[[sid es]|] ->].
  - destruct (is_available es); [|exact IH].
    destruct c; [now right|]. left. eexists _, _, _. split; [reflexivity|].
    simpl. tauto.
  - destruct (existsb _ _); [exact IH|].
    destruct c; [now right|]. left. eexists _, _, _. split; [reflexivity|].
    simpl. tauto.
Qed.

Lemma time_replace_valid h m :
  0 <= h < 24 -> 0 <= m < 60 -> time_replace h m = Return (h * 3600 + m * 60).
Proof.
  intros Hh Hm. unfold time_replace.
  replace ((0 <=? h) && (h <? 24) && (0 <=? m) && (m <? 60)) with true; [reflexivity|].
  symmetry. rewrite !andb_true_iff, !Z.leb_le, !Z.ltb_lt. lia.
Qed.

Lemma max_capacity_places st z :
  max_capacity st z = Z.of_nat (length (active_places st z)).
Proof.
  unfold max_capacity, active_places. f_equal.
  apply filter_length_Permutation. symmetry. apply scan_Permutation.
Qed.

Lemma try_places_nonempty st user zone start_t end_t c (l : list (Z * Place)) :
  match l with
  | [] => (Raise (BookingError NO_AVAILABLE_PLACES), st)
  | p :: l' => try_places st user zone start_t end_t c (p :: l')
  end = try_places st user zone start_t end_t c l.
Proof. now destruct l. Qed.

Opaque try_places.

(** C4: the checks of creation by time range run in the fixed order and
    the first one that fails decides the error code; when all pass the call
    books or reports [NO_AVAILABLE_PLACES]; the place-existence check never
    is the first to fail, and a zone without active places is reported as
    [ZONE_CAPACITY_EXCEEDED]. *)
Theorem create_by_time_range_validation_order
        (MAX : Z) (parse : string -> option Z)
        (st : Store) (user : Z) (bi : BookingCreateTimeRange) (c : bool) :
  valid_clock_fields bi ->
  slots_unique st ->
  (forall chk,
      first_failing_check MAX parse st user bi = Some chk ->
      create_booking_by_time_range MAX parse st user bi c
      = (Raise (BookingError (check_code chk)), st)) /\
  (first_failing_check MAX parse st user bi = None ->
   (exists bid b st',
       create_booking_by_time_range MAX parse st user bi c = (Return (bid, b), st') /\
       status b = Active /\ user_id b = user) \/
   create_booking_by_time_range MAX parse st user bi c
   = (Raise (BookingError NO_AVAILABLE_PLACES), st)) /\
  first_failing_check MAX parse st user bi <> Some ActivePlaceExists /\
  (max_capacity st (zone_id bi) = 0 ->
   forallb (check_passes MAX parse st user bi)
           [ParseableDate; EndAfterStart; WithinTimeLimit; ZoneActive; NoUserConflict]
   = true ->
   create_booking_by_time_range MAX parse st user bi c
   = (Raise (BookingError ZONE_CAPACITY_EXCEEDED), st)) /\
  (forall e, fst (create_booking_by_time_range MAX parse st user bi c) = Raise e ->
     exists code, e = BookingError code /\
       In code [INVALID_DATE; INVALID_TIME_RANGE; TIME_LIMIT_EXCEEDED; ZONE_INACTIVE;
                USER_CONFLICT; ZONE_CAPACITY_EXCEEDED; NO_AVAILABLE_PLACES]).
Proof.
  intros (Hsh & Hsm & Heh & Hem) Hu.
  unfold first_failing_check, validation_order, create_booking_by_time_range.
  unfold check_passes, requested_interval.
  destruct (parse (date bi)) as [d|] eqn:Hp; simpl.
  2:{ repeat split; try discriminate.
      - now intros chk [= <-].
      - intros e [= <-]. exists INVALID_DATE. split; [reflexivity|now left]. }
  rewrite (time_replace_valid _ _ Hsh Hsm), (time_replace_valid _ _ Heh Hem).
  set (s := d * 86400 + (start_hour bi * 3600 + start_minute bi * 60)).
  set (e := d * 86400 + (end_hour bi * 3600 + end_minute bi * 60)).
  assert (Hcodes : forall code,
            In code [INVALID_DATE; INVALID_TIME_RANGE; TIME_LIMIT_EXCEEDED;
                     ZONE_INACTIVE; USER_CONFLICT; ZONE_CAPACITY_EXCEEDED;
                     NO_AVAILABLE_PLACES])
    by (intros []; simpl; tauto).
  destruct (s <? e) eqn:Hse; simpl.
  2:{ apply Z.ltb_ge in Hse.
      replace (e - s <=? 0) with true by (symmetry; apply Z.leb_le; lia).
      repeat split; try discriminate.
      - now intros chk [= <-].
      - intros x [= <-]. eexists. split; [reflexivity|apply Hcodes]. }
  apply Z.ltb_lt in Hse.
  replace (e - s <=? 0) with false by (symmetry; apply Z.leb_gt; lia).
  rewrite (Z.leb_antisym (MAX * 3600) (e - s)).
  destruct (MAX * 3600 <? e - s) eqn:Hmax; simpl.
  { repeat split; try discriminate.
    - now intros chk [= <-].
    - intros x [= <-]. eexists. split; [reflexivity|apply Hcodes]. }
  destruct (zones st !! zone_id bi) as [zone|] eqn:Hz; simpl.
  2:{ repeat split; try discriminate.
      - now intros chk [= <-].
      - intros x [= <-]. eexists. split; [reflexivity|apply Hcodes]. }
  destruct (zone_is_active zone) eqn:Hza; simpl.
  2:{ repeat split; try discriminate.
      - now intros chk [= <-].
      - intros x [= <-]. eexists. split; [reflexivity|apply Hcodes]. }
  destruct (check_user_booking_conflicts st user s e None) eqn:Hconf; simpl.
  { repeat split; try discriminate.
    - now intros chk [= <-].
    - intros x [= <-]. eexists. split; [reflexivity|apply Hcodes]. }
  rewrite try_places_nonempty.
  destruct (check_zone_capacity st (zone_id bi) s e) eqn:Hcap; simpl.
  2:{ repeat split; try discriminate.
      - now intros chk [= <-].
      - intros x [= <-]. eexists. split; [reflexivity|apply Hcodes]. }
  assert (Hplaces : active_places st (zone_id bi) <> []).
  { intros Hnil. unfold check_zone_capacity in Hcap.
    rewrite max_capacity_places, Hnil in Hcap. discriminate. }
  destruct (try_places_outcome st user zone s e c (active_places st (zone_id bi)) Hu)
    as [(bid & b & st' & Htry & Hs & Hus & _)|Htry].
  - rewrite Htry.
    destruct (active_places st (zone_id bi)) as [|pl pls] eqn:Hpl; [congruence|].
    repeat split; try discriminate.
    + left. eauto 10.
    + intros H0. rewrite max_capacity_places, Hpl in H0. discriminate.
  - rewrite Htry.
    destruct (active_places st (zone_id bi)) as [|pl pls] eqn:Hpl; [congruence|].
    repeat split; try discriminate.
    + now right.
    + intros H0. rewrite max_capacity_places, Hpl in H0. discriminate.
    + intros x [= <-]. eexists. split; [reflexivity|apply Hcodes].
Qed.

Transparent try_places.

(** ** The capacity invariant *)

(** Counting selected rows of two tables, key by key. *)
Lemma count_le_keys {V} (p p' : Z * V -> bool) (m m' : gmap Z V) :
  (forall k v', m' !! k = Some v' -> p' (k, v') = true ->
                exists v, m !! k = Some v /\ p (k, v) = true) ->
  (length (List.filter p' (map_to_list m')) <= length (List.filter p (map_to_list m)))%nat.
Proof.
  intros H.
  rewrite <- (length_map fst (List.filter p' _)), <- (length_map fst (List.filter p _)).
  apply NoDup_incl_length; [apply filter_keys_NoDup|].
  intros k Hk. apply in_map_iff in Hk as [[k' v'] [Heq Hin]]. simpl in Heq. subst k'.
  apply filter_In in Hin as [Hin Hp]. apply In_map_to_list in Hin.
  destruct (H k v' Hin Hp) as [v [Hv Hpv]].
  apply in_map_iff. exists (k, v). split; [reflexivity|].
  apply filter_In. split; [now apply In_map_to_list|assumption].
Qed.

Lemma count_insert_fresh {V} (p : Z * V -> bool) (m : gmap Z V) (k : Z) (v : V) :
  m !! k = None ->
  length (List.filter p (map_to_list (<[k := v]> m)))
  = ((if p (k, v) then 1 else 0) + length (List.filter p (map_to_list m)))%nat.
Proof.
  intros Hk.
  rewrite (filter_length_Permutation p _ _ (map_to_list_insert m k v Hk)).
  simpl. now destruct (p (k, v)).
Qed.

(** A booking whose slot is in the store keeps its zone when slots stay on
    their place and the places are the same. *)
Lemma booking_zone_stable st st' b b' :
  places st' = places st -> slots_extend st st' ->
  slot_id b' = slot_id b ->
  (forall sid, slot_id b = Some sid -> is_Some (slots st !! sid)) ->
  booking_zone st' b' = booking_zone st b.
Proof.
  intros Hp Hs Hid Hfk. unfold booking_zone, booking_slot. rewrite Hid.
  destruct (slot_id b) as [sid|]; [|reflexivity]. simpl.
  destruct (Hfk sid eq_refl) as [s Hsl]. rewrite Hsl.
  destruct (Hs sid s Hsl) as [s' [-> Hpl]]. simpl.
  unfold slot_zone. now rewrite Hpl, Hp.
Qed.

Lemma max_capacity_same_places st st' z :
  places st' = places st -> max_capacity st' z = max_capacity st z.
Proof. intros H. unfold max_capacity. now rewrite H. Qed.

Lemma releases_refl st : releases st st.
Proof.
  repeat split; try tauto.
  - intros sid s Hs. now exists s.
  - intros bid b Hb. exists b. tauto.
Qed.

Lemma releases_preserves st st' :
  well_formed st -> capacity_invariant st -> releases st st' ->
  well_formed st' /\ capacity_invariant st'.
Proof.
  intros (Hz0 & Hp0 & Hfk) Hinv (Hp & Hz & Hs & Hb). split.
  - split; [|split].
    + destruct (zones st' !! 0) eqn:E; [|reflexivity].
      assert (Hsome : is_Some (zones st !! 0)) by (apply Hz; eauto).
      rewrite Hz0 in Hsome. now destruct Hsome.
    + now rewrite Hp.
    + intros bid b' sid Hb' Hsid.
      destruct (Hb bid b' Hb') as (b & Hbb & Hid & _).
      destruct (Hfk bid b sid Hbb) as [s Hsl]; [congruence|].
      destruct (Hs sid s Hsl) as [s' [Hs' _]]. eauto.
  - intros z t Hzs. rewrite (max_capacity_same_places st st' z Hp).
    apply Hz in Hzs. specialize (Hinv z t Hzs).
    enough (occupancy st' z t <= occupancy st z t) by lia.
    unfold occupancy. apply inj_le, count_le_keys.
    intros k b' Hb' Hpred.
    destruct (Hb k b' Hb') as (b & Hbb & Hid & Hst & Hen & Hact).
    exists b. split; [assumption|].
    rewrite !andb_true_iff, is_active_status_true, in_zone_true in *.
    destruct Hpred as [[Hzone Hactive] Hc].
    rewrite (booking_zone_stable st st' b b' Hp Hs Hid) in Hzone
      by (intros sid; apply (Hfk k b sid Hbb)).
    repeat split; [assumption|now apply Hact|].
    unfold contains in *. now rewrite <- Hst, <- Hen.
Qed.

Lemma count_at_overlapping st z start_t end_t t :
  start_t <= t < end_t ->
  count_at (overlapping_bookings st z start_t end_t) t = occupancy st z t.
Proof.
  intros Ht. unfold count_at, overlapping_bookings, occupancy.
  rewrite filter_twice. f_equal. apply filter_length_ext.
  intros [bid b] _. unfold contains, col_ltb, col_gtb.
  destruct (in_zone st z b), (is_active_status (status b)); simpl; try reflexivity;
    destruct (start_time b) as [bs|], (end_time b) as [be|]; simpl;
    rewrite ?andb_false_r; try reflexivity.
  destruct ((bs <=? t) && (t <? be)) eqn:Hc; [|now rewrite andb_false_r].
  apply andb_true_iff in Hc as [H1 H2]. apply Z.leb_le in H1. apply Z.ltb_lt in H2.
  rewrite andb_true_r. apply andb_true_iff. split; apply Z.ltb_lt; lia.
Qed.

(** A passed check leaves room for one more at every instant of the interval. *)
Lemma check_zone_capacity_room st z start_t end_t t :
  check_zone_capacity st z start_t end_t = true ->
  start_t <= t < end_t ->
  occupancy st z t + 1 <= max_capacity st z.
Proof.
  intros Hc Ht. unfold check_zone_capacity in Hc.
  destruct (max_capacity st z =? 0); [discriminate|].
  rewrite <- (count_at_overlapping st z start_t end_t t Ht).
  now apply (proj1 (capacity_sweep_exact _ _ _ _) Hc).
Qed.

Lemma adds_preserves st st' :
  well_formed st -> capacity_invariant st -> adds st st' ->
  well_formed st' /\ capacity_invariant st'.
Proof.
  intros (Hz0 & Hp0 & Hfk) Hinv
         (bid & b & sid & s & e & Hfresh & Hbs & Hp & Hz & Hs & Hsid & Hslot & Hst & Hen & Hcheck).
  split.
  - split; [now rewrite Hz|split; [now rewrite Hp|]].
    intros k b' sid' Hb' Hsid'. rewrite Hbs in Hb'.
    destruct (decide (k = bid)) as [->|Hne].
    + rewrite lookup_insert_eq in Hb'. injection Hb' as <-. congruence.
    + rewrite lookup_insert_ne in Hb' by congruence.
      destruct (Hfk k b' sid' Hb' Hsid') as [s0 Hs0].
      destruct (Hs sid' s0 Hs0) as [s' [Hs' _]]. eauto.
  - intros z t Hzs. rewrite Hz in Hzs.
    rewrite (max_capacity_same_places st st' z Hp).
    specialize (Hinv z t Hzs).
    assert (Hold :
      length (List.filter
                (fun '(_, b0) => in_zone st' z b0 && is_active_status (status b0)
                                 && contains b0 t)
                (map_to_list (bookings st)))
      = length (List.filter
                (fun '(_, b0) => in_zone st z b0 && is_active_status (status b0)
                                 && contains b0 t)
                (map_to_list (bookings st)))).
    { apply filter_length_ext. intros [k b0] Hin. apply In_map_to_list in Hin.
      unfold in_zone.
      rewrite (booking_zone_stable st st' b0 b0 Hp Hs eq_refl)
        by (intros sid0; apply (Hfk k b0 sid0 Hin)).
      reflexivity. }
    unfold occupancy in *. rewrite Hbs, count_insert_fresh by assumption.
    rewrite Hold.
    destruct (in_zone st' z b && is_active_status (status b) && contains b t) eqn:Hnew;
      [|simpl; lia].
    apply andb_true_iff in Hnew as [Hnew Hc].
    apply andb_true_iff in Hnew as [Hzone _]. apply in_zone_true in Hzone.
    apply contains_spec in Hc as (s' & e' & Hs' & He' & Ht).
    assert (s' = s) by congruence. assert (e' = e) by congruence. subst s' e'.
    pose proof (check_zone_capacity_room st z s e t (Hcheck z Hzone Hzs) Ht) as Hroom.
    unfold occupancy in Hroom. lia.
Qed.

(** ** The operations as transitions *)

Lemma slots_extend_refl st st' : slots st' = slots st -> slots_extend st st'.
Proof. intros H sid s Hs. exists s. now rewrite H. Qed.

Lemma slots_extend_flag st st' sid slot a :
  slots st !! sid = Some slot ->
  slots st' = <[sid := set_available a slot]> (slots st) ->
  slots_extend st st'.
Proof.
  intros Hsl H k s Hs. rewrite H. destruct (decide (k = sid)) as [->|Hne].
  - rewrite lookup_insert_eq. exists (set_available a slot).
    split; [reflexivity|]. simpl. congruence.
  - rewrite lookup_insert_ne by congruence. now exists s.
Qed.

Lemma slots_extend_new st st' slot :
  slots st' = <[next_id (slots st) := slot]> (slots st) ->
  slots_extend st st'.
Proof.
  intros H k s Hs. rewrite H.
  rewrite lookup_insert_ne by (pose proof (next_id_above _ _ _ Hs); lia).
  now exists s.
Qed.

Lemma auto_complete_releases st now booking :
  releases st (auto_complete_expired_bookings st now booking).
Proof.
  destruct booking as [bid|].
  - destruct (auto_complete_one_frame st now bid) as (Hz & Hp & Hs & _).
    split; [assumption|]. split; [now rewrite Hz|].
    split; [now apply slots_extend_refl|].
    intros k b' Hb'. rewrite auto_complete_one_lookup in Hb'.
    destruct (bookings st !! k) as [b|]; [|discriminate]. simpl in Hb'.
    exists b. split; [reflexivity|]. injection Hb' as <-.
    destruct (decide (k = bid)); [|tauto].
    destruct (expired now b) eqn:He; [|tauto]. simpl.
    unfold expired in He. apply andb_true_iff in He as [He _].
    apply is_active_status_true in He. tauto.
  - destruct (auto_complete_all_frame st now) as (Hz & Hp & Hs & _).
    split; [assumption|]. split; [now rewrite Hz|].
    split; [now apply slots_extend_refl|].
    intros k b' Hb'. rewrite auto_complete_all_lookup in Hb'.
    destruct (bookings st !! k) as [b|]; [|discriminate]. simpl in Hb'.
    exists b. split; [reflexivity|]. injection Hb' as <-.
    destruct (expired now b) eqn:He; [|tauto]. simpl.
    unfold expired in He. apply andb_true_iff in He as [He _].
    apply is_active_status_true in He. tauto.
Qed.

Lemma cancel_booking_releases st user bid is_admin c :
  releases st (snd (cancel_booking st user bid is_admin c)).
Proof.
  unfold cancel_booking.
  destruct (bookings st !! bid) as [b|] eqn:Hb; [|apply releases_refl].
  destruct (negb is_admin && negb (user_id b =? user)); [apply releases_refl|].
  destruct (negb (is_active_status (status b))); [apply releases_refl|].
  destruct c; [apply releases_refl|].
  assert (Hbk : forall st1, bookings st1 = bookings st ->
            forall k b', <[bid := set_status Cancelled b]> (bookings st1) !! k = Some b' ->
              exists b0, bookings st !! k = Some b0 /\ slot_id b' = slot_id b0 /\
                         start_time b' = start_time b0 /\ end_time b' = end_time b0 /\
                         (status b' = Active -> status b0 = Active)).
  { intros st1 -> k b' Hb'. destruct (decide (k = bid)) as [->|Hne].
    - rewrite lookup_insert_eq in Hb'. injection Hb' as <-. exists b.
      simpl. repeat split; [assumption|discriminate].
    - rewrite lookup_insert_ne in Hb' by congruence. exists b'. tauto. }
  destruct (truthy_id (slot_id b)).
  - destruct (slot_id b) as [sid|]; simpl.
    + destruct (slots st !! sid) as [slot|] eqn:Hsl; simpl.
      * repeat split; try tauto.
        -- eapply slots_extend_flag; [exact Hsl|reflexivity].
        -- now apply Hbk.
      * repeat split; try tauto; [now apply slots_extend_refl|now apply Hbk].
    + repeat split; try tauto; [now apply slots_extend_refl|now apply Hbk].
  - simpl. repeat split; try tauto; [now apply slots_extend_refl|now apply Hbk].
Qed.

Lemma close_zone_releases st z data :
  releases st (snd (close_zone st z data)).
Proof.
  destruct (zones st !! z) as [zone|] eqn:Hz.
  2:{ unfold close_zone. rewrite Hz. apply releases_refl. }
  destruct (close_zone st z data) as [result st'] eqn:Hc.
  destruct (close_zone_tables st st' z data zone result Hz Hc)
    as (_ & Hzs & Hps & Hbs & Hss).
  cbn [snd]. split; [assumption|]. split; [|split].
  - intros z'. rewrite Hzs. destruct (decide (z' = z)) as [->|Hne].
    + rewrite lookup_insert_eq, Hz. split; eauto.
    + now rewrite lookup_insert_ne by congruence.
  - intros sid s Hs. rewrite Hss, Hs. destruct (decide _); simpl; eauto.
  - intros bid b' Hb'. rewrite Hbs in Hb'.
    destruct (bookings st !! bid) as [b|]; [|now destruct (decide _)].
    exists b. split; [reflexivity|].
    destruct (decide _); simpl in Hb'; injection Hb' as <-; [|tauto].
    simpl. repeat split. discriminate.
Qed.

(** A slot in the store with a place and a zone in the store is loaded
    with that zone. *)
Lemma load_slot_zone_found st slot z :
  well_formed st -> slot_zone st slot = Some z -> is_Some (zones st !! z) ->
  exists zone, load_slot_zone st slot = Some (z, zone).
Proof.
  intros (Hz0 & Hp0 & _) Hsz [zone Hzone]. unfold slot_zone in Hsz.
  unfold load_slot_zone.
  destruct (slot_place_id slot) as [pid|] eqn:Hpid; [|discriminate]. simpl in *.
  destruct (places st !! pid) as [p|] eqn:Hp; [|discriminate]. simpl in *.
  assert (pid <> 0) by congruence.
  replace (pid =? 0) with false by (symmetry; now apply Z.eqb_neq). simpl.
  rewrite Hsz. simpl.
  assert (z <> 0) by congruence.
  replace (z =? 0) with false by (symmetry; now apply Z.eqb_neq). simpl.
  rewrite Hzone. simpl. eauto.
Qed.

Lemma create_booking_transition st user sid c :
  well_formed st ->
  releases st (snd (create_booking st user sid c)) \/
  adds st (snd (create_booking st user sid c)).
Proof.
  intros Hwf. unfold create_booking.
  destruct (slots st !! sid) as [slot|] eqn:Hsl; [|left; apply releases_refl].
  destruct (negb (is_available slot)); [left; apply releases_refl|].
  destruct (scalar_one_or_none _) as [[row|]|]; try (left; apply releases_refl).
  destruct (check_user_booking_conflicts _ _ _ _ _); [left; apply releases_refl|].
  destruct (match load_slot_zone st slot with
            | Some (zid, _) =>
                negb (check_zone_capacity st zid (slot_start_time slot)
                                          (slot_end_time slot))
            | None => false
            end) eqn:Hcap; [left; apply releases_refl|].
  destruct c; [left; apply releases_refl|].
  right. cbn [snd].
  eexists (next_id (bookings st)), _, sid, (slot_start_time slot), (slot_end_time slot).
  split; [apply next_id_fresh|]. split; [reflexivity|].
  split; [reflexivity|]. split; [reflexivity|].
  split; [eapply slots_extend_flag; [exact Hsl|reflexivity]|].
  split; [reflexivity|]. simpl.
  split; [rewrite lookup_insert_eq; eauto|].
  split; [reflexivity|]. split; [reflexivity|].
  intros z Hbz Hzs. unfold booking_zone, booking_slot in Hbz. simpl in Hbz.
  rewrite lookup_insert_eq in Hbz. simpl in Hbz.
  destruct (load_slot_zone_found st slot z Hwf Hbz Hzs) as [zone Hl].
  rewrite Hl in Hcap. now apply negb_false_iff in Hcap.
Qed.

Lemma active_places_In st zid pid p :
  In (pid, p) (active_places st zid) ->
  places st !! pid = Some p /\ place_zone_id p = Some zid.
Proof.
  unfold active_places. rewrite filter_In, In_scan, andb_true_iff.
  unfold col_eqb. intros [Hp [Hz _]]. split; [assumption|].
  destruct (place_zone_id p) as [z|]; [|discriminate].
  apply Z.eqb_eq in Hz. congruence.
Qed.

(** Booking an existing slot of a place, or a new slot on it, after the
    check of the place's zone passed. *)
Lemma book_existing_slot_adds st sid slot b pid p zid s e ev st' bid :
  slots st !! sid = Some slot -> slot_place_id slot = Some pid ->
  places st !! pid = Some p -> place_zone_id p = Some zid ->
  check_zone_capacity st zid s e = true ->
  slot_id b = Some sid -> start_time b = Some s -> end_time b = Some e ->
  book_existing_slot st sid slot b = (bid, st') ->
  adds st (emit ev st').
Proof.
  intros Hsl Hpid Hp Hzid Hc Hsid Hs He H. unfold book_existing_slot in H.
  injection H as <- <-. exists (next_id (bookings st)), b, sid, s, e. simpl.
  split; [apply next_id_fresh|]. do 3 (split; [reflexivity|]).
  split; [eapply slots_extend_flag; [exact Hsl|reflexivity]|].
  split; [assumption|]. split; [rewrite lookup_insert_eq; eauto|].
  do 2 (split; [assumption|]).
  intros z Hbz _. unfold booking_zone, booking_slot in Hbz. rewrite Hsid in Hbz.
  simpl in Hbz. rewrite lookup_insert_eq in Hbz. simpl in Hbz.
  unfold slot_zone in Hbz. simpl in Hbz. rewrite Hpid in Hbz. simpl in Hbz.
  rewrite Hp in Hbz. simpl in Hbz. congruence.
Qed.

Lemma book_new_slot_adds st pid p zid s e (mk : Z -> Booking) ev bid b st' :
  places st !! pid = Some p -> place_zone_id p = Some zid ->
  check_zone_capacity st zid s e = true ->
  (forall sid, slot_id (mk sid) = Some sid /\ start_time (mk sid) = Some s /\
               end_time (mk sid) = Some e) ->
  book_new_slot st (Some pid) s e mk = (bid, b, st') ->
  adds st (emit ev st').
Proof.
  intros Hp Hzid Hc Hmk H. unfold book_new_slot in H. injection H as <- <- <-.
  destruct (Hmk (next_id (slots st))) as (Hsid & Hs & He).
  exists (next_id (bookings st)), (mk (next_id (slots st))), (next_id (slots st)), s, e.
  simpl. split; [apply next_id_fresh|]. do 3 (split; [reflexivity|]).
  split; [eapply slots_extend_new; reflexivity|].
  split; [assumption|]. split; [rewrite lookup_insert_eq; eauto|].
  do 2 (split; [assumption|]).
  intros z Hbz _. unfold booking_zone, booking_slot in Hbz. rewrite Hsid in Hbz.
  simpl in Hbz. rewrite lookup_insert_eq in Hbz. simpl in Hbz.
  unfold slot_zone in Hbz. simpl in Hbz. rewrite Hp in Hbz. simpl in Hbz. congruence.
Qed.

Lemma try_places_transition st user zone zid s e c pls :
  check_zone_capacity st zid s e = true ->
  (forall pid p, In (pid, p) pls ->
                 places st !! pid = Some p /\ place_zone_id p = Some zid) ->
  releases st (snd (try_places st user zone s e c pls)) \/
  adds st (snd (try_places st user zone s e c pls)).
Proof.
  intros Hc Hpls. induction pls as [|[pid p] pls IH]; [left; apply releases_refl|].
  assert (IH' := IH (fun pid' p' H => Hpls pid' p' (or_intror H))).
  destruct (Hpls pid p (or_introl eq_refl)) as [Hp Hzid].
  cbn [try_places].
  destruct (scalar_one_or_none (exact_slots st (Some pid) s e))
    as [[[sid es]|]|] eqn:Hex; [| |left; apply releases_refl].
  - apply scalar_one_or_none_Some in Hex.
    assert (Hin : In (sid, es) (exact_slots st (Some pid) s e))
      by (rewrite Hex; now left).
    apply exact_slots_In in Hin as (Hsl & (pid' & [= <-] & Hpl) & _).
    destruct (is_available es); [|exact IH'].
    destruct c; [left; apply releases_refl|]. right.
    destruct (book_existing_slot st sid es _) as [bid st'] eqn:Hbk. cbn [snd].
    eapply (book_existing_slot_adds st sid es _ pid p zid s e); eauto; reflexivity.
  - destruct (existsb _ _); [exact IH'|].
    destruct c; [left; apply releases_refl|]. right.
    destruct (book_new_slot st (Some pid) s e _) as [[bid b] st'] eqn:Hbk. cbn [snd].
    eapply (book_new_slot_adds st pid p zid s e); eauto.
    intros sid. simpl. tauto.
Qed.

Section Transitions.
Context (MAX_BOOKING_HOURS : Z) (fromisoformat : string -> option Z).

Lemma create_booking_by_time_range_transition st user bi c :
  releases st (snd (create_booking_by_time_range MAX_BOOKING_HOURS fromisoformat
                                                 st user bi c)) \/
  adds st (snd (create_booking_by_time_range MAX_BOOKING_HOURS fromisoformat
                                             st user bi c)).
Proof.
  unfold create_booking_by_time_range.
  destruct (fromisoformat (date bi)) as [d|]; [|left; apply releases_refl].
  destruct (time_replace (start_hour bi) (start_minute bi)) as [s0|];
    [|left; apply releases_refl].
  destruct (time_replace (end_hour bi) (end_minute bi)) as [e0|];
    [|left; apply releases_refl].
  cbv zeta.
  destruct (_ <=? 0); [left; apply releases_refl|].
  destruct (_ <? _); [left; apply releases_refl|].
  destruct (zones st !! zone_id bi) as [zone|]; [|left; apply releases_refl].
  destruct (negb (zone_is_active zone)); [left; apply releases_refl|].
  destruct (check_user_booking_conflicts _ _ _ _ _); [left; apply releases_refl|].
  destruct (check_zone_capacity _ _ _ _) eqn:Hc; [|left; apply releases_refl].
  cbn [negb]. rewrite try_places_nonempty.
  apply (try_places_transition st user zone (zone_id bi)); [assumption|].
  intros pid p. apply active_places_In.
Qed.

Lemma extend_booking_failure st now now' user bid h m c e st' :
  extend_booking MAX_BOOKING_HOURS st now now' user bid h m c = (Raise e, st') ->
  st' = st \/ st' = auto_complete_expired_bookings st now' (Some bid).
Proof.
  unfold extend_booking. intros H.
  repeat match type of H with
         | (Raise _, _) = (Raise _, _) => injection H as _ <-; tauto
         | (Return _, _) = (Raise _, _) => discriminate H
         | (let '(_, _) := ?x in _) = _ => destruct x as [? ?]
         | (match ?x with _ => _ end) = _ => destruct x
         | (if ?x then _ else _) = _ => destruct x
         end.
Qed.

Lemma extend_booking_transition st now now' user bid h m c :
  releases st (snd (extend_booking MAX_BOOKING_HOURS st now now' user bid h m c)) \/
  adds st (snd (extend_booking MAX_BOOKING_HOURS st now now' user bid h m c)).
Proof.
  destruct (extend_booking MAX_BOOKING_HOURS st now now' user bid h m c)
    as [[[nid nb]|e] st'] eqn:H; cbn [snd].
  - right.
    apply extend_booking_success in H
      as (orig & b_start & b_end & slot & zid & zone & sid & Hb & Hst & Hen & Hu
          & Hs & Hslot & Hz & Hcap & Hnid & Hnb & Hbs & Hzs & Hps & Hsl).
    unfold load_place_zone in Hz.
    destruct (truthy_id (slot_place_id slot)); [|discriminate].
    destruct (slot_place_id slot) as [pid|] eqn:Hpid; [|discriminate]. simpl in Hz.
    destruct (places st !! pid) as [p|] eqn:Hp; [|discriminate]. simpl in Hz.
    destruct (place_zone_id p) as [zid'|] eqn:Hzid; [|discriminate]. simpl in Hz.
    destruct (zones st !! zid') as [zone'|]; [|discriminate].
    injection Hz as -> ->.
    exists nid, nb, sid, b_end, (b_end + (h * 3600 + m * 60)).
    split; [subst nid; apply next_id_fresh|]. split; [assumption|].
    split; [assumption|]. split; [assumption|].
    assert (Hzone : forall s', slots st' !! sid = Some s' ->
                               slot_place_id s' = Some pid ->
                               booking_zone st' nb = Some zid).
    { intros s' Hs' Hpl. unfold booking_zone, booking_slot. subst nb. simpl.
      rewrite Hs'. simpl. unfold slot_zone. rewrite Hpl. simpl.
      rewrite Hps, Hp. simpl. assumption. }
    destruct Hsl as [(es & Hes & Hpl & Hss & _)|(-> & Hss & _)].
    + split; [eapply slots_extend_flag; eassumption|].
      split; [subst nb; reflexivity|].
      split; [rewrite Hss, lookup_insert_eq; eauto|].
      split; [subst nb; reflexivity|]. split; [subst nb; reflexivity|].
      intros z Hbz _.
      rewrite (Hzone (set_available false es)) in Hbz
        by first [rewrite Hss; apply lookup_insert_eq|simpl; congruence].
      congruence.
    + split; [eapply slots_extend_new; eassumption|].
      split; [subst nb; reflexivity|].
      split; [rewrite Hss, lookup_insert_eq; eauto|].
      split; [subst nb; reflexivity|]. split; [subst nb; reflexivity|].
      intros z Hbz _.
      rewrite (Hzone (mkSlot (Some pid) b_end (b_end + (h * 3600 + m * 60)) false)) in Hbz
        by first [rewrite Hss; apply lookup_insert_eq|reflexivity].
      congruence.
  - left. apply extend_booking_failure in H as [->| ->];
      [apply releases_refl|apply auto_complete_releases].
Qed.

End Transitions.

(** ** The engine as a transition system *)

Section EngineFacts.
Context (MAX_BOOKING_HOURS : Z) (fromisoformat : string -> option Z).
Local Abbreviation step := (step MAX_BOOKING_HOURS fromisoformat).
Local Abbreviation reachable := (reachable MAX_BOOKING_HOURS fromisoformat).

Lemma step_transition st st' :
  well_formed st -> step st st' -> releases st st' \/ adds st st'.
Proof.
  intros Hwf [user sid c|user bi c|user bid is_admin c|now now' user bid h m c
             |now booking|z data].
  - now apply create_booking_transition.
  - apply create_booking_by_time_range_transition.
  - left. apply cancel_booking_releases.
  - apply extend_booking_transition.
  - left. apply auto_complete_releases.
  - left. apply close_zone_releases.
Qed.

Lemma step_preserves st st' :
  well_formed st -> capacity_invariant st -> step st st' ->
  well_formed st' /\ capacity_invariant st'.
Proof.
  intros Hwf Hinv Hstep.
  destruct (step_transition st st' Hwf Hstep) as [H|H].
  - now apply (releases_preserves st st').
  - now apply (adds_preserves st st').
Qed.

(** C1: starting from a store that respects the capacity of every zone, in
    every store the operations of the engine can reach, at every instant the
    active bookings of a zone whose interval contains the instant are at
    most as many as the zone's active places. *)
Theorem capacity_invariant_reachable (st0 st : Store) :
  well_formed st0 ->
  capacity_invariant st0 ->
  reachable st0 st ->
  forall z t, is_Some (zones st !! z) -> occupancy st z t <= max_capacity st z.
Proof.
  intros Hwf Hinv Hreach.
  enough (well_formed st /\ capacity_invariant st) as [_ H] by exact H.
  induction Hreach as [|st st' _ IH Hstep]; [tauto|].
  destruct IH as [Hwf' Hinv']. now apply (step_preserves st st').
Qed.

End EngineFacts.

(** ** Store consistency *)

Lemma frees_refl st : frees st st.
Proof.
  split; [|split].
  - intros sid s Hs. exists s. unfold same_interval. tauto.
  - intros sid s Hs. eauto.
  - intros bid b Hb. exists b. tauto.
Qed.

Lemma frees_preserves st st' : consistent st -> frees st st' -> consistent st'.
Proof.
  intros (Hfk & Hu & Hav & Hone) (Hs & Hdom & Hb). split; [|split; [|split]].
  - intros bid b' sid Hb' Hsid. destruct (Hb bid b' Hb') as (b & Hbb & Hid & _).
    destruct (Hfk bid b sid Hbb) as [s Hsl]; [congruence|]. eauto.
  - intros sid1 s1 sid2 s2 pid H1 H2 Hp1 Hp2 Hst Hen.
    destruct (Hs sid1 s1 H1) as (s1' & H1' & (Ha1 & Hb1 & Hc1) & _).
    destruct (Hs sid2 s2 H2) as (s2' & H2' & (Ha2 & Hb2 & Hc2) & _).
    apply (Hu sid1 s1' sid2 s2' pid); congruence.
  - intros bid b' sid s' Hb' Hact Hsid Hsl.
    destruct (Hb bid b' Hb') as (b & Hbb & Hid & Hst).
    destruct (Hs sid s' Hsl) as (s & Hss & _ & [Heq|Hno]).
    + rewrite Heq. apply (Hav bid b sid s); auto. congruence.
    + exfalso. now apply (Hno bid b' Hb' Hsid).
  - intros bid1 b1' bid2 b2' sid H1 H2 Ha1 Ha2 Hs1 Hs2.
    destruct (Hb bid1 b1' H1) as (b1 & Hb1 & Hid1 & Hst1).
    destruct (Hb bid2 b2' H2) as (b2 & Hb2 & Hid2 & Hst2).
    apply (Hone bid1 b1 bid2 b2 sid); auto; congruence.
Qed.

Lemma books_preserves st st' : consistent st -> books st st' -> consistent st'.
Proof.
  intros (Hfk & Hu & Hav & Hone)
         (nid & nb & sid & s' & Hfresh & Hbs & Hsid & Hss & Hun & Hcase).
  assert (Hold : forall k b, k <> nid -> bookings st' !! k = Some b ->
                             bookings st !! k = Some b).
  { intros k b Hk H. rewrite Hbs, lookup_insert_ne in H by congruence. exact H. }
  assert (Hnew : forall b, bookings st' !! nid = Some b -> b = nb).
  { intros b H. rewrite Hbs, lookup_insert_eq in H. congruence. }
  assert (Hnone : forall k b, k <> nid -> bookings st !! k = Some b ->
                              status b = Active -> slot_id b = Some sid -> False).
  { intros k b Hk Hb Hact Hs. destruct Hcase as [(es & Hes & Hfree & _)|(Hno & _)].
    - pose proof (Hav k b sid es Hb Hact Hs Hes). congruence.
    - destruct (Hfk k b sid Hb Hs) as [s0 Hs0]. congruence. }
  split; [|split; [|split]].
  - intros k b sid0 Hb Hs0. rewrite Hss.
    destruct (decide (sid0 = sid)) as [->|Hne]; [rewrite lookup_insert_eq; eauto|].
    rewrite lookup_insert_ne by congruence.
    destruct (decide (k = nid)) as [->|Hk].
    + apply Hnew in Hb. subst b. congruence.
    + apply (Hfk k b sid0); auto.
  - intros sid1 s1 sid2 s2 pid H1 H2 Hp1 Hp2 Hst Hen. rewrite Hss in H1, H2.
    destruct (decide (sid1 = sid)) as [->|Hn1], (decide (sid2 = sid)) as [->|Hn2];
      [reflexivity| | |].
    + rewrite lookup_insert_eq in H1. rewrite lookup_insert_ne in H2 by congruence.
      injection H1 as <-.
      destruct Hcase as [(es & Hes & _ & (Ha & Hb & Hc))|(_ & Hno)].
      * apply (Hu sid es sid2 s2 pid); congruence.
      * exfalso. apply (Hno sid2 s2 pid); congruence.
    + rewrite lookup_insert_eq in H2. rewrite lookup_insert_ne in H1 by congruence.
      injection H2 as <-.
      destruct Hcase as [(es & Hes & _ & (Ha & Hb & Hc))|(_ & Hno)].
      * apply (Hu sid1 s1 sid es pid); congruence.
      * exfalso. apply (Hno sid1 s1 pid); congruence.
    + rewrite lookup_insert_ne in H1, H2 by congruence.
      apply (Hu sid1 s1 sid2 s2 pid); assumption.
  - intros k b sid0 s0 Hb Hact Hs0 Hsl. rewrite Hss in Hsl.
    destruct (decide (sid0 = sid)) as [->|Hne].
    + rewrite lookup_insert_eq in Hsl. congruence.
    + rewrite lookup_insert_ne in Hsl by congruence.
      destruct (decide (k = nid)) as [->|Hk].
      * apply Hnew in Hb. subst b. congruence.
      * apply (Hav k b sid0 s0); auto.
  - intros k1 b1 k2 b2 sid0 H1 H2 Ha1 Ha2 Hs1 Hs2.
    destruct (decide (k1 = nid)) as [->|Hk1], (decide (k2 = nid)) as [->|Hk2];
      [reflexivity| | |].
    + exfalso. apply Hnew in H1. subst b1.
      apply (Hnone k2 b2 Hk2 (Hold k2 b2 Hk2 H2) Ha2). congruence.
    + exfalso. apply Hnew in H2. subst b2.
      apply (Hnone k1 b1 Hk1 (Hold k1 b1 Hk1 H1) Ha1). congruence.
    + apply (Hone k1 b1 k2 b2 sid0); auto.
Qed.

Lemma consistent_single_active st user sid :
  consistent st -> single_active_booking st user sid.
Proof.
  intros (_ & _ & _ & Hone). unfold single_active_booking.
  destruct (existing_bookings st user sid) as [|[k1 b1] [|[k2 b2] l]] eqn:He;
    [simpl; lia|simpl; lia|].
  exfalso.
  assert (H1 : In (k1, b1) (existing_bookings st user sid)) by (rewrite He; now left).
  assert (H2 : In (k2, b2) (existing_bookings st user sid))
    by (rewrite He; right; now left).
  apply existing_bookings_In in H1 as (Hb1 & _ & Hs1 & Ha1).
  apply existing_bookings_In in H2 as (Hb2 & _ & Hs2 & Ha2).
  pose proof (Hone k1 b1 k2 b2 sid Hb1 Hb2 Ha1 Ha2 Hs1 Hs2) as Heq.
  pose proof (filter_keys_NoDup
                (fun '(_, b) => (user_id b =? user) && col_eqb (slot_id b) sid
                                && is_active_status (status b))
                (bookings st)) as Hnd.
  fold (existing_bookings st user sid) in Hnd. rewrite He in Hnd. simpl in Hnd.
  apply List.NoDup_cons_iff in Hnd as [Hnin _]. apply Hnin. left. congruence.
Qed.

Lemma frees_same_slots st st' :
  slots st' = slots st ->
  (forall bid b', bookings st' !! bid = Some b' ->
     exists b, bookings st !! bid = Some b /\ slot_id b' = slot_id b /\
               (status b' = Active -> status b = Active)) ->
  frees st st'.
Proof.
  intros Hs Hb. split; [|split; [|exact Hb]].
  - intros sid s' H. rewrite Hs in H. exists s'. unfold same_interval. tauto.
  - intros sid s H. rewrite Hs. eauto.
Qed.

Lemma auto_complete_frees st now booking :
  frees st (auto_complete_expired_bookings st now booking).
Proof.
  destruct (auto_complete_releases st now booking) as (_ & _ & _ & Hb).
  apply frees_same_slots.
  - destruct booking as [bid|];
      [apply auto_complete_one_frame|apply auto_complete_all_frame].
  - intros bid b' Hb'. destruct (Hb bid b' Hb') as (b & ? & ? & _ & _ & ?). eauto.
Qed.

Lemma cancel_booking_frees st user bid is_admin c :
  consistent st -> frees st (snd (cancel_booking st user bid is_admin c)).
Proof.
  intros (_ & _ & _ & Hone). unfold cancel_booking.
  destruct (bookings st !! bid) as [b|] eqn:Hb; [|apply frees_refl].
  destruct (negb is_admin && negb (user_id b =? user)); [apply frees_refl|].
  destruct (negb (is_active_status (status b))) eqn:Hact; [apply frees_refl|].
  apply negb_false_iff, is_active_status_true in Hact.
  destruct c; [apply frees_refl|].
  assert (Hbk : forall st1, bookings st1 = bookings st ->
            forall k b', <[bid := set_status Cancelled b]> (bookings st1) !! k = Some b' ->
              exists b0, bookings st !! k = Some b0 /\ slot_id b' = slot_id b0 /\
                         (status b' = Active -> status b0 = Active)).
  { intros st1 -> k b' Hb'. destruct (decide (k = bid)) as [->|Hne].
    - rewrite lookup_insert_eq in Hb'. injection Hb' as <-. exists b.
      simpl. repeat split; [assumption|discriminate].
    - rewrite lookup_insert_ne in Hb' by congruence. exists b'. tauto. }
  destruct (truthy_id (slot_id b));
    [|cbn [snd]; apply frees_same_slots; [reflexivity|now apply Hbk]].
  destruct (slot_id b) as [sid|] eqn:Hsid;
    [|cbn [snd]; apply frees_same_slots; [reflexivity|now apply Hbk]].
  simpl.
  destruct (slots st !! sid) as [slot|] eqn:Hsl;
    [|simpl; apply frees_same_slots; [reflexivity|now apply Hbk]].
  simpl. split; [|split; [|now apply Hbk]].
  - intros k s' Hs'. simpl in Hs'. destruct (decide (k = sid)) as [->|Hne].
    + rewrite lookup_insert_eq in Hs'. injection Hs' as <-. exists slot.
      split; [assumption|]. split; [unfold same_interval; simpl; tauto|].
      right. intros k b' Hb' Hs' Ha. simpl in Hb'.
      destruct (decide (k = bid)) as [->|Hk].
      * rewrite lookup_insert_eq in Hb'. injection Hb' as <-. discriminate.
      * rewrite lookup_insert_ne in Hb' by congruence.
        apply Hk. apply (Hone k b' bid b sid); assumption.
    + rewrite lookup_insert_ne in Hs' by congruence. exists s'.
      unfold same_interval. tauto.
  - intros k s Hs. simpl. destruct (decide (k = sid)) as [->|Hne].
    + rewrite lookup_insert_eq. eauto.
    + rewrite lookup_insert_ne by congruence. eauto.
Qed.

Lemma close_zone_frees st z data :
  consistent st -> frees st (snd (close_zone st z data)).
Proof.
  intros (_ & _ & _ & Hone).
  destruct (zones st !! z) as [zone|] eqn:Hz.
  2:{ unfold close_zone. rewrite Hz. apply frees_refl. }
  destruct (close_zone st z data) as [result st'] eqn:Hc.
  destruct (close_zone_tables st st' z data zone result Hz Hc)
    as (_ & _ & _ & Hbs & Hss).
  cbn [snd].
  assert (Hbk : forall bid b', bookings st' !! bid = Some b' ->
            exists b, bookings st !! bid = Some b /\ slot_id b' = slot_id b /\
                      (status b' = Active ->
                       status b = Active /\ affected_by_closure st z data b = false)).
  { intros bid b' Hb'. rewrite Hbs in Hb'.
    destruct (bookings st !! bid) as [b|] eqn:Hb; [|now destruct (decide _)].
    exists b. split; [reflexivity|].
    destruct (decide _) as [Hin|Hnin]; simpl in Hb'; injection Hb' as <-.
    - simpl. split; [reflexivity|discriminate].
    - split; [reflexivity|]. intros Ha. split; [assumption|].
      destruct (affected_by_closure st z data b) eqn:Haff; [|reflexivity].
      exfalso. apply Hnin. apply closure_rows_keys. eauto. }
  split; [|split].
  - intros sid s' Hs'. rewrite Hss in Hs'.
    destruct (slots st !! sid) as [s|] eqn:Hs; [|now destruct (decide _)].
    exists s. split; [reflexivity|].
    destruct (decide _) as [Hin|_]; simpl in Hs'; injection Hs' as <-;
      (split; [unfold same_interval; simpl; tauto|]); [|now left].
    right. intros bid b' Hb' Hsid Ha.
    destruct (Hbk bid b' Hb') as (b & Hb & Hid & Hst).
    destruct (Hst Ha) as [Hact Hnaff].
    apply closure_rows_slots in Hin as (bid0 & b0 & Hb0 & Haff0 & Hsid0).
    apply affected_by_closure_hit in Haff0.
    pose proof Haff0 as Haff0'.
    apply affected_by_closure_spec in Haff0' as (Hact0 & _).
    assert (bid = bid0) by (apply (Hone bid b bid0 b0 sid); congruence).
    subst bid0. congruence.
  - intros sid s Hs. rewrite Hss, Hs. destruct (decide _); simpl; eauto.
  - intros bid b' Hb'. destruct (Hbk bid b' Hb') as (b & ? & ? & Hst).
    exists b. repeat split; try assumption. intros Ha. now apply Hst.
Qed.

Lemma create_booking_books st user sid c :
  frees st (snd (create_booking st user sid c)) \/
  books st (snd (create_booking st user sid c)).
Proof.
  unfold create_booking.
  destruct (slots st !! sid) as [slot|] eqn:Hsl; [|left; apply frees_refl].
  destruct (is_available slot) eqn:Hav; [|left; apply frees_refl]. cbn [negb].
  destruct (scalar_one_or_none _) as [[row|]|]; try (left; apply frees_refl).
  destruct (check_user_booking_conflicts _ _ _ _ _); [left; apply frees_refl|].
  destruct (match load_slot_zone st slot with
            | Some (zid, _) => _
            | None => false
            end); [left; apply frees_refl|].
  destruct c; [left; apply frees_refl|].
  right. cbn [snd].
  eexists (next_id (bookings st)), _, sid, (set_available false slot). simpl.
  split; [apply next_id_fresh|]. do 4 (split; [reflexivity|]).
  left. exists slot. unfold same_interval. simpl. tauto.
Qed.

Lemma exact_slots_none st pid start_t end_t k s :
  exact_slots st (Some pid) start_t end_t = [] ->
  slots st !! k = Some s -> slot_place_id s = Some pid ->
  slot_start_time s = start_t -> slot_end_time s = end_t -> False.
Proof.
  intros He Hs Hp Hst Hen.
  assert (Hin : In (k, s) (exact_slots st (Some pid) start_t end_t)).
  { apply exact_slots_In. split; [assumption|]. split; [eauto|tauto]. }
  rewrite He in Hin. destruct Hin.
Qed.

Lemma try_places_books st user zone s e c pls :
  frees st (snd (try_places st user zone s e c pls)) \/
  books st (snd (try_places st user zone s e c pls)).
Proof.
  induction pls as [|[pid p] pls IH]; [left; apply frees_refl|].
  cbn [try_places].
  destruct (scalar_one_or_none (exact_slots st (Some pid) s e))
    as [[[sid es]|]|] eqn:Hex; [| |left; apply frees_refl].
  - apply scalar_one_or_none_Some in Hex.
    assert (Hin : In (sid, es) (exact_slots st (Some pid) s e))
      by (rewrite Hex; now left).
    apply exact_slots_In in Hin as (Hsl & _).
    destruct (is_available es) eqn:Hav; [|exact IH].
    destruct c; [left; apply frees_refl|]. right. simpl.
    eexists (next_id (bookings st)), _, sid, (set_available false es).
    split; [apply next_id_fresh|]. do 4 (split; [reflexivity|]).
    left. exists es. unfold same_interval. simpl. tauto.
  - apply scalar_one_or_none_None in Hex.
    destruct (existsb _ _); [exact IH|].
    destruct c; [left; apply frees_refl|]. right. simpl.
    eexists (next_id (bookings st)), _, (next_id (slots st)),
            (mkSlot (Some pid) s e false).
    split; [apply next_id_fresh|]. do 4 (split; [reflexivity|]).
    right. split; [apply next_id_fresh|]. simpl.
    intros k s0 pid' Hs0 Hp0 [= <-] Hst Hen.
    now apply (exact_slots_none st pid s e k s0).
Qed.

Section ConsistencyTransitions.
Context (MAX_BOOKING_HOURS : Z) (fromisoformat : string -> option Z).

Lemma create_booking_by_time_range_books st user bi c :
  frees st (snd (create_booking_by_time_range MAX_BOOKING_HOURS fromisoformat
                                              st user bi c)) \/
  books st (snd (create_booking_by_time_range MAX_BOOKING_HOURS fromisoformat
                                              st user bi c)).
Proof.
  unfold create_booking_by_time_range.
  destruct (fromisoformat (date bi)) as [d|]; [|left; apply frees_refl].
  destruct (time_replace (start_hour bi) (start_minute bi)) as [s0|];
    [|left; apply frees_refl].
  destruct (time_replace (end_hour bi) (end_minute bi)) as [e0|];
    [|left; apply frees_refl].
  cbv zeta.
  destruct (_ <=? 0); [left; apply frees_refl|].
  destruct (_ <? _); [left; apply frees_refl|].
  destruct (zones st !! zone_id bi) as [zone|]; [|left; apply frees_refl].
  destruct (negb (zone_is_active zone)); [left; apply frees_refl|].
  destruct (check_user_booking_conflicts _ _ _ _ _); [left; apply frees_refl|].
  destruct (check_zone_capacity _ _ _ _); [|left; apply frees_refl].
  cbn [negb]. rewrite try_places_nonempty. apply try_places_books.
Qed.

Lemma extend_booking_books st now now' user bid h m c :
  frees st (snd (extend_booking MAX_BOOKING_HOURS st now now' user bid h m c)) \/
  books st (snd (extend_booking MAX_BOOKING_HOURS st now now' user bid h m c)).
Proof.
  destruct (extend_booking MAX_BOOKING_HOURS st now now' user bid h m c)
    as [[[nid nb]|e] st'] eqn:H; cbn [snd].
  - right.
    apply extend_booking_success in H
      as (orig & b_start & b_end & slot & zid & zone & sid & Hb & Hst & Hen & Hu
          & Hs & Hslot & Hz & Hcap & Hnid & Hnb & Hbs & Hzs & Hps & Hsl).
    destruct Hsl as [(es & Hes & Hpl & Hss & Hav)|(-> & Hss & Hnone)].
    + exists nid, nb, sid, (set_available false es).
      split; [subst nid; apply next_id_fresh|]. split; [assumption|].
      split; [subst nb; reflexivity|]. split; [assumption|].
      split; [reflexivity|]. left. exists es. unfold same_interval. simpl. tauto.
    + exists nid, nb, (next_id (slots st)),
             (mkSlot (slot_place_id slot) b_end (b_end + (h * 3600 + m * 60)) false).
      split; [subst nid; apply next_id_fresh|]. split; [assumption|].
      split; [subst nb; reflexivity|]. split; [assumption|].
      split; [reflexivity|]. right. split; [apply next_id_fresh|]. simpl.
      intros k s0 pid Hs0 Hp0 Hp1 Hst0 Hen0. rewrite Hp1 in Hnone.
      now apply (exact_slots_none st pid b_end (b_end + (h * 3600 + m * 60)) k s0).
  - left. apply extend_booking_failure in H as [->| ->];
      [apply frees_refl|apply auto_complete_frees].
Qed.

Lemma step_consistent st st' :
  consistent st -> step MAX_BOOKING_HOURS fromisoformat st st' -> consistent st'.
Proof.
  intros Hc [user sid c|user bi c|user bid is_admin c|now now' user bid h m c
            |now booking|z data].
  - destruct (create_booking_books st user sid c);
      [now apply (frees_preserves st)|now apply (books_preserves st)].
  - destruct (create_booking_by_time_range_books st user bi c);
      [now apply (frees_preserves st)|now apply (books_preserves st)].
  - apply (frees_preserves st); [assumption|now apply cancel_booking_frees].
  - destruct (extend_booking_books st now now' user bid h m c);
      [now apply (frees_preserves st)|now apply (books_preserves st)].
  - apply (frees_preserves st); [assumption|apply auto_complete_frees].
  - apply (frees_preserves st); [assumption|now apply close_zone_frees].
Qed.

(** The stores the engine reaches from a consistent store are consistent:
    the uniqueness of slots and of a user's active booking on a slot, which
    the exact-slot and existing-booking queries rely on, hold in all of them. *)
Lemma consistent_reachable st0 st :
  consistent st0 -> reachable MAX_BOOKING_HOURS fromisoformat st0 st ->
  consistent st /\ slots_unique st /\
  forall user sid, single_active_booking st user sid.
Proof.
  intros Hc Hreach.
  assert (H : consistent st).
  { induction Hreach as [|st st' _ IH Hstep]; [assumption|].
    now apply (step_consistent st st'). }
  split; [assumption|]. split; [apply H|].
  intros user sid. now apply consistent_single_active.
Qed.

End ConsistencyTransitions.

(** ** The life of a booking row *)

Lemma quiet_refl st : quiet st st.
Proof. intros bid. destruct (bookings st !! bid); [now left|exact I]. Qed.

Lemma retired_inactive b b' : retired b b' -> b' = b \/ status b' <> Active.
Proof.
  intros [->|(_ & [->|[->|[data ->]]])]; [now left|right..]; simpl; discriminate.
Qed.

Lemma retired_fields b b' :
  retired b b' ->
  user_id b' = user_id b /\ slot_id b' = slot_id b /\
  start_time b' = start_time b /\ end_time b' = end_time b /\
  booking_zone_name b' = booking_zone_name b /\
  booking_zone_address b' = booking_zone_address b.
Proof.
  intros [->|(_ & [->|[->|[data ->]]])]; simpl; tauto.
Qed.

Lemma retired_trans b b' b'' : retired b b' -> retired b' b'' -> retired b b''.
Proof.
  intros H1 H2. destruct (retired_inactive b b' H1) as [->|Hn]; [assumption|].
  destruct H2 as [->|(Ha & _)]; [assumption|contradiction].
Qed.

Lemma auto_complete_quiet st now booking :
  quiet st (auto_complete_expired_bookings st now booking).
Proof.
  intros bid. destruct booking as [k|].
  - rewrite auto_complete_one_lookup.
    destruct (bookings st !! bid) as [b|]; simpl; [|exact I].
    destruct (decide (bid = k)); [|now left].
    destruct (expired now b) eqn:He; [|now left].
    right. unfold expired in He. apply andb_true_iff in He as [He _].
    apply is_active_status_true in He. split; [assumption|now left].
  - rewrite auto_complete_all_lookup.
    destruct (bookings st !! bid) as [b|]; simpl; [|exact I].
    destruct (expired now b) eqn:He; [|now left].
    right. unfold expired in He. apply andb_true_iff in He as [He _].
    apply is_active_status_true in He. split; [assumption|now left].
Qed.

Lemma quiet_insert st st' bid b b' :
  bookings st !! bid = Some b -> retired b b' ->
  bookings st' = <[bid := b']> (bookings st) ->
  quiet st st'.
Proof.
  intros Hb Hr Hbs k. rewrite Hbs. destruct (decide (k = bid)) as [->|Hne].
  - now rewrite lookup_insert_eq, Hb.
  - rewrite lookup_insert_ne by congruence.
    destruct (bookings st !! k); [now left|exact I].
Qed.

Lemma cancel_booking_quiet st user bid is_admin c :
  quiet st (snd (cancel_booking st user bid is_admin c)).
Proof.
  unfold cancel_booking.
  destruct (bookings st !! bid) as [b|] eqn:Hb; [|apply quiet_refl].
  destruct (negb is_admin && negb (user_id b =? user)); [apply quiet_refl|].
  destruct (negb (is_active_status (status b))) eqn:Hact; [apply quiet_refl|].
  apply negb_false_iff, is_active_status_true in Hact.
  destruct c; [apply quiet_refl|].
  apply (quiet_insert st _ bid b (set_status Cancelled b) Hb).
  - right. split; [assumption|]. right. now left.
  - destruct (truthy_id (slot_id b)); [|reflexivity].
    destruct (slot_id b) as [sid|]; [|reflexivity]. simpl.
    now destruct (slots st !! sid).
Qed.

Lemma close_zone_quiet st z data :
  quiet st (snd (close_zone st z data)).
Proof.
  destruct (zones st !! z) as [zone|] eqn:Hz.
  2:{ unfold close_zone. rewrite Hz. apply quiet_refl. }
  destruct (close_zone st z data) as [result st'] eqn:Hc.
  destruct (close_zone_tables st st' z data zone result Hz Hc)
    as (_ & _ & _ & Hbs & _).
  cbn [snd]. intros bid. rewrite Hbs.
  destruct (bookings st !! bid) as [b|] eqn:Hb; [|now destruct (decide _)].
  destruct (decide _) as [Hin|_]; simpl; [|now left].
  apply closure_rows_keys in Hin as (b0 & Hb0 & Haff).
  assert (b0 = b) by congruence. subst b0.
  apply affected_by_closure_spec in Haff as (Hact & _).
  right. split; [assumption|]. right. right. now exists data.
Qed.

Lemma no_conflict_no_overlap st user start_t end_t nb :
  check_user_booking_conflicts st user start_t end_t None = false ->
  user_id nb = user -> start_time nb = Some start_t -> end_time nb = Some end_t ->
  forall k b, bookings st !! k = Some b -> user_id b = user_id nb ->
              status b = Active -> ~ overlap b nb.
Proof.
  intros Hc Hu Hs He k b Hb Hub Hact (s1 & e1 & s2 & e2 & H1 & H2 & H3 & H4 & Hlt1 & Hlt2).
  assert (Hov : has_overlapping_booking st user start_t end_t).
  { exists k, b, s1, e1. repeat split; try assumption; congruence. }
  apply check_user_booking_conflicts_spec in Hov. congruence.
Qed.

Lemma create_booking_admits st user sid c :
  quiet st (snd (create_booking st user sid c)) \/
  admits st (snd (create_booking st user sid c)).
Proof.
  unfold create_booking.
  destruct (slots st !! sid) as [slot|]; [|left; apply quiet_refl].
  destruct (negb (is_available slot)); [left; apply quiet_refl|].
  destruct (scalar_one_or_none _) as [[row|]|]; try (left; apply quiet_refl).
  destruct (check_user_booking_conflicts _ _ _ _ _) eqn:Hconf; [left; apply quiet_refl|].
  destruct (match load_slot_zone st slot with
            | Some (zid, _) => _
            | None => false
            end); [left; apply quiet_refl|].
  destruct c; [left; apply quiet_refl|].
  right. cbn [snd].
  eexists (next_id (bookings st)), _, (slot_start_time slot), (slot_end_time slot).
  simpl. split; [apply next_id_fresh|]. do 4 (split; [reflexivity|]).
  now apply (no_conflict_no_overlap st user (slot_start_time slot) (slot_end_time slot)).
Qed.

Lemma try_places_admits st user zone s e c pls :
  check_user_booking_conflicts st user s e None = false ->
  quiet st (snd (try_places st user zone s e c pls)) \/
  admits st (snd (try_places st user zone s e c pls)).
Proof.
  intros Hconf. induction pls as [|[pid p] pls IH]; [left; apply quiet_refl|].
  cbn [try_places].
  destruct (scalar_one_or_none (exact_slots st (Some pid) s e))
    as [[[sid es]|]|]; [| |left; apply quiet_refl].
  - destruct (is_available es); [|exact IH].
    destruct c; [left; apply quiet_refl|]. right. simpl.
    eexists (next_id (bookings st)), _, s, e.
    split; [apply next_id_fresh|]. do 4 (split; [reflexivity|]).
    now apply (no_conflict_no_overlap st user s e).
  - destruct (existsb _ _); [exact IH|].
    destruct c; [left; apply quiet_refl|]. right. simpl.
    eexists (next_id (bookings st)), _, s, e.
    split; [apply next_id_fresh|]. do 4 (split; [reflexivity|]).
    now apply (no_conflict_no_overlap st user s e).
Qed.

(** The conflict test of [extend_booking], the extended booking set aside. *)
Lemma no_conflict_excluding st user start_t end_t bid k b :
  check_user_booking_conflicts st user start_t end_t (Some bid) = false ->
  bookings st !! k = Some b -> k <> bid -> user_id b = user -> status b = Active ->
  forall bs be, start_time b = Some bs -> end_time b = Some be ->
                ~ (bs < end_t /\ start_t < be).
Proof.
  intros Hc Hb Hk Hu Hact bs be Hbs Hbe [Hlt1 Hlt2].
  unfold check_user_booking_conflicts in Hc. apply Nat.ltb_ge in Hc.
  assert (Hin : In (k, b) (conflicting_bookings st user start_t end_t (Some bid))).
  { unfold conflicting_bookings. apply filter_In. split; [now apply In_map_to_list|].
    rewrite !andb_true_iff, is_active_status_true, Z.eqb_eq, negb_true_iff, Z.eqb_neq.
    unfold col_ltb, col_gtb. rewrite Hbs, Hbe, !Z.ltb_lt. tauto. }
  destruct (conflicting_bookings st user start_t end_t (Some bid));
    [destruct Hin|simpl in Hc; lia].
Qed.

Section Lifecycle.
Context (MAX_BOOKING_HOURS : Z) (fromisoformat : string -> option Z).

Lemma create_booking_by_time_range_admits st user bi c :
  quiet st (snd (create_booking_by_time_range MAX_BOOKING_HOURS fromisoformat
                                              st user bi c)) \/
  admits st (snd (create_booking_by_time_range MAX_BOOKING_HOURS fromisoformat
                                               st user bi c)).
Proof.
  unfold create_booking_by_time_range.
  destruct (fromisoformat (date bi)) as [d|]; [|left; apply quiet_refl].
  destruct (time_replace (start_hour bi) (start_minute bi)) as [s0|];
    [|left; apply quiet_refl].
  destruct (time_replace (end_hour bi) (end_minute bi)) as [e0|];
    [|left; apply quiet_refl].
  cbv zeta.
  destruct (_ <=? 0); [left; apply quiet_refl|].
  destruct (_ <? _); [left; apply quiet_refl|].
  destruct (zones st !! zone_id bi) as [zone|]; [|left; apply quiet_refl].
  destruct (negb (zone_is_active zone)); [left; apply quiet_refl|].
  destruct (check_user_booking_conflicts _ _ _ _ _) eqn:Hconf; [left; apply quiet_refl|].
  destruct (check_zone_capacity _ _ _ _); [|left; apply quiet_refl].
  cbn [negb]. rewrite try_places_nonempty. now apply try_places_admits.
Qed.

Lemma extend_booking_no_conflict st now now' user bid h m c nid nb st' orig b_end :
  extend_booking MAX_BOOKING_HOURS st now now' user bid h m c
  = (Return (nid, nb), st') ->
  bookings st !! bid = Some orig -> end_time orig = Some b_end ->
  check_user_booking_conflicts st user b_end (b_end + (h * 3600 + m * 60)) (Some bid)
  = false.
Proof.
  unfold extend_booking. intros H Hb Hen. rewrite Hb in H.
  destruct (col_leb (end_time orig) now); [discriminate|].
  destruct (negb (user_id orig =? user)); [discriminate|].
  destruct (negb (is_active_status (status orig))); [discriminate|].
  destruct (start_time orig) as [b_start|]; [|discriminate].
  rewrite Hen in H.
  destruct (if truthy_id (slot_id orig) then booking_slot st orig else None)
    as [slot|]; [|discriminate].
  destruct (new_end_time b_end h m) as [new_end|] eqn:Hnew; [|discriminate].
  apply new_end_time_Return in Hnew. subst new_end.
  cbv zeta in H.
  destruct (_ <? _); [discriminate|].
  now destruct (check_user_booking_conflicts _ _ _ _ _).
Qed.

Lemma extend_booking_admits st now now' user bid h m c :
  quiet st (snd (extend_booking MAX_BOOKING_HOURS st now now' user bid h m c)) \/
  admits st (snd (extend_booking MAX_BOOKING_HOURS st now now' user bid h m c)).
Proof.
  destruct (extend_booking MAX_BOOKING_HOURS st now now' user bid h m c)
    as [[[nid nb]|e] st'] eqn:H; cbn [snd].
  - right. pose proof H as H'.
    apply extend_booking_success in H'
      as (orig & b_start & b_end & slot & zid & zone & sid & Hb & Hst & Hen & Hu
          & Hs & Hslot & Hz & Hcap & Hnid & Hnb & Hbs & _).
    pose proof (extend_booking_no_conflict st now now' user bid h m c nid nb st'
                  orig b_end H Hb Hen) as Hconf.
    exists nid, nb, b_end, (b_end + (h * 3600 + m * 60)).
    split; [subst nid; apply next_id_fresh|]. split; [assumption|].
    split; [subst nb; reflexivity|]. split; [subst nb; reflexivity|].
    split; [subst nb; reflexivity|].
    intros k b Hkb Hub Hact (s1 & e1 & s2 & e2 & H1 & H2 & H3 & H4 & Hlt1 & Hlt2).
    subst nb. simpl in *. injection H3 as <-. injection H4 as <-.
    destruct (decide (k = bid)) as [->|Hne].
    + assert (b = orig) by congruence. subst b.
      assert (e1 = b_end) by congruence. lia.
    + apply (no_conflict_excluding st user b_end (b_end + (h * 3600 + m * 60)) bid k b
               Hconf Hkb Hne Hub Hact s1 e1 H1 H2). lia.
  - left. apply extend_booking_failure in H as [->| ->];
      [apply quiet_refl|apply auto_complete_quiet].
Qed.

Lemma step_lifecycle st st' :
  step MAX_BOOKING_HOURS fromisoformat st st' -> quiet st st' \/ admits st st'.
Proof.
  intros [user sid c|user bi c|user bid is_admin c|now now' user bid h m c
         |now booking|z data].
  - apply create_booking_admits.
  - apply create_booking_by_time_range_admits.
  - left. apply cancel_booking_quiet.
  - apply extend_booking_admits.
  - left. apply auto_complete_quiet.
  - left. apply close_zone_quiet.
Qed.

Lemma step_persists st st' bid b :
  step MAX_BOOKING_HOURS fromisoformat st st' ->
  bookings st !! bid = Some b ->
  exists b', bookings st' !! bid = Some b' /\ retired b b'.
Proof.
  intros Hstep Hb. destruct (step_lifecycle st st' Hstep) as [Hq|Ha].
  - specialize (Hq bid). rewrite Hb in Hq.
    destruct (bookings st' !! bid) as [b'|]; [eauto|destruct Hq].
  - destruct Ha as (nid & nb & s & e & Hfresh & Hbs & _).
    exists b. split; [|now left]. rewrite Hbs.
    rewrite lookup_insert_ne by congruence. assumption.
Qed.

Lemma step_no_self_overlap st st' :
  no_self_overlap st -> step MAX_BOOKING_HOURS fromisoformat st st' ->
  no_self_overlap st'.
Proof.
  intros Hinv Hstep. destruct (step_lifecycle st st' Hstep) as [Hq|Ha].
  - intros k1 b1' k2 b2' Hne H1 H2 Hu A1 A2 Hov.
    pose proof (Hq k1) as Q1. pose proof (Hq k2) as Q2. rewrite H1 in Q1. rewrite H2 in Q2.
    destruct (bookings st !! k1) as [b1|] eqn:E1; [|destruct Q1].
    destruct (bookings st !! k2) as [b2|] eqn:E2; [|destruct Q2].
    destruct (retired_inactive _ _ Q1) as [->|]; [|contradiction].
    destruct (retired_inactive _ _ Q2) as [->|]; [|contradiction].
    now apply (Hinv k1 b1 k2 b2).
  - destruct Ha as (nid & nb & s & e & Hfresh & Hbs & Hact & Hs & He & Hfree).
    intros k1 b1 k2 b2 Hne H1 H2 Hu A1 A2 Hov. rewrite Hbs in H1, H2.
    destruct (decide (k1 = nid)) as [->|N1], (decide (k2 = nid)) as [->|N2];
      [congruence| | |].
    + rewrite lookup_insert_eq in H1. rewrite lookup_insert_ne in H2 by congruence.
      injection H1 as <-. apply (Hfree k2 b2 H2); [congruence|assumption|].
      destruct Hov as (s1 & e1 & s2 & e2 & ? & ? & ? & ? & ? & ?).
      exists s2, e2, s1, e1. tauto.
    + rewrite lookup_insert_eq in H2. rewrite lookup_insert_ne in H1 by congruence.
      injection H2 as <-. now apply (Hfree k1 b1 H1).
    + rewrite lookup_insert_ne in H1, H2 by congruence.
      now apply (Hinv k1 b1 k2 b2).
Qed.

(** X1: no user ever holds two active bookings whose intervals meet: every
    booking the engine adds passed the user-conflict test, and nothing else
    makes a booking active. *)
Theorem no_self_overlap_reachable (st0 st : Store) :
  no_self_overlap st0 ->
  reachable MAX_BOOKING_HOURS fromisoformat st0 st ->
  forall bid1 b1 bid2 b2 s1 e1 s2 e2,
    bid1 <> bid2 ->
    bookings st !! bid1 = Some b1 -> bookings st !! bid2 = Some b2 ->
    user_id b1 = user_id b2 -> status b1 = Active -> status b2 = Active ->
    start_time b1 = Some s1 -> end_time b1 = Some e1 ->
    start_time b2 = Some s2 -> end_time b2 = Some e2 ->
    e2 <= s1 \/ e1 <= s2.
Proof.
  intros Hinv Hreach.
  assert (H : no_self_overlap st).
  { induction Hreach as [|st st' _ IH Hstep]; [assumption|].
    now apply (step_no_self_overlap st st'). }
  intros bid1 b1 bid2 b2 s1 e1 s2 e2 Hne H1 H2 Hu A1 A2 Hs1 He1 Hs2 He2.
  destruct (Z_le_gt_dec e2 s1) as [|G1]; [now left|].
  destruct (Z_le_gt_dec e1 s2) as [|G2]; [now right|].
  exfalso. apply (H bid1 b1 bid2 b2 Hne H1 H2 Hu A1 A2).
  exists s1, e1, s2, e2. repeat split; try assumption; lia.
Qed.

(** X2: a booking row is never deleted and never rewritten apart from its
    status and cancellation reason; a row that is cancelled or completed
    stays exactly as it is, and a row that is still active is exactly as it
    was. *)
Theorem booking_rows_settle (st0 st : Store) (bid : Z) (b : Booking) :
  reachable MAX_BOOKING_HOURS fromisoformat st0 st ->
  bookings st0 !! bid = Some b ->
  exists b',
    bookings st !! bid = Some b' /\
    user_id b' = user_id b /\ slot_id b' = slot_id b /\
    start_time b' = start_time b /\ end_time b' = end_time b /\
    booking_zone_name b' = booking_zone_name b /\
    booking_zone_address b' = booking_zone_address b /\
    (status b <> Active -> b' = b) /\
    (status b' = Active -> b' = b).
Proof.
  intros Hreach Hb.
  assert (H : exists b', bookings st !! bid = Some b' /\ retired b b').
  { induction Hreach as [|st st' _ IH Hstep]; [exists b; split; [assumption|now left]|].
    destruct IH as (b1 & Hb1 & Hr1).
    destruct (step_persists st st' bid b1 Hstep Hb1) as (b2 & Hb2 & Hr2).
    exists b2. split; [assumption|]. now apply (retired_trans b b1 b2). }
  destruct H as (b' & Hb' & Hr). exists b'. split; [assumption|].
  destruct (retired_fields b b' Hr) as (? & ? & ? & ? & ? & ?).
  repeat split; try assumption.
  - intros Hn. destruct Hr as [->|(Ha & _)]; [reflexivity|contradiction].
  - intros Ha. destruct (retired_inactive b b' Hr); [assumption|contradiction].
Qed.

End Lifecycle.

(** ** Calls that fail write nothing *)

Lemma try_places_failure st user zone s e c pls x st' :
  try_places st user zone s e c pls = (Raise x, st') -> st' = st.
Proof.
  induction pls as [|[pid p] pls IH]; cbn [try_places]; [now intros [= _ <-]|].
  destruct (scalar_one_or_none _) as [[[sid es]|]|]; [| |now intros [= _ <-]].
  - destruct (is_available es); [|exact IH].
    destruct c; [now intros [= _ <-]|discriminate].
  - destruct (existsb _ _); [exact IH|].
    destruct c; [now intros [= _ <-]|discriminate].
Qed.

(** X3: a creation that does not return a booking leaves the whole store,
    events included, as it was: fixed-slot creation giving the empty result
    or raising, and creation by time range raising any error. *)
Theorem failed_creation_writes_nothing
        (MAX : Z) (parse : string -> option Z) (st : Store) (user : Z) (c : bool) :
  (forall sid st', create_booking st user sid c = (Return None, st') -> st' = st) /\
  (forall sid e st', create_booking st user sid c = (Raise e, st') -> st' = st) /\
  (forall bi e st',
      create_booking_by_time_range MAX parse st user bi c = (Raise e, st') ->
      st' = st).
Proof.
  split; [|split].
  - intros sid st'. unfold create_booking.
    destruct (slots st !! sid) as [slot|]; [|now intros [= <-]].
    destruct (negb (is_available slot)); [now intros [= <-]|].
    destruct (scalar_one_or_none _) as [[row|]|]; [now intros [= <-]| |discriminate].
    destruct (check_user_booking_conflicts _ _ _ _ _); [now intros [= <-]|].
    destruct (match load_slot_zone st slot with
              | Some (zid, _) => _
              | None => false
              end); [now intros [= <-]|].
    destruct c; [now intros [= <-]|discriminate].
  - intros sid e st'. unfold create_booking.
    destruct (slots st !! sid) as [slot|]; [|discriminate].
    destruct (negb (is_available slot)); [discriminate|].
    destruct (scalar_one_or_none _) as [[row|]|]; [discriminate| |now intros [= _ <-]].
    destruct (check_user_booking_conflicts _ _ _ _ _); [discriminate|].
    destruct (match load_slot_zone st slot with
              | Some (zid, _) => _
              | None => false
              end); [discriminate|].
    destruct c; discriminate.
  - intros bi e st'. unfold create_booking_by_time_range.
    destruct (parse (date bi)) as [d|]; [|now intros [= _ <-]].
    destruct (time_replace (start_hour bi) (start_minute bi)) as [s0|];
      [|now intros [= _ <-]].
    destruct (time_replace (end_hour bi) (end_minute bi)) as [e0|];
      [|now intros [= _ <-]].
    cbv zeta.
    destruct (_ <=? 0); [now intros [= _ <-]|].
    destruct (_ <? _); [now intros [= _ <-]|].
    destruct (zones st !! zone_id bi) as [zone|]; [|now intros [= _ <-]].
    destruct (negb (zone_is_active zone)); [now intros [= _ <-]|].
    destruct (check_user_booking_conflicts _ _ _ _ _); [now intros [= _ <-]|].
    destruct (check_zone_capacity _ _ _ _); [|now intros [= _ <-]].
    cbn [negb]. rewrite try_places_nonempty. apply try_places_failure.
Qed.

Lemma scalar_one_or_none_Raise {A} (rows : list A) (x : Exn) :
  scalar_one_or_none rows = Raise x -> x = MultipleResultsFound.
Proof. destruct rows as [|y [|z rows]]; simpl; congruence. Qed.

(** X4: an extension that raises leaves the whole store as it was, unless
    the error is [booking_expired]; then the store is the one single-booking
    auto-completion leaves, which differs at most in that booking's status.
    What it raises is an extension error, [MultipleResultsFound] from the
    slot query, or [OverflowError] from the arithmetic on the end time. *)
Theorem failed_extension_writes_nothing
        (MAX : Z) (st st' : Store) (now now' user bid h m : Z) (c : bool) (e : Exn) :
  extend_booking MAX st now now' user bid h m c = (Raise e, st') ->
  (e <> BookingExtensionError booking_expired -> st' = st) /\
  (e = BookingExtensionError booking_expired ->
   st' = auto_complete_expired_bookings st now' (Some bid) /\
   forall k, k <> bid -> bookings st' !! k = bookings st !! k) /\
  ((exists code, e = BookingExtensionError code) \/ e = MultipleResultsFound \/
   e = OverflowError).
Proof.
  unfold extend_booking. intros H.
  assert (Hstay : forall code,
            code <> booking_expired ->
            (@Raise (Z * Booking) (BookingExtensionError code), st) = (Raise e, st') ->
            (e <> BookingExtensionError booking_expired -> st' = st) /\
            (e = BookingExtensionError booking_expired ->
             st' = auto_complete_expired_bookings st now' (Some bid) /\
             forall k, k <> bid -> bookings st' !! k = bookings st !! k) /\
            ((exists code, e = BookingExtensionError code) \/
             e = MultipleResultsFound \/ e = OverflowError)).
  { intros code Hcode [= <- <-]. split; [reflexivity|].
    split; [intros [= ->]; congruence|]. left. eauto. }
  destruct (bookings st !! bid) as [orig|]; [|now apply (Hstay booking_not_found)].
  destruct (col_leb (end_time orig) now).
  { injection H as He Hst. subst e st'. split; [congruence|]. split; [|left; eauto].
    intros _. split; [reflexivity|]. intros k Hk.
    change (bookings (auto_complete_expired_bookings st now' (Some bid)) !! k
            = bookings st !! k).
    rewrite auto_complete_one_lookup. destruct (decide (k = bid)); [congruence|].
    now destruct (bookings st !! k). }
  destruct (negb (user_id orig =? user)); [now apply (Hstay permission_denied)|].
  destruct (negb (is_active_status (status orig)));
    [now apply (Hstay invalid_status)|].
  destruct (start_time orig) as [b_start|]; [|now apply (Hstay invalid_data)].
  destruct (end_time orig) as [b_end|]; [|now apply (Hstay invalid_data)].
  destruct (if truthy_id (slot_id orig) then booking_slot st orig else None)
    as [slot|]; [|now apply (Hstay slot_not_found)].
  destruct (new_end_time b_end h m) as [new_end|x] eqn:Hnew.
  2:{ apply new_end_time_Raise in Hnew. subst x. injection H as <- <-.
      split; [reflexivity|]. split; [discriminate|now right; right]. }
  cbv zeta in H.
  destruct (_ <? _); [now apply (Hstay max_duration_exceeded)|].
  destruct (check_user_booking_conflicts _ _ _ _ _);
    [now apply (Hstay user_time_conflict)|].
  destruct (load_place_zone st slot) as [[zid zone]|];
    [|now apply (Hstay zone_not_found)].
  destruct (negb (check_zone_capacity _ _ _ _));
    [now apply (Hstay zone_capacity_exceeded)|].
  destruct (scalar_one_or_none _) as [[[sid es]|]|x] eqn:Hex.
  - destruct (is_available es); [|now apply (Hstay slot_unavailable)].
    destruct c; [now apply (Hstay integrity_error)|discriminate].
  - destruct (existsb _ _); [now apply (Hstay slot_partially_occupied)|].
    destruct c; [now apply (Hstay integrity_error)|discriminate].
  - apply scalar_one_or_none_Raise in Hex. subst x. injection H as <- <-.
    split; [reflexivity|]. split; [discriminate|right; now left].
Qed.

(** ** The sweep *)

Lemma store_eta st :
  mkStore (zones st) (places st) (slots st) (bookings st) (events st) = st.
Proof. now destruct st. Qed.

Lemma expired_earlier now now2 b :
  now2 <= now -> expired now b = false -> expired now2 b = false.
Proof.
  unfold expired, col_leb. intros Hle.
  destruct (is_active_status (status b)); [|reflexivity]. simpl.
  destruct (end_time b) as [e|]; [|reflexivity].
  rewrite !Z.leb_gt. lia.
Qed.

(** X5: after the sweep no active booking has an end time at or before the
    sweep's instant, and sweeping again at that instant or an earlier one
    changes nothing. *)
Theorem auto_complete_sweep_settles (st : Store) (now : Z) :
  (forall bid b e,
      bookings (auto_complete_expired_bookings st now None) !! bid = Some b ->
      status b = Active -> end_time b = Some e -> now < e) /\
  (forall now2,
      now2 <= now ->
      auto_complete_expired_bookings
        (auto_complete_expired_bookings st now None) now2 None
      = auto_complete_expired_bookings st now None).
Proof.
  assert (Hclean : forall bid b,
            bookings (auto_complete_expired_bookings st now None) !! bid = Some b ->
            expired now b = false).
  { intros bid b. rewrite auto_complete_all_lookup.
    destruct (bookings st !! bid) as [b0|]; [|discriminate]. simpl.
    destruct (expired now b0) eqn:He; intros [= <-]; [reflexivity|assumption]. }
  split.
  - intros bid b e Hb Ha He. pose proof (Hclean bid b Hb) as Hx.
    unfold expired, col_leb in Hx. rewrite Ha, He in Hx. simpl in Hx.
    now apply Z.leb_gt in Hx.
  - intros now2 Hle.
    set (st1 := auto_complete_expired_bookings st now None) in *.
    rewrite <- (store_eta (auto_complete_expired_bookings st1 now2 None)).
    rewrite <- (store_eta st1) at 6.
    destruct (auto_complete_all_frame st1 now2) as (-> & -> & -> & ->).
    f_equal. apply map_eq. intros bid. rewrite auto_complete_all_lookup.
    destruct (bookings st1 !! bid) as [b|] eqn:Hb; [|reflexivity]. simpl.
    now rewrite (expired_earlier now now2 b Hle (Hclean bid b Hb)).
Qed.

(** ** Cancelling an active booking *)

(** X6: cancelling an active booking as its owner or as administrator,
    when the commit goes through, gives that row status [Cancelled], gives
    its slot [is_available = true] (when the slot reference is a non-zero
    key of the store), emits one event and touches nothing else;
    cancelling once more returns the cancelled row and changes nothing.
    When the commit fails the call gives the empty result and changes
    nothing. *)
Theorem cancel_booking_active (st : Store) (user bid : Z) (is_admin c : bool)
        (b : Booking) :
  bookings st !! bid = Some b ->
  status b = Active ->
  is_admin = true \/ user_id b = user ->
  (c = true -> cancel_booking st user bid is_admin c = (Return None, st)) /\
  (c = false ->
   exists b' st',
     cancel_booking st user bid is_admin c = (Return (Some (bid, b')), st') /\
     status b' = Cancelled /\
     cancellation_reason b' = cancellation_reason b /\ same_columns b b' /\
     bookings st' !! bid = Some b' /\
     (forall k, k <> bid -> bookings st' !! k = bookings st !! k) /\
     zones st' = zones st /\ places st' = places st /\
     events st' = events st ++ [BookingCancelled (user_id b) (booking_zone_name b)
                                  (start_time b) (end_time b)] /\
     (forall sid s, slot_id b = Some sid -> sid <> 0 -> slots st !! sid = Some s ->
        exists s', slots st' !! sid = Some s' /\
                   is_available s' = true /\ same_slot_columns s s') /\
     (forall sid, slot_id b = Some sid -> slots st !! sid = None ->
        slots st' !! sid = None) /\
     (forall sid, slot_id b <> Some sid -> slots st' !! sid = slots st !! sid) /\
     (slot_id b = Some 0 -> slots st' = slots st) /\
     (forall c', cancel_booking st' user bid is_admin c'
                 = (Return (Some (bid, b')), st'))).
Proof.
  intros Hb Hact Hperm.
  assert (Hp : negb is_admin && negb (user_id b =? user) = false).
  { destruct Hperm as [->| <-]; [reflexivity|].
    rewrite Z.eqb_refl. now destruct is_admin. }
  unfold cancel_booking at 1 2. rewrite Hb, Hp, Hact. cbn [is_active_status negb].
  split; [now intros ->|]. intros ->.
  eexists _, _. split; [reflexivity|].
  cbn [bookings zones places events slots emit set_bookings].
  split; [reflexivity|]. split; [reflexivity|]. split; [repeat split|].
  assert (Hbk : forall st0 : Store,
            bookings (if truthy_id (slot_id b)
                      then match sid ← slot_id b; slot ← slots st !! sid;
                                 Some (sid, slot) with
                           | Some (sid, slot) =>
                               set_slots (<[sid := set_available true slot]> (slots st)) st
                           | None => st
                           end
                      else st) = bookings st).
  { intros _. destruct (truthy_id (slot_id b)); [|reflexivity].
    destruct (slot_id b) as [sid|]; [|reflexivity]. simpl.
    now destruct (slots st !! sid). }
  split.
  { rewrite (Hbk st). apply lookup_insert_eq. }
  split.
  { intros k Hk. rewrite (Hbk st). now apply lookup_insert_ne. }
  split.
  { destruct (truthy_id (slot_id b)); [|reflexivity].
    destruct (slot_id b) as [sid|]; [|reflexivity]. simpl.
    now destruct (slots st !! sid). }
  split.
  { destruct (truthy_id (slot_id b)); [|reflexivity].
    destruct (slot_id b) as [sid|]; [|reflexivity]. simpl.
    now destruct (slots st !! sid). }
  split.
  { destruct (truthy_id (slot_id b)); [|reflexivity].
    destruct (slot_id b) as [sid|]; [|reflexivity]. simpl.
    now destruct (slots st !! sid). }
  split.
  { intros sid s Hsid Hnz Hsl. rewrite Hsid. simpl.
    replace (sid =? 0) with false by (symmetry; now apply Z.eqb_neq). simpl.
    rewrite Hsl. simpl. rewrite lookup_insert_eq.
    eexists. split; [reflexivity|]. repeat split. }
  split.
  { intros sid Hsid Hsl. rewrite Hsid. simpl.
    destruct (negb (sid =? 0)); [|exact Hsl]. rewrite Hsl. simpl. exact Hsl. }
  split.
  { intros sid Hsid.
    destruct (truthy_id (slot_id b)); [|reflexivity].
    destruct (slot_id b) as [sid0|]; [|reflexivity]. simpl.
    destruct (slots st !! sid0) as [slot|]; simpl; [|reflexivity].
    rewrite lookup_insert_ne by congruence. reflexivity. }
  split.
  { intros ->. reflexivity. }
  intros c'. unfold cancel_booking. cbn [bookings emit set_bookings].
  assert (Hlook : forall m : gmap Z Booking,
            <[bid := set_status Cancelled b]> m !! bid
            = Some (set_status Cancelled b)) by (intros; apply lookup_insert_eq).
  destruct (truthy_id (slot_id b)).
  - destruct (slot_id b) as [sid|]; simpl.
    + destruct (slots st !! sid) as [slot|]; simpl; rewrite Hlook; simpl; now rewrite Hp.
    + rewrite Hlook. simpl. now rewrite Hp.
  - simpl. rewrite Hlook. simpl. now rewrite Hp.
Qed.

(** ** Slots and their bookings *)

Section SlotDiscipline.
Context (MAX_BOOKING_HOURS : Z) (fromisoformat : string -> option Z).

(** X7: starting from a consistent store, in every store the engine
    reaches no two slots share place and interval, a slot carries at most
    one active booking, the slot of an active booking is unavailable, and
    every booking's slot is in the store. *)
Theorem slot_discipline_reachable (st0 st : Store) :
  consistent st0 ->
  reachable MAX_BOOKING_HOURS fromisoformat st0 st ->
  (forall sid1 s1 sid2 s2 pid,
      slots st !! sid1 = Some s1 -> slots st !! sid2 = Some s2 ->
      slot_place_id s1 = Some pid -> slot_place_id s2 = Some pid ->
      slot_start_time s1 = slot_start_time s2 ->
      slot_end_time s1 = slot_end_time s2 -> sid1 = sid2) /\
  (forall bid1 b1 bid2 b2 sid,
      bookings st !! bid1 = Some b1 -> bookings st !! bid2 = Some b2 ->
      status b1 = Active -> status b2 = Active ->
      slot_id b1 = Some sid -> slot_id b2 = Some sid -> bid1 = bid2) /\
  (forall bid b sid,
      bookings st !! bid = Some b -> slot_id b = Some sid ->
      exists slot, slots st !! sid = Some slot /\
                   (status b = Active -> is_available slot = false)).
Proof.
  intros Hc Hreach.
  destruct (consistent_reachable MAX_BOOKING_HOURS fromisoformat st0 st Hc Hreach)
    as ((Hfk & Hu & Hav & Hone) & _ & _).
  split; [exact Hu|]. split; [exact Hone|].
  intros bid b sid Hb Hsid. destruct (Hfk bid b sid Hb Hsid) as [slot Hsl].
  exists slot. split; [assumption|]. intros Ha. now apply (Hav bid b sid slot).
Qed.

End SlotDiscipline.

(** ** The place a time-range booking lands on *)

Lemma try_places_first_fit st user zone s e pls :
  slots_unique st ->
  match List.find (place_reservable st s e) pls with
  | None =>
      forall c, try_places st user zone s e c pls
                = (Raise (BookingError NO_AVAILABLE_PLACES), st)
  | Some (pid, _) =>
      try_places st user zone s e true pls
      = (Raise (BookingError NO_AVAILABLE_PLACES), st) /\
      exists bid b sid slot st',
        try_places st user zone s e false pls = (Return (bid, b), st') /\
        bookings st !! bid = None /\
        bookings st' = <[bid := b]> (bookings st) /\
        b = mkBooking user (Some sid) Active (Some (zone_name zone))
                      (Some (zone_address zone)) (Some s) (Some e) None /\
        slots st' = <[sid := slot]> (slots st) /\
        slot = mkSlot (Some pid) s e false /\
        (slots st !! sid = None \/ slots st !! sid = Some (mkSlot (Some pid) s e true))
  end.
Proof.
  intros Hu. induction pls as [|[pid p] pls IH]; [intros c; reflexivity|].
  cbn [List.find try_places]. unfold place_reservable at 1. cbn [fst].
  destruct (exact_slot_unique st (Some pid) s e Hu) as [r Hr]. rewrite Hr.
  destruct r as [[sid es]|].
  - apply scalar_one_or_none_Some in Hr. rewrite Hr.
    assert (Hin : In (sid, es) (exact_slots st (Some pid) s e))
      by (rewrite Hr; now left).
    apply exact_slots_In in Hin as (Hsl & (pid' & [= <-] & Hpl) & Hst & Hen).
    destruct (is_available es) eqn:Hav.
    + split; [reflexivity|].
      eexists (next_id (bookings st)), _, sid, _, _.
      split; [reflexivity|]. simpl.
      split; [apply next_id_fresh|]. do 3 (split; [reflexivity|]).
      split; [unfold set_available; congruence|].
      right. rewrite Hsl. f_equal. destruct es; simpl in *. congruence.
    + destruct (List.find (place_reservable st s e) pls) as [[pid' p']|]; exact IH.
  - apply scalar_one_or_none_None in Hr. rewrite Hr.
    destruct (existsb _ _); cbn [negb].
    + destruct (List.find (place_reservable st s e) pls) as [[pid' p']|]; exact IH.
    + split; [reflexivity|].
      eexists (next_id (bookings st)), _, (next_id (slots st)), _, _.
      split; [reflexivity|]. simpl.
      split; [apply next_id_fresh|]. do 4 (split; [reflexivity|]).
      left. apply next_id_fresh.
Qed.

Lemma overlapping_slots_In st pid start_t end_t sid s :
  In (sid, s) (overlapping_slots st (Some pid) start_t end_t) <->
  slots st !! sid = Some s /\ slot_place_id s = Some pid /\
  slot_start_time s < end_t /\ start_t < slot_end_time s.
Proof.
  unfold overlapping_slots. rewrite filter_In, In_map_to_list, !andb_true_iff.
  rewrite !Z.ltb_lt. unfold col_eqb.
  destruct (slot_place_id s) as [p|]; rewrite ?Z.eqb_eq; split.
  - intros [? [[-> ?] ?]]. tauto.
  - intros [? [[= <-] [? ?]]]. tauto.
  - intros [_ [[[=] _] _]].
  - intros [_ [[=] _]].
Qed.

Lemma place_reservable_takes st start_t end_t pid p :
  slots_unique st ->
  place_reservable st start_t end_t (pid, p) = true <->
  takes_interval st start_t end_t pid.
Proof.
  intros Hu. unfold place_reservable, takes_interval. cbn [fst].
  destruct (exact_slot_unique st (Some pid) start_t end_t Hu) as [r Hr].
  destruct r as [[sid es]|].
  - apply scalar_one_or_none_Some in Hr. rewrite Hr.
    assert (Hin : In (sid, es) (exact_slots st (Some pid) start_t end_t))
      by (rewrite Hr; now left).
    apply exact_slots_In in Hin as (Hsl & (pid' & [= <-] & Hpl) & Hst & Hen).
    split.
    + intros Hav. left. exists sid, es. tauto.
    + intros [(sid' & s' & Hsl' & Hpl' & Hst' & Hen' & Hav')|[Hno _]].
      * assert (sid' = sid) by (apply (Hu sid' s' sid es pid); congruence).
        subst sid'. congruence.
      * exfalso. exact (Hno sid es Hsl Hpl Hst Hen).
  - apply scalar_one_or_none_None in Hr. rewrite Hr.
    assert (Hnone : forall sid slot,
               slots st !! sid = Some slot -> slot_place_id slot = Some pid ->
               slot_start_time slot = start_t -> slot_end_time slot <> end_t).
    { intros sid slot Hsl Hpl Hst Hen.
      assert (Hin : In (sid, slot) (exact_slots st (Some pid) start_t end_t))
        by (apply exact_slots_In; eauto 10).
      now rewrite Hr in Hin. }
    rewrite negb_true_iff. split.
    + intros Hex. right. split; [exact Hnone|].
      intros sid slot Hsl Hpl Hlt Hgt.
      destruct (is_available slot) eqn:Hav; [reflexivity|]. exfalso.
      assert (Hin : In (sid, slot) (overlapping_slots st (Some pid) start_t end_t))
        by (apply overlapping_slots_In; tauto).
      assert (Htrue : existsb (fun '(_, s) => negb (is_available s))
                        (overlapping_slots st (Some pid) start_t end_t) = true).
      { apply existsb_exists. exists (sid, slot). split; [assumption|].
        cbn. now rewrite Hav. }
      congruence.
    + intros [(sid & slot & Hsl & Hpl & Hst & Hen & _)|[_ Hall]].
      * exfalso. exact (Hnone sid slot Hsl Hpl Hst Hen).
      * destruct (existsb _ _) eqn:Hex; [|reflexivity]. exfalso.
        apply existsb_exists in Hex as ([sid slot] & Hin & Hav).
        apply overlapping_slots_In in Hin as (Hsl & Hpl & Hlt & Hgt).
        rewrite (Hall sid slot Hsl Hpl Hlt Hgt) in Hav. discriminate.
Qed.

Lemma active_places_active st zid pid p :
  In (pid, p) (active_places st zid) <-> active_place_of st zid (pid, p).
Proof.
  unfold active_places, active_place_of. cbn [fst snd].
  rewrite filter_In, In_scan, andb_true_iff. unfold col_eqb.
  destruct (place_zone_id p) as [z|]; rewrite ?Z.eqb_eq; split.
  - intros [? [-> ?]]. tauto.
  - intros [? [[= ->] ?]]. tauto.
  - intros [_ [[=] _]].
  - intros [_ [[=] _]].
Qed.

Lemma active_places_ascending st zid : ascending (active_places st zid).
Proof. unfold active_places. apply filter_ascending, scan_ascending. Qed.

(** X9: when every validation of a time-range request passes, the booking
    lands on the place with the smallest key among the active places of
    the zone that can take the interval (an un-ordered query returns the
    rows in the order of their keys): on that place's available slot for
    exactly the interval, or else on a new slot; the slot is left with
    [is_available = false] and no other slot is touched.  With no such
    place, or when the commit fails, the call raises
    [NO_AVAILABLE_PLACES] and changes nothing. *)
Theorem create_by_time_range_first_fit
        (MAX : Z) (parse : string -> option Z)
        (st : Store) (user : Z) (bi : BookingCreateTimeRange) (s e : Z) :
  valid_clock_fields bi ->
  slots_unique st ->
  first_failing_check MAX parse st user bi = None ->
  requested_interval parse bi = Some (s, e) ->
  ((forall pid p, active_place_of st (zone_id bi) (pid, p) ->
                  ~ takes_interval st s e pid) ->
   forall c, create_booking_by_time_range MAX parse st user bi c
             = (Raise (BookingError NO_AVAILABLE_PLACES), st)) /\
  (forall pid p,
      active_place_of st (zone_id bi) (pid, p) ->
      takes_interval st s e pid ->
      (forall pid' p', active_place_of st (zone_id bi) (pid', p') ->
                       takes_interval st s e pid' -> pid <= pid') ->
      create_booking_by_time_range MAX parse st user bi true
      = (Raise (BookingError NO_AVAILABLE_PLACES), st) /\
      exists bid b sid slot st',
        create_booking_by_time_range MAX parse st user bi false
        = (Return (bid, b), st') /\
        bookings st !! bid = None /\
        bookings st' !! bid = Some b /\
        (forall k, k <> bid -> bookings st' !! k = bookings st !! k) /\
        user_id b = user /\ slot_id b = Some sid /\ status b = Active /\
        start_time b = Some s /\ end_time b = Some e /\
        slots st' !! sid = Some slot /\
        (forall k, k <> sid -> slots st' !! k = slots st !! k) /\
        slot_place_id slot = Some pid /\
        slot_start_time slot = s /\ slot_end_time slot = e /\
        is_available slot = false /\
        (slots st !! sid = None \/
         exists old, slots st !! sid = Some old /\ is_available old = true /\
                     same_slot_columns old slot)).
Proof.
  intros (Hsh & Hsm & Heh & Hem) Hu Hpass Hreq.
  unfold first_failing_check, validation_order in Hpass.
  unfold requested_interval in Hreq.
  assert (Hchk : forall chk, check_passes MAX parse st user bi chk = true).
  { intros chk. cbn [List.find] in Hpass.
    repeat match type of Hpass with
           | (if negb ?x then _ else _) = None =>
               destruct x eqn:?; cbn [negb] in Hpass; [|discriminate]
           end.
    destruct chk; assumption. }
  pose proof (Hchk ParseableDate) as H1. pose proof (Hchk EndAfterStart) as H2.
  pose proof (Hchk WithinTimeLimit) as H3. pose proof (Hchk ZoneActive) as H4.
  pose proof (Hchk NoUserConflict) as H5. pose proof (Hchk CapacityAvailable) as H6.
  unfold check_passes, requested_interval in H1, H2, H3, H4, H5, H6.
  assert (Hcall : forall c,
            create_booking_by_time_range MAX parse st user bi c
            = match zones st !! zone_id bi with
              | Some zone => try_places st user zone s e c (active_places st (zone_id bi))
              | None => (Raise (BookingError ZONE_INACTIVE), st)
              end).
  { intros c. unfold create_booking_by_time_range.
    destruct (parse (date bi)) as [d|]; [|discriminate]. simpl in *.
    injection Hreq as <- <-.
    rewrite (time_replace_valid _ _ Hsh Hsm), (time_replace_valid _ _ Heh Hem).
    cbv zeta. apply Z.ltb_lt in H2. apply Z.leb_le in H3.
    match goal with |- context [?x - ?y <=? 0] =>
      replace (x - y <=? 0) with false by (symmetry; apply Z.leb_gt; lia) end.
    match goal with |- context [MAX * 3600 <? ?x] =>
      replace (MAX * 3600 <? x) with false by (symmetry; apply Z.ltb_ge; lia) end.
    destruct (zones st !! zone_id bi) as [zone|]; [|reflexivity].
    rewrite H4. apply negb_true_iff in H5. rewrite H5, H6. cbn [negb].
    apply try_places_nonempty. }
  destruct (zones st !! zone_id bi) as [zone|] eqn:Hz; [|discriminate].
  pose proof (try_places_first_fit st user zone s e
                (active_places st (zone_id bi)) Hu) as Hfit.
  destruct (List.find (place_reservable st s e) (active_places st (zone_id bi)))
    as [[pid0 p0]|] eqn:Hfind.
  - destruct (find_ascending _ _ _ (active_places_ascending st (zone_id bi)) Hfind)
      as (Hin0 & Hres0 & Hmin0).
    apply active_places_active in Hin0.
    apply (place_reservable_takes st s e pid0 p0 Hu) in Hres0.
    split.
    { intros Hnone. exfalso. exact (Hnone pid0 p0 Hin0 Hres0). }
    intros pid p Hact Htakes Hleast.
    assert (pid = pid0).
    { pose proof (Hleast pid0 p0 Hin0 Hres0).
      apply active_places_active in Hact.
      apply (place_reservable_takes st s e pid p Hu) in Htakes.
      pose proof (Hmin0 (pid, p) Hact Htakes) as Hle. cbn [fst] in Hle. lia. }
    subst pid0.
    destruct Hfit as (Hc & bid & b & sid & slot & st' & Htry & Hfresh & Hbs & Hb
                      & Hss & Hslot & Hold).
    split; [now rewrite Hcall|].
    exists bid, b, sid, slot, st'. rewrite Hcall.
    split; [assumption|]. split; [assumption|].
    split; [rewrite Hbs; apply lookup_insert_eq|].
    split; [intros k Hk; rewrite Hbs; now apply lookup_insert_ne|].
    subst b. cbn [user_id slot_id status start_time end_time].
    do 5 (split; [reflexivity|]).
    split; [rewrite Hss; apply lookup_insert_eq|].
    split; [intros k Hk; rewrite Hss; now apply lookup_insert_ne|].
    subst slot. cbn [slot_place_id slot_start_time slot_end_time is_available].
    do 4 (split; [reflexivity|]).
    destruct Hold as [Hold|Hold]; [now left|right].
    eexists. split; [exact Hold|]. repeat split.
  - split.
    { intros _ c. rewrite Hcall. apply Hfit. }
    intros pid p Hact Htakes _. exfalso.
    apply active_places_active in Hact.
    apply (place_reservable_takes st s e pid p Hu) in Htakes.
    pose proof (find_none _ _ Hfind (pid, p) Hact). congruence.
Qed.

(** ** The checks of an extension *)

(** X8: the checks of an extension run in the order existence, expiry,
    ownership, status, interval, slot, representable new end, total
    duration, the user's other bookings, zone, capacity, exact slot,
    overlapping slots, commit; the first one that fails decides what is
    raised: [OverflowError] when the new end time or the duration leaves
    the range of the clock, the check's own error code otherwise; when
    none fails the call returns the new booking. *)
Theorem extend_booking_check_order
        (MAX : Z) (st : Store) (now now' user bid h m : Z) (c : bool) :
  slots_unique st ->
  (forall chk,
      first_failing_extension_check MAX st now user bid h m c = Some chk ->
      fst (extend_booking MAX st now now' user bid h m c)
      = Raise (extension_error chk)) /\
  (first_failing_extension_check MAX st now user bid h m c = None ->
   exists nid nb,
     fst (extend_booking MAX st now now' user bid h m c) = Return (nid, nb)).
Proof.
  intros Hu.
  unfold first_failing_extension_check, extension_order, extend_booking.
  unfold extension_check_passes.
  destruct (bookings st !! bid) as [b|]; cbn [List.find negb];
    [|split; [now intros chk [= <-]|discriminate]].
  destruct (col_leb (end_time b) now); cbn [negb];
    [split; [now intros chk [= <-]|discriminate]|].
  destruct (user_id b =? user); cbn [negb];
    [|split; [now intros chk [= <-]|discriminate]].
  destruct (is_active_status (status b)); cbn [negb];
    [|split; [now intros chk [= <-]|discriminate]].
  destruct (start_time b) as [b_start|];
    [|destruct (end_time b); cbn [negb]; split;
      first [now intros chk [= <-]|discriminate]].
  destruct (end_time b) as [b_end|]; cbn [negb];
    [|split; [now intros chk [= <-]|discriminate]].
  unfold extension_slot.
  destruct (if truthy_id (slot_id b) then booking_slot st b else None)
    as [slot|]; cbn [negb];
    [|split; [now intros chk [= <-]|discriminate]].
  rewrite new_end_time_spec.
  destruct ((-999999999 <=? (h * 3600 + m * 60) / 86400)
            && ((h * 3600 + m * 60) / 86400 <=? 999999999)
            && (-62135596800 <=? b_end + (h * 3600 + m * 60))
            && (b_end + (h * 3600 + m * 60) <=? 253402300799)); cbn [negb];
    [|split; [now intros chk [= <-]|discriminate]].
  cbv zeta.
  rewrite (Z.leb_antisym (MAX * 3600) (b_end + (h * 3600 + m * 60) - b_start)).
  destruct (MAX * 3600 <? b_end + (h * 3600 + m * 60) - b_start); cbn [negb];
    [split; [now intros chk [= <-]|discriminate]|].
  destruct (check_user_booking_conflicts _ _ _ _ _); cbn [negb];
    [split; [now intros chk [= <-]|discriminate]|].
  destruct (load_place_zone st slot) as [[zid zone]|]; cbn [negb];
    [|split; [now intros chk [= <-]|discriminate]].
  destruct (check_zone_capacity _ _ _ _); cbn [negb];
    [|split; [now intros chk [= <-]|discriminate]].
  destruct (exact_slot_unique st (slot_place_id slot) b_end
                              (b_end + (h * 3600 + m * 60)) Hu) as [r Hr].
  rewrite Hr. destruct r as [[sid es]|].
  - apply scalar_one_or_none_Some in Hr. rewrite Hr.
    destruct (is_available es); cbn [negb];
      [|split; [now intros chk [= <-]|discriminate]].
    destruct c; cbn [negb]; [split; [now intros chk [= <-]|discriminate]|].
    split; [discriminate|]. intros _. eexists _, _. reflexivity.
  - apply scalar_one_or_none_None in Hr. rewrite Hr.
    destruct (existsb _ _); cbn [negb];
      [split; [now intros chk [= <-]|discriminate]|].
    destruct c; cbn [negb]; [split; [now intros chk [= <-]|discriminate]|].
    split; [discriminate|]. intros _. eexists _, _. reflexivity.
Qed.

(** ** Creating a zone *)

Lemma max_capacity_add_place zid st i z :
  max_capacity (add_place zid st i) z
  = max_capacity st z + (if zid =? z then 1 else 0).
Proof.
  unfold max_capacity, add_place. simpl.
  rewrite count_insert_fresh by apply next_id_fresh. simpl.
  destruct (zid =? z); simpl; lia.
Qed.

Lemma add_places_fold zid (l : list Z) st :
  max_capacity (foldl (add_place zid) st l) zid
  = max_capacity st zid + Z.of_nat (length l) /\
  (forall z, z <> zid ->
     max_capacity (foldl (add_place zid) st l) z = max_capacity st z) /\
  zones (foldl (add_place zid) st l) = zones st /\
  slots (foldl (add_place zid) st l) = slots st /\
  bookings (foldl (add_place zid) st l) = bookings st /\
  events (foldl (add_place zid) st l) = events st /\
  (forall pid p, places st !! pid = Some p ->
     places (foldl (add_place zid) st l) !! pid = Some p) /\
  (forall pid p, places (foldl (add_place zid) st l) !! pid = Some p ->
     places st !! pid = Some p \/
     (places st !! pid = None /\ place_zone_id p = Some zid /\
      place_is_active p = true)).
Proof.
  revert st. induction l as [|i l IH]; intros st.
  - simpl. repeat split; first [tauto|lia|now left].
  - rewrite foldl_cons.
    destruct (IH (add_place zid st i)) as (H1 & H2 & -> & -> & -> & -> & H3 & H4).
    rewrite H1, max_capacity_add_place, Z.eqb_refl.
    split; [simpl length; lia|].
    split.
    { intros z Hz. rewrite (H2 z Hz), max_capacity_add_place.
      replace (zid =? z) with false by (symmetry; apply Z.eqb_neq; congruence). lia. }
    do 4 (split; [reflexivity|]).
    split.
    { intros pid p Hp. apply H3. simpl.
      rewrite lookup_insert_ne; [assumption|].
      pose proof (next_id_above _ _ _ Hp). lia. }
    intros pid p Hp. destruct (H4 pid p Hp) as [Hold|(Hnew & Hz & Ha)].
    + simpl in Hold. destruct (decide (pid = next_id (places st))) as [->|Hne].
      * rewrite lookup_insert_eq in Hold. injection Hold as <-. right.
        split; [apply next_id_fresh|]. simpl. tauto.
      * rewrite lookup_insert_ne in Hold by congruence. now left.
    + right. simpl in Hnew. split; [|tauto].
      destruct (decide (pid = next_id (places st))) as [->|Hne];
        [apply next_id_fresh|].
      now rewrite lookup_insert_ne in Hnew by congruence.
Qed.

Lemma max_capacity_unreferenced st z :
  (forall pid p, places st !! pid = Some p -> place_zone_id p <> Some z) ->
  max_capacity st z = 0.
Proof.
  intros H. unfold max_capacity.
  rewrite (filter_length_ext _ (fun _ => false)).
  - induction (map_to_list (places st)) as [|x l IH]; [reflexivity|exact IH].
  - intros [pid p] Hin. apply In_map_to_list in Hin. specialize (H pid p Hin).
    unfold col_eqb. destruct (place_zone_id p) as [z'|]; [|reflexivity].
    replace (z' =? z) with false; [reflexivity|].
    symmetry. apply Z.eqb_neq. congruence.
Qed.

(** X10: [create_zone] stores the zone under a key no zone had, with the
    given name, address and activity and no closure, and gives it
    [places_count] active places (none when the count is negative), so that
    the capacity the checker uses for the new zone is that count; the
    capacity of every other zone, every existing place, and all slots,
    bookings and events are as they were. *)
Theorem create_zone_capacity (st : Store) (data : ZoneCreate) :
  places_reference_zones st ->
  let '(zid, zone, st') := create_zone st data in
  zones st !! zid = None /\
  zones st' = <[zid := zone]> (zones st) /\
  zone = mkZone (name data) (address data) (is_active data) None None /\
  max_capacity st' zid = Z.max 0 (places_count data) /\
  (forall z, z <> zid -> max_capacity st' z = max_capacity st z) /\
  (forall pid p, places st !! pid = Some p -> places st' !! pid = Some p) /\
  slots st' = slots st /\ bookings st' = bookings st /\ events st' = events st.
Proof.
  intros Hfk. unfold create_zone. cbv zeta.
  set (zid := next_id (zones st)).
  set (st1 := set_zones (<[zid := _]> (zones st)) st).
  destruct (add_places_fold zid (seqZ 1 (places_count data)) st1)
    as (H1 & H2 & H3 & H4 & H5 & H6 & H7 & _).
  split; [apply next_id_fresh|]. split; [rewrite H3; reflexivity|].
  split; [reflexivity|]. split.
  { rewrite H1, length_seqZ.
    rewrite (max_capacity_unreferenced st1 zid).
    - lia.
    - intros pid p Hp Hz. destruct (Hfk pid p zid Hp Hz) as [x Hx].
      unfold zid in Hx. rewrite next_id_fresh in Hx. discriminate. }
  split; [intros z Hz; now rewrite (H2 z Hz)|].
  split; [intros pid p Hp; now apply H7|].
  rewrite H4, H5, H6. repeat split.
Qed.

Lemma create_zone_new_place st data pid p :
  places_reference_zones st ->
  places (snd (create_zone st data)) !! pid = Some p ->
  place_zone_id p = Some (next_id (zones st)) ->
  places st !! pid = None.
Proof.
  intros Hfk Hp Hz. unfold create_zone in Hp. cbv zeta in Hp. cbn [snd] in Hp.
  match type of Hp with
  | places (foldl (add_place ?zid) ?st1 ?l) !! _ = _ =>
      destruct (add_places_fold zid l st1) as (_ & _ & _ & _ & _ & _ & _ & H)
  end.
  destruct (H pid p Hp) as [Hold|(Hnew & _)]; [|exact Hnew].
  simpl in Hold. destruct (Hfk pid p _ Hold Hz) as [x Hx].
  rewrite next_id_fresh in Hx. discriminate.
Qed.

Lemma create_zone_frame st data :
  zones (snd (create_zone st data))
  = <[next_id (zones st) := mkZone (name data) (address data) (is_active data)
                                   None None]> (zones st) /\
  slots (snd (create_zone st data)) = slots st /\
  bookings (snd (create_zone st data)) = bookings st.
Proof.
  unfold create_zone. cbv zeta. cbn [snd].
  match goal with
  | |- context [foldl (add_place ?zid) ?st1 ?l] =>
      destruct (add_places_fold zid l st1) as (_ & _ & -> & -> & -> & _)
  end.
  repeat split.
Qed.

Lemma create_zone_max_capacity st data :
  places_reference_zones st ->
  max_capacity (snd (create_zone st data)) (next_id (zones st))
  = Z.max 0 (places_count data).
Proof.
  intros Hfk. unfold create_zone. cbv zeta. cbn [snd].
  match goal with
  | |- context [foldl (add_place ?zid) ?st1 ?l] =>
      destruct (add_places_fold zid l st1) as (-> & _);
      rewrite (max_capacity_unreferenced st1 zid)
  end.
  - rewrite length_seqZ. lia.
  - intros pid p Hp Hz. destruct (Hfk pid p _ Hp Hz) as [x Hx].
    rewrite next_id_fresh in Hx. discriminate.
Qed.

Lemma filter_none {A} (f : A -> bool) (l : list A) :
  (forall x, In x l -> f x = false) -> List.filter f l = [].
Proof.
  induction l as [|x l IH]; intros H; [reflexivity|]. simpl.
  rewrite (H x (or_introl eq_refl)). apply IH. intros y Hy. apply H. now right.
Qed.

(** X11: a zone created active with at least one place can be booked at
    once: in a store whose places refer to zones and whose slots refer to
    places, a time-range request for the new zone with a parseable date, a
    positive duration within the limit and no conflicting booking of the
    user returns an active booking for the requested interval. *)
Theorem create_zone_then_book
        (MAX : Z) (parse : string -> option Z) (st : Store) (data : ZoneCreate)
        (user : Z) (bi : BookingCreateTimeRange) (s e : Z) :
  places_reference_zones st ->
  slots_reference_places st ->
  is_active data = true ->
  1 <= places_count data ->
  zone_id bi = fst (fst (create_zone st data)) ->
  valid_clock_fields bi ->
  requested_interval parse bi = Some (s, e) ->
  s < e -> e - s <= MAX * 3600 ->
  check_user_booking_conflicts st user s e None = false ->
  exists bid b st',
    create_booking_by_time_range MAX parse (snd (create_zone st data)) user bi false
    = (Return (bid, b), st') /\
    user_id b = user /\ status b = Active /\
    start_time b = Some s /\ end_time b = Some e /\
    booking_zone_name b = Some (name data) /\
    bookings st' !! bid = Some b /\ bookings st !! bid = None.
Proof.
  intros Hfk Hsfk Hact Hn Hzid (Hsh & Hsm & Heh & Hem) Hreq Hlt Hdur Hconf.
  set (st1 := snd (create_zone st data)) in *.
  set (zid := next_id (zones st)) in *.
  change (zone_id bi = zid) in Hzid.
  destruct (create_zone_frame st data) as (Hzs & Hss & Hbs).
  fold st1 zid in Hzs, Hss, Hbs.
  pose proof (create_zone_max_capacity st data Hfk) as Hcap. fold st1 zid in Hcap.
  assert (Hnew : forall pid p, places st1 !! pid = Some p ->
                               place_zone_id p = Some zid -> places st !! pid = None)
    by (intros pid p; apply create_zone_new_place; assumption).
  assert (Hnoslot : forall sid sl pid p,
            slots st1 !! sid = Some sl -> slot_place_id sl = Some pid ->
            places st1 !! pid = Some p -> place_zone_id p = Some zid -> False).
  { intros sid sl pid p Hsl Hpl Hp Hz. rewrite Hss in Hsl.
    destruct (Hsfk sid sl pid Hsl Hpl) as [p0 Hp0].
    rewrite (Hnew pid p Hp Hz) in Hp0. discriminate. }
  assert (Hover : overlapping_bookings st1 zid s e = []).
  { apply filter_none. intros [bid b] _.
    destruct (in_zone st1 zid b) eqn:Hin; [|reflexivity]. exfalso.
    apply in_zone_true in Hin. unfold booking_zone, booking_slot in Hin.
    destruct (slot_id b) as [sid|]; [|discriminate]. simpl in Hin.
    destruct (slots st1 !! sid) as [sl|] eqn:Hsl; [|discriminate]. simpl in Hin.
    unfold slot_zone in Hin.
    destruct (slot_place_id sl) as [pid|] eqn:Hpl; [|discriminate]. simpl in Hin.
    destruct (places st1 !! pid) as [p|] eqn:Hp; [|discriminate]. simpl in Hin.
    exact (Hnoslot sid sl pid p Hsl Hpl Hp Hin). }
  assert (Hcheck : check_zone_capacity st1 zid s e = true).
  { unfold check_zone_capacity. rewrite Hcap.
    replace (Z.max 0 (places_count data) =? 0) with false
      by (symmetry; apply Z.eqb_neq; lia).
    rewrite Hover. apply capacity_sweep_exact. intros t _.
    unfold count_at. simpl. lia. }
  assert (Hconf1 : check_user_booking_conflicts st1 user s e None = false).
  { unfold check_user_booking_conflicts, conflicting_bookings in *.
    now rewrite Hbs. }
  assert (Hplaces : exists pid p rest,
            active_places st1 zid = (pid, p) :: rest).
  { rewrite max_capacity_places in Hcap.
    destruct (active_places st1 zid) as [|[pid p] rest]; [simpl in Hcap; lia|].
    eauto. }
  destruct Hplaces as (pid & p & rest & Hpl).
  assert (Hin : In (pid, p) (active_places st1 zid)) by (rewrite Hpl; now left).
  apply active_places_In in Hin as (Hp & Hpz).
  assert (Hexact : exact_slots st1 (Some pid) s e = []).
  { apply filter_none. intros [sid sl] Hsl. apply In_map_to_list in Hsl.
    unfold col_eqb. destruct (slot_place_id sl) as [pid'|] eqn:Hpid; [|reflexivity].
    destruct (pid' =? pid) eqn:Heq; [|reflexivity]. apply Z.eqb_eq in Heq. subst pid'.
    exfalso. exact (Hnoslot sid sl pid p Hsl Hpid Hp Hpz). }
  assert (Hoverlap : overlapping_slots st1 (Some pid) s e = []).
  { apply filter_none. intros [sid sl] Hsl. apply In_map_to_list in Hsl.
    unfold col_eqb. destruct (slot_place_id sl) as [pid'|] eqn:Hpid; [|reflexivity].
    destruct (pid' =? pid) eqn:Heq; [|reflexivity]. apply Z.eqb_eq in Heq. subst pid'.
    exfalso. exact (Hnoslot sid sl pid p Hsl Hpid Hp Hpz). }
  unfold requested_interval in Hreq.
  destruct (parse (date bi)) as [d|] eqn:Hparse; [|discriminate]. simpl in Hreq.
  injection Hreq as Hs He.
  unfold create_booking_by_time_range. rewrite Hparse.
  rewrite (time_replace_valid _ _ Hsh Hsm), (time_replace_valid _ _ Heh Hem).
  cbv zeta. rewrite Hs, He.
  replace (e - s <=? 0) with false by (symmetry; apply Z.leb_gt; lia).
  replace (MAX * 3600 <? e - s) with false by (symmetry; apply Z.ltb_ge; lia).
  rewrite Hzid, Hzs, lookup_insert_eq. cbn [zone_is_active]. rewrite Hact.
  cbn [negb]. rewrite Hconf1, Hcheck. cbn [negb]. rewrite Hpl.
  cbn [try_places]. rewrite Hexact. cbn [scalar_one_or_none].
  rewrite Hoverlap. cbn [existsb].
  eexists _, _, _. split; [reflexivity|]. simpl.
  do 5 (split; [reflexivity|]).
  split; [apply lookup_insert_eq|]. rewrite Hbs. apply next_id_fresh.
Qed.

(** ** Statistics *)

Lemma joined_rows_elem st z pid p sid s bid b :
  ((pid, p), (sid, s), (bid, b)) ∈ joined_rows st z <->
  places st !! pid = Some p /\ place_zone_id p = Some z /\
  slots st !! sid = Some s /\ slot_place_id s = Some pid /\
  bookings st !! bid = Some b /\ slot_id b = Some sid.
Proof.
  unfold joined_rows. rewrite list_elem_of_bind. split.
  - intros [[pid' p'] [Hy Hp]]. apply elem_of_map_to_list in Hp.
    destruct (col_eqb (place_zone_id p') z) eqn:Hz; [|now apply elem_of_nil in Hy].
    apply list_elem_of_bind in Hy as [[sid' s'] [Hy Hs]].
    apply elem_of_map_to_list in Hs.
    destruct (col_eqb (slot_place_id s') pid') eqn:Hpid;
      [|now apply elem_of_nil in Hy].
    apply list_elem_of_bind in Hy as [[bid' b'] [Hy Hb]].
    apply elem_of_map_to_list in Hb.
    destruct (col_eqb (slot_id b') sid') eqn:Hsid; [|now apply elem_of_nil in Hy].
    apply list_elem_of_singleton in Hy. injection Hy as -> -> -> -> -> ->.
    unfold col_eqb in *.
    destruct (place_zone_id p') as [z'|]; [|discriminate].
    destruct (slot_place_id s') as [pid''|]; [|discriminate].
    destruct (slot_id b') as [sid''|]; [|discriminate].
    apply Z.eqb_eq in Hz, Hpid, Hsid. subst. repeat split; assumption.
  - intros (Hp & Hz & Hs & Hpid & Hb & Hsid).
    exists (pid, p). split; [|now apply elem_of_map_to_list].
    unfold col_eqb at 1. rewrite Hz, Z.eqb_refl.
    apply list_elem_of_bind. exists (sid, s).
    split; [|now apply elem_of_map_to_list].
    unfold col_eqb at 1. rewrite Hpid, Z.eqb_refl.
    apply list_elem_of_bind. exists (bid, b).
    split; [|now apply elem_of_map_to_list].
    unfold col_eqb. rewrite Hsid, Z.eqb_refl. now apply list_elem_of_singleton.
Qed.

Lemma joined_rows_NoDup st z : NoDup (joined_rows st z).
Proof.
  unfold joined_rows. apply NoDup_bind; [| |apply NoDup_map_to_list].
  - assert (Htag : forall (x : Z * Place) (y : JoinRow),
              y ∈ (let '(pid, p) := x in
                   if col_eqb (place_zone_id p) z
                   then '(sid, s) ← map_to_list (slots st);
                        if col_eqb (slot_place_id s) pid
                        then '(bid, b) ← map_to_list (bookings st);
                             if col_eqb (slot_id b) sid
                             then [((pid, p), (sid, s), (bid, b))] else []
                        else []
                   else []) -> fst (fst y) = x).
    { intros [pid p] y Hy.
      destruct (col_eqb (place_zone_id p) z); [|now apply elem_of_nil in Hy].
      apply list_elem_of_bind in Hy as [[sid s] [Hy _]].
      destruct (col_eqb (slot_place_id s) pid); [|now apply elem_of_nil in Hy].
      apply list_elem_of_bind in Hy as [[bid b] [Hy _]].
      destruct (col_eqb (slot_id b) sid); [|now apply elem_of_nil in Hy].
      apply list_elem_of_singleton in Hy. now subst y. }
    intros x1 x2 y _ _ H1 H2.
    rewrite <- (Htag x1 y H1). exact (Htag x2 y H2).
  - intros [pid p] _. destruct (col_eqb (place_zone_id p) z); [|constructor].
    apply NoDup_bind; [| |apply NoDup_map_to_list].
    + assert (Htag : forall (x : Z * Slot) (y : JoinRow),
                y ∈ (let '(sid, s) := x in
                     if col_eqb (slot_place_id s) pid
                     then '(bid, b) ← map_to_list (bookings st);
                          if col_eqb (slot_id b) sid
                          then [((pid, p), (sid, s), (bid, b))] else []
                     else []) -> snd (fst y) = x).
      { intros [sid s] y Hy.
        destruct (col_eqb (slot_place_id s) pid); [|now apply elem_of_nil in Hy].
        apply list_elem_of_bind in Hy as [[bid b] [Hy _]].
        destruct (col_eqb (slot_id b) sid); [|now apply elem_of_nil in Hy].
        apply list_elem_of_singleton in Hy. now subst y. }
      intros x1 x2 y _ _ H1 H2.
      rewrite <- (Htag x1 y H1). exact (Htag x2 y H2).
    + intros [sid s] _. destruct (col_eqb (slot_place_id s) pid); [|constructor].
      apply NoDup_bind; [| |apply NoDup_map_to_list].
      * intros [bid1 b1] [bid2 b2] y _ _ H1 H2.
        destruct (col_eqb (slot_id b1) sid); [|now apply elem_of_nil in H1].
        destruct (col_eqb (slot_id b2) sid); [|now apply elem_of_nil in H2].
        apply list_elem_of_singleton in H1, H2. congruence.
      * intros [bid b] _. destruct (col_eqb (slot_id b) sid);
          [apply NoDup_singleton|constructor].
Qed.

Lemma NoDup_rows_filter {V} (f : Z * V -> bool) (m : gmap Z V) :
  NoDup (List.filter f (map_to_list m)).
Proof.
  apply NoDup_ListNoDup, List.NoDup_filter, NoDup_ListNoDup, NoDup_map_to_list.
Qed.

(** The join lists each booking of the zone once. *)
Lemma joined_rows_bookings st z :
  map snd (joined_rows st z)
  ≡ₚ List.filter (fun '(_, b) => in_zone st z b) (map_to_list (bookings st)).
Proof.
  apply NoDup_Permutation.
  - apply (NoDup_fmap_2_strong snd); [|apply joined_rows_NoDup].
    intros [[[pid1 p1] [sid1 s1]] [bid1 b1]] [[[pid2 p2] [sid2 s2]] [bid2 b2]] H1 H2 E.
    simpl in E. injection E as -> ->.
    apply joined_rows_elem in H1 as (Hp1 & _ & Hs1 & Hpid1 & _ & Hsid1).
    apply joined_rows_elem in H2 as (Hp2 & _ & Hs2 & Hpid2 & _ & Hsid2).
    assert (sid1 = sid2) by congruence. subst sid2.
    assert (s1 = s2) by congruence. subst s2.
    assert (pid1 = pid2) by congruence. subst pid2.
    assert (p1 = p2) by congruence. now subst p2.
  - apply NoDup_rows_filter.
  - intros [bid b].
    rewrite (list_elem_of_In (List.filter _ _) (bid, b)), filter_In.
    rewrite In_map_to_list, in_zone_true.
    change (map snd (joined_rows st z)) with (snd <$> joined_rows st z).
    rewrite list_elem_of_fmap. split.
    + intros [[[[pid p] [sid s]] [bid' b']] [E H]]. simpl in E. injection E as <- <-.
      apply joined_rows_elem in H as (Hp & Hz & Hs & Hpid & Hb & Hsid).
      split; [assumption|].
      unfold booking_zone, booking_slot. rewrite Hsid. simpl. rewrite Hs. simpl.
      unfold slot_zone. rewrite Hpid. simpl. rewrite Hp. simpl. assumption.
    + intros [Hb Hz]. unfold booking_zone, booking_slot in Hz.
      destruct (slot_id b) as [sid|] eqn:Hsid; [|discriminate]. simpl in Hz.
      destruct (slots st !! sid) as [s|] eqn:Hs; [|discriminate]. simpl in Hz.
      unfold slot_zone in Hz.
      destruct (slot_place_id s) as [pid|] eqn:Hpl; [|discriminate]. simpl in Hz.
      destruct (places st !! pid) as [p|] eqn:Hp; [|discriminate]. simpl in Hz.
      exists ((pid, p), (sid, s), (bid, b)). split; [reflexivity|].
      apply joined_rows_elem. repeat split; assumption.
Qed.

Lemma filter_map_length {A B} (f : A -> B) (g : B -> bool) (l : list A) :
  length (List.filter (fun x => g (f x)) l) = length (List.filter g (map f l)).
Proof.
  induction l as [|x l IH]; [reflexivity|]. simpl.
  destruct (g (f x)); simpl; now rewrite IH.
Qed.

(** A count over the join whose test looks at the booking, and at the
    place only to compare its zone with the group's, counts the bookings
    of the zone that satisfy the test. *)
Lemma count_case_zone st z (cond : JoinRow -> bool) (condB : Booking -> bool) :
  (forall pid p sid s bid b,
     place_zone_id p = Some z ->
     cond ((pid, p), (sid, s), (bid, b)) = condB b) ->
  count_case cond (joined_rows st z) = zone_count st z condB.
Proof.
  intros Hcond. unfold count_case, zone_count. f_equal.
  transitivity (length (List.filter (fun '(_, b) => condB b)
                                    (map snd (joined_rows st z)))).
  - rewrite <- filter_map_length. apply filter_length_ext.
    intros [[[pid p] [sid s]] [bid b]] Hin. simpl.
    apply list_elem_of_In, joined_rows_elem in Hin as (_ & Hz & _).
    now apply Hcond.
  - rewrite (filter_length_Permutation _ _ _ (joined_rows_bookings st z)).
    rewrite filter_twice. apply filter_length_ext. now intros [bid b] _.
Qed.

Lemma stats_row_counts st now z :
  active_bookings (stats_row st now z)
  = zone_count st z (fun b => is_active_status (status b)) /\
  cancelled_bookings (stats_row st now z)
  = zone_count st z (fun b => is_cancelled_status (status b)) /\
  current_occupancy (stats_row st now z) = occupancy st z now.
Proof.
  unfold stats_row. cbn [active_bookings cancelled_bookings current_occupancy].
  split; [|split].
  - now apply count_case_zone.
  - now apply count_case_zone.
  - rewrite (count_case_zone st z _
               (fun b => is_active_status (status b) && contains b now)).
    + unfold zone_count, occupancy. f_equal. apply filter_length_ext.
      intros [bid b] _. now rewrite andb_assoc.
    + intros pid p sid s bid b Hz. unfold col_eqb. rewrite Hz, Z.eqb_refl.
      rewrite andb_true_r. unfold contains, col_leb, col_gtb.
      destruct (is_active_status (status b)); [|reflexivity]. simpl.
      destruct (start_time b), (end_time b); simpl; rewrite ?andb_false_r; reflexivity.
Qed.

(** ** Listing the zones *)

Lemma elem_of_map {A B} (f : A -> B) (l : list A) (y : B) :
  y ∈ map f l <-> exists x, y = f x /\ x ∈ l.
Proof. apply list_elem_of_fmap. Qed.

Lemma reactivate_idempotent z : reactivate (reactivate z) = reactivate z.
Proof. reflexivity. Qed.

(** The reactivation, zone by zone. *)
Lemma reactivate_zones_lookup st now zid :
  zones (reactivate_zones st now) !! zid
  = (fun z => if due_for_reactivation now z then reactivate z else z)
      <$> zones st !! zid.
Proof.
  unfold reactivate_zones. cbn [zones set_zones].
  rewrite sweep_fold_keys, foldl_alter_lookup by apply reactivate_idempotent.
  destruct (zones st !! zid) as [z|] eqn:Hz; simpl.
  - destruct (decide _) as [Hin|Hnin].
    + apply list_elem_of_In, in_map_iff in Hin as [[k z'] [Hk Hin]]. simpl in Hk. subst k.
      apply filter_In in Hin as [Hin Hdue]. apply In_map_to_list in Hin.
      rewrite Hz in Hin. injection Hin as <-. now rewrite Hdue.
    + destruct (due_for_reactivation now z) eqn:Hdue; [|reflexivity].
      exfalso. apply Hnin. apply list_elem_of_In, in_map_iff.
      exists (zid, z). split; [reflexivity|].
      apply filter_In. split; [now apply In_map_to_list|assumption].
  - now destruct (decide _).
Qed.

Lemma reactivate_zones_frame st now :
  places (reactivate_zones st now) = places st /\
  slots (reactivate_zones st now) = slots st /\
  bookings (reactivate_zones st now) = bookings st /\
  events (reactivate_zones st now) = events st.
Proof. repeat split. Qed.

Lemma reactivate_zones_occupancy st now z t :
  occupancy (reactivate_zones st now) z t = occupancy st z t.
Proof. reflexivity. Qed.

Lemma reactivate_zones_max_capacity st now z :
  max_capacity (reactivate_zones st now) z = max_capacity st z.
Proof. reflexivity. Qed.

Lemma reactivate_zones_stats_row st now t z :
  stats_row (reactivate_zones st now) t z = stats_row st t z.
Proof. reflexivity. Qed.

Lemma occupancy_nonneg st z t : 0 <= occupancy st z t.
Proof. unfold occupancy. lia. Qed.

(** A booking that contains [now] is not expired at an earlier reading of
    the clock, so the sweep leaves the occupancy at [now] as it was. *)
Lemma sweep_keeps_occupancy st now0 now z :
  now0 <= now ->
  occupancy (auto_complete_expired_bookings st now0 None) z now = occupancy st z now.
Proof.
  intros Hle. unfold occupancy. f_equal.
  set (st' := auto_complete_expired_bookings st now0 None).
  set (P := fun (st0 : Store) (row : Z * Booking) =>
              let '(_, b) := row in
              in_zone st0 z b && is_active_status (status b) && contains b now).
  change (length (List.filter (P st') (map_to_list (bookings st')))
          = length (List.filter (P st) (map_to_list (bookings st)))).
  set (f := fun b => if expired now0 b then set_status Completed b else b).
  assert (Hb : bookings st' = f <$> bookings st).
  { apply map_eq. intros k. rewrite lookup_fmap. apply auto_complete_all_lookup. }
  rewrite Hb, map_to_list_fmap.
  change (prod_map id f <$> map_to_list (bookings st))
    with (map (prod_map id f) (map_to_list (bookings st))).
  rewrite <- filter_map_length. apply filter_length_ext.
  intros [k b] _. unfold P, f. simpl.
  destruct (expired now0 b) eqn:Hexp; [|reflexivity].
  unfold expired in Hexp. apply andb_true_iff in Hexp as [Hact Hend].
  rewrite Hact. simpl. rewrite andb_false_r, andb_true_r.
  unfold contains. simpl. unfold col_leb in Hend.
  destruct (end_time b) as [e|]; [|discriminate]. apply Z.leb_le in Hend.
  destruct (start_time b) as [s|]; [|now rewrite andb_false_r].
  replace (now <? e) with false by (symmetry; apply Z.ltb_ge; lia).
  now rewrite !andb_false_r.
Qed.

Section ListingFacts.
Context (MAX_BOOKING_HOURS : Z) (fromisoformat : string -> option Z).
Context (order_by_name : list (Z * Zone) -> list (Z * Zone)).
Hypothesis order_by_name_perm : forall l, order_by_name l ≡ₚ l.

Local Abbreviation reachable := (reachable MAX_BOOKING_HOURS fromisoformat).

Lemma order_by_name_elem l x : x ∈ order_by_name l <-> x ∈ l.
Proof. now rewrite (order_by_name_perm l). Qed.

Lemma reachable_preserves st0 st :
  well_formed st0 -> capacity_invariant st0 -> reachable st0 st ->
  well_formed st /\ capacity_invariant st.
Proof.
  intros Hwf Hinv Hreach.
  induction Hreach as [|st st' _ IH Hstep]; [tauto|].
  destruct IH as [Hwf' Hinv'].
  now apply (step_preserves MAX_BOOKING_HOURS fromisoformat st st').
Qed.

(** X12: [get_zones] completes the expired bookings, reopens exactly the
    inactive zones whose [closed_until] has passed (active again, reason
    and deadline cleared) and leaves every other zone, place and slot as
    it was; it lists each zone of the resulting table at most once, all
    of them with [include_inactive] and otherwise exactly the active ones,
    with the columns of the row after the reactivation. *)
Theorem get_zones_reactivates (st : Store) (now0 now : Z) (include_inactive : bool) :
  let '(outs, st') := get_zones order_by_name st now0 now include_inactive in
  (forall zid, zones st' !! zid
               = (fun z => if negb (zone_is_active z) && col_leb (closed_until z) now
                           then mkZone (zone_name z) (zone_address z) true None None
                           else z) <$> zones st !! zid) /\
  places st' = places st /\ slots st' = slots st /\
  bookings st' = bookings (auto_complete_expired_bookings st now0 None) /\
  NoDup (map ZoneOut.id outs) /\
  (forall out, out ∈ outs ->
     exists z, zones st' !! ZoneOut.id out = Some z /\
               (include_inactive = false -> zone_is_active z = true) /\
               ZoneOut.name out = zone_name z /\
               ZoneOut.address out = zone_address z /\
               ZoneOut.is_active out = zone_is_active z /\
               ZoneOut.closure_reason out = closure_reason z /\
               ZoneOut.closed_until out = closed_until z) /\
  (forall zid z, zones st' !! zid = Some z ->
     include_inactive = true \/ zone_is_active z = true ->
     exists out, out ∈ outs /\ ZoneOut.id out = zid).
Proof.
  unfold get_zones. cbv zeta.
  set (st1 := auto_complete_expired_bookings st now0 None).
  set (st2 := reactivate_zones st1 now).
  set (rows := if include_inactive then map_to_list (zones st2)
               else List.filter (fun '(_, z) => zone_is_active z)
                                (map_to_list (zones st2))).
  assert (Hrows : forall zid z, (zid, z) ∈ rows <->
                    zones st2 !! zid = Some z /\
                    (include_inactive = true \/ zone_is_active z = true)).
  { intros zid z. unfold rows. destruct include_inactive.
    - rewrite elem_of_map_to_list. intuition.
    - rewrite list_elem_of_In, filter_In, In_map_to_list. intuition discriminate. }
  assert (Hnd : NoDup (map fst rows)).
  { unfold rows. destruct include_inactive.
    - apply NoDup_fst_map_to_list.
    - apply NoDup_ListNoDup, filter_keys_NoDup. }
  split; [intros zid; apply (reactivate_zones_lookup st1 now zid)|].
  split; [reflexivity|]. split; [reflexivity|]. split; [reflexivity|].
  split; [|split].
  - rewrite map_map.
    rewrite (map_ext _ fst) by (now intros [zid z]).
    change (NoDup (fst <$> order_by_name rows)).
    rewrite (order_by_name_perm rows). exact Hnd.
  - intros out Hout.
    apply elem_of_map in Hout as [[zid z] [-> Hin]].
    apply order_by_name_elem, Hrows in Hin as [Hz Hact].
    exists z. simpl. split; [exact Hz|].
    split; [intros ->; now destruct Hact|]. repeat split.
  - intros zid z Hz Hact.
    eexists. split.
    + apply elem_of_map. exists (zid, z). split; [reflexivity|].
      apply order_by_name_elem, Hrows. now split.
    + reflexivity.
Qed.

(** X13: a zone closed by [close_zone] until [to_time] is missing from
    the default listing of [get_zones] as long as the clock is before
    [to_time], and keeps the reason and the deadline; the first listing
    at or after [to_time] stores it as active with both cleared and
    returns it.  The start of the closure plays no part. *)
Theorem close_zone_then_get_zones
        (st : Store) (z : Z) (zone : Zone) (data : ZoneCloseRequest) (now0 now : Z) :
  zones st !! z = Some zone ->
  let '(outs, st') := get_zones order_by_name (snd (close_zone st z data)) now0 now false in
  (now < to_time data ->
   zones st' !! z = Some (mkZone (zone_name zone) (zone_address zone) false
                                 (Some (reason data)) (Some (to_time data))) /\
   forall out, out ∈ outs -> ZoneOut.id out <> z) /\
  (to_time data <= now ->
   zones st' !! z = Some (mkZone (zone_name zone) (zone_address zone) true None None) /\
   exists out, out ∈ outs /\ ZoneOut.id out = z /\
               ZoneOut.name out = zone_name zone /\
               ZoneOut.is_active out = true /\
               ZoneOut.closure_reason out = None /\
               ZoneOut.closed_until out = None).
Proof.
  intros Hz.
  destruct (close_zone st z data) as [result st1] eqn:Hclose.
  destruct (close_zone_tables st st1 z data zone result Hz Hclose)
    as (_ & Hzones & _).
  unfold get_zones. cbv zeta. cbn [snd].
  set (st2 := auto_complete_expired_bookings st1 now0 None).
  set (st3 := reactivate_zones st2 now).
  assert (Hz3 : zones st3 !! z
                = Some (if to_time data <=? now
                        then mkZone (zone_name zone) (zone_address zone) true None None
                        else mkZone (zone_name zone) (zone_address zone) false
                                    (Some (reason data)) (Some (to_time data)))).
  { unfold st3. rewrite reactivate_zones_lookup.
    change (zones st2) with (zones st1). rewrite Hzones, lookup_insert_eq.
    unfold due_for_reactivation, reactivate. simpl.
    now destruct (to_time data <=? now). }
  split.
  - intros Hlt.
    replace (to_time data <=? now) with false in Hz3
      by (symmetry; apply Z.leb_gt; lia).
    split; [exact Hz3|]. intros out Hout Hid.
    apply elem_of_map in Hout as [[zid z'] [-> Hin]].
    simpl in Hid. subst zid.
    apply order_by_name_elem, list_elem_of_In, filter_In in Hin as [Hin Hact].
    apply In_map_to_list in Hin. rewrite Hz3 in Hin. injection Hin as <-.
    discriminate.
  - intros Hle.
    replace (to_time data <=? now) with true in Hz3
      by (symmetry; apply Z.leb_le; lia).
    split; [exact Hz3|].
    eexists. split.
    + apply elem_of_map.
      exists (z, mkZone (zone_name zone) (zone_address zone) true None None).
      split; [reflexivity|].
      apply order_by_name_elem, list_elem_of_In, filter_In.
      split; [now apply In_map_to_list|reflexivity].
    + repeat split.
Qed.

(** X14: in every store the engine reaches from a well-formed store that
    respects the capacities, each [current_occupancy] returned by
    [get_zones] and by [get_zones_statistics] is the number of active
    bookings of that zone whose interval contains the instant of the
    call, and is at most the number of active places of the zone. *)
Theorem listed_occupancy_within_capacity
        (st0 st : Store) (now0 now : Z) (include_inactive : bool) :
  well_formed st0 -> capacity_invariant st0 -> reachable st0 st ->
  (let '(outs, st') := get_zones order_by_name st now0 now include_inactive in
   forall out, out ∈ outs ->
     ZoneOut.current_occupancy out = occupancy st' (ZoneOut.id out) now /\
     0 <= ZoneOut.current_occupancy out <= max_capacity st' (ZoneOut.id out)) /\
  (let '(outs, st') := get_zones_statistics order_by_name st now0 now in
   forall out, out ∈ outs ->
     ZoneStatistics.current_occupancy out
     = occupancy st' (ZoneStatistics.zone_id out) now /\
     0 <= ZoneStatistics.current_occupancy out
       <= max_capacity st' (ZoneStatistics.zone_id out)).
Proof.
  intros Hwf Hinv Hreach.
  destruct (reachable_preserves st0 st Hwf Hinv Hreach) as [Hwf1 Hinv1].
  set (st1 := auto_complete_expired_bookings st now0 None).
  destruct (step_preserves MAX_BOOKING_HOURS fromisoformat st st1 Hwf1 Hinv1
              (step_auto_complete _ _ st now0 None)) as [_ Hinv2].
  split.
  - unfold get_zones. cbv zeta. fold st1.
    set (st2 := reactivate_zones st1 now).
    intros out Hout.
    apply elem_of_map in Hout as [[zid z] [-> Hin]]. cbn [ZoneOut.current_occupancy ZoneOut.id].
    destruct (stats_row_counts st2 now zid) as (_ & _ & ->).
    split; [reflexivity|]. split; [apply occupancy_nonneg|].
    unfold st2. rewrite reactivate_zones_occupancy, reactivate_zones_max_capacity.
    apply Hinv2.
    assert (Hz : zones st2 !! zid = Some z).
    { apply (proj1 (order_by_name_elem _ _)) in Hin. destruct include_inactive.
      - apply elem_of_map_to_list in Hin. exact Hin.
      - apply list_elem_of_In, filter_In in Hin as [Hin _].
        apply In_map_to_list in Hin. exact Hin. }
    unfold st2 in Hz. rewrite reactivate_zones_lookup in Hz.
    destruct (zones st1 !! zid); [eauto|discriminate].
  - unfold get_zones_statistics. cbv zeta. fold st1.
    intros out Hout.
    apply elem_of_map in Hout as [[zid z] [-> Hin]].
    cbn [ZoneStatistics.current_occupancy ZoneStatistics.zone_id].
    destruct (stats_row_counts st1 now zid) as (_ & _ & ->).
    split; [reflexivity|]. split; [apply occupancy_nonneg|].
    apply Hinv2. apply order_by_name_elem, elem_of_map_to_list in Hin. eauto.
Qed.

(** X15: [get_zones_statistics] returns one entry for every zone of the
    store, active or not, and changes nothing but the status of expired
    bookings; in each entry the two totals count the zone's bookings that
    are active, or cancelled, after the sweep, the occupancy is at most
    the active total, and, when the clock has not gone back between the
    two readings, the occupancy is what it was before the sweep. *)
Theorem zones_statistics_complete (st : Store) (now0 now : Z) :
  let '(outs, st') := get_zones_statistics order_by_name st now0 now in
  st' = auto_complete_expired_bookings st now0 None /\
  map ZoneStatistics.zone_id outs ≡ₚ map fst (map_to_list (zones st)) /\
  forall out, out ∈ outs ->
    let z := ZoneStatistics.zone_id out in
    (exists zone, zones st !! z = Some zone /\
                  ZoneStatistics.zone_name out = zone_name zone /\
                  ZoneStatistics.is_active out = zone_is_active zone /\
                  ZoneStatistics.closure_reason out = closure_reason zone /\
                  ZoneStatistics.closed_until out = closed_until zone) /\
    ZoneStatistics.active_bookings out
    = zone_count st' z (fun b => is_active_status (status b)) /\
    ZoneStatistics.cancelled_bookings out
    = zone_count st' z (fun b => is_cancelled_status (status b)) /\
    ZoneStatistics.current_occupancy out <= ZoneStatistics.active_bookings out /\
    (now0 <= now -> ZoneStatistics.current_occupancy out = occupancy st z now).
Proof.
  unfold get_zones_statistics. cbv zeta.
  set (st1 := auto_complete_expired_bookings st now0 None).
  split; [reflexivity|]. split.
  - rewrite map_map. rewrite (map_ext _ fst) by (now intros [zid z]).
    change (fst <$> order_by_name (map_to_list (zones st1))
            ≡ₚ fst <$> map_to_list (zones st)).
    now rewrite (order_by_name_perm _).
  - intros out Hout.
    apply elem_of_map in Hout as [[zid z] [-> Hin]].
    apply order_by_name_elem, elem_of_map_to_list in Hin.
    cbv zeta. cbn [ZoneStatistics.zone_id ZoneStatistics.zone_name
                   ZoneStatistics.is_active ZoneStatistics.closure_reason
                   ZoneStatistics.closed_until ZoneStatistics.active_bookings
                   ZoneStatistics.cancelled_bookings ZoneStatistics.current_occupancy].
    destruct (stats_row_counts st1 now zid) as (-> & -> & ->).
    split; [exists z; repeat split; exact Hin|].
    split; [reflexivity|]. split; [reflexivity|]. split.
    + unfold occupancy, zone_count. apply inj_le, filter_length_le.
      intros [k b] _ H. now apply andb_true_iff in H as [H _].
    + intros Hle. now apply sweep_keeps_occupancy.
Qed.

End ListingFacts.

(** ** Global statistics *)

Lemma remove_dups_NoDup `{EqDecision A} (l : list A) : NoDup l -> remove_dups l = l.
Proof.
  induction 1 as [|x l Hx _ IH]; [reflexivity|]. simpl.
  destruct (decide_rel elem_of x l); [contradiction|]. now rewrite IH.
Qed.

Lemma remove_dups_length `{EqDecision A} (l : list A) :
  (length (remove_dups l) <= length l)%nat.
Proof.
  induction l as [|x l IH]; simpl; [lia|].
  destruct (decide_rel elem_of x l); simpl; lia.
Qed.

Lemma present_bookings_In st now bid b :
  In (bid, b) (present_bookings st now) <->
  bookings st !! bid = Some b /\ status b = Active /\ contains b now = true.
Proof.
  unfold present_bookings. rewrite filter_In, In_map_to_list.
  rewrite <- andb_assoc, andb_true_iff, is_active_status_true.
  replace (col_leb (start_time b) now && col_gtb (end_time b) now)
    with (contains b now); [tauto|].
  unfold contains, col_leb, col_gtb.
  destruct (start_time b), (end_time b); simpl; rewrite ?andb_false_r; reflexivity.
Qed.

Lemma contains_overlap b1 b2 t :
  contains b1 t = true -> contains b2 t = true -> overlap b1 b2.
Proof.
  unfold contains, overlap. intros H1 H2.
  destruct (start_time b1) as [s1|], (end_time b1) as [e1|]; try discriminate.
  destruct (start_time b2) as [s2|], (end_time b2) as [e2|]; try discriminate.
  apply andb_true_iff in H1 as [H1 H1'], H2 as [H2 H2'].
  apply Z.leb_le in H1, H2. apply Z.ltb_lt in H1', H2'.
  exists s1, e1, s2, e2. repeat split; lia.
Qed.

(** When no user has two overlapping active bookings, the bookings that
    contain an instant belong to different users. *)
Lemma present_users_NoDup st now :
  no_self_overlap st ->
  NoDup (map (fun row => user_id (snd row)) (present_bookings st now)).
Proof.
  intros Hinv. apply (NoDup_fmap_2_strong (fun row : Z * Booking => user_id (snd row))).
  - intros [bid1 b1] [bid2 b2] H1 H2 Hu. simpl in Hu.
    apply list_elem_of_In, present_bookings_In in H1 as (H1 & A1 & C1).
    apply list_elem_of_In, present_bookings_In in H2 as (H2 & A2 & C2).
    destruct (decide (bid1 = bid2)) as [->|Hne]; [congruence|].
    exfalso. apply (Hinv bid1 b1 bid2 b2 Hne H1 H2 Hu A1 A2).
    now apply (contains_overlap b1 b2 now).
  - apply NoDup_rows_filter.
Qed.

Lemma sweep_no_self_overlap st now :
  no_self_overlap st -> no_self_overlap (auto_complete_expired_bookings st now None).
Proof.
  intros H.
  exact (step_no_self_overlap 0 (fun _ => None) st _ H
           (step_auto_complete 0 (fun _ => None) st now None)).
Qed.

(** A count over the bookings after the sweep, read on the store before it. *)
Lemma sweep_filter_length st now0 (P : Booking -> bool) :
  length (List.filter (fun '(_, b) => P b)
            (map_to_list (bookings (auto_complete_expired_bookings st now0 None))))
  = length (List.filter
              (fun '(_, b) => P (if expired now0 b then set_status Completed b else b))
              (map_to_list (bookings st))).
Proof.
  set (f := fun b => if expired now0 b then set_status Completed b else b).
  assert (Hb : bookings (auto_complete_expired_bookings st now0 None)
               = f <$> bookings st).
  { apply map_eq. intros k. rewrite lookup_fmap. apply auto_complete_all_lookup. }
  rewrite Hb, map_to_list_fmap.
  change (prod_map id f <$> map_to_list (bookings st))
    with (map (prod_map id f) (map_to_list (bookings st))).
  rewrite <- filter_map_length. apply filter_length_ext. now intros [k b] _.
Qed.

Lemma global_statistics_counts st now0 now :
  no_self_overlap st ->
  users_in_coworking_now (fst (get_global_statistics st now0 now))
  = Z.of_nat (length (present_bookings
                        (auto_complete_expired_bookings st now0 None) now)).
Proof.
  intros Hinv. unfold get_global_statistics. cbv zeta.
  cbn [fst users_in_coworking_now]. f_equal.
  rewrite remove_dups_NoDup, length_map; [reflexivity|].
  apply present_users_NoDup. now apply sweep_no_self_overlap.
Qed.

(** X16: [get_global_statistics] changes nothing but the status of
    expired bookings.  Its active total counts the bookings that were
    active and not yet over at the first reading of the clock, its
    cancelled total the bookings that were cancelled.  The number of users
    in the coworking is never more than the active total; when no user
    holds two overlapping active bookings it is the number of active
    bookings whose interval contains the instant of the call. *)
Theorem global_statistics_users (st : Store) (now0 now : Z) :
  let '(g, st') := get_global_statistics st now0 now in
  st' = auto_complete_expired_bookings st now0 None /\
  total_active_bookings g
  = Z.of_nat (length (List.filter
                        (fun '(_, b) => is_active_status (status b)
                                        && negb (col_leb (end_time b) now0))
                        (map_to_list (bookings st)))) /\
  total_cancelled_bookings g
  = Z.of_nat (length (List.filter
                        (fun '(_, b) => is_cancelled_status (status b))
                        (map_to_list (bookings st)))) /\
  0 <= users_in_coworking_now g <= total_active_bookings g /\
  (no_self_overlap st ->
   users_in_coworking_now g = Z.of_nat (length (present_bookings st' now))).
Proof.
  unfold get_global_statistics. cbv zeta.
  set (st1 := auto_complete_expired_bookings st now0 None).
  cbn [total_active_bookings total_cancelled_bookings users_in_coworking_now].
  split; [reflexivity|]. split; [|split; [|split]].
  - f_equal. unfold st1.
    rewrite (sweep_filter_length st now0 (fun b => is_active_status (status b))).
    apply filter_length_ext. intros [k b] _. unfold expired.
    destruct (is_active_status (status b)) eqn:Hact; simpl.
    + now destruct (col_leb (end_time b) now0).
    + exact Hact.
  - f_equal. unfold st1.
    rewrite (sweep_filter_length st now0 (fun b => is_cancelled_status (status b))).
    apply filter_length_ext. intros [k b] _. unfold expired.
    destruct (status b) eqn:Hs; simpl; rewrite ?Hs; try reflexivity.
    destruct (col_leb (end_time b) now0); simpl; rewrite ?Hs; reflexivity.
  - split; [lia|]. apply inj_le.
    etransitivity; [apply remove_dups_length|]. rewrite length_map.
    unfold present_bookings. apply filter_length_le.
    intros [k b] _ H. apply andb_true_iff in H as [H _].
    now apply andb_true_iff in H as [H _].
  - intros Hinv. exact (global_statistics_counts st now0 now Hinv).
Qed.

(** ** The zones' occupancies add up *)

Lemma sum_Z_Permutation (l l' : list Z) : l ≡ₚ l' -> sum_Z l = sum_Z l'.
Proof.
  induction 1 as [|x l l' _ IH|x y l|l l' l'' _ IH1 _ IH2]; simpl; lia.
Qed.

Lemma sum_Z_map_add {A} (f g : A -> Z) (l : list A) :
  sum_Z (map (fun x => f x + g x) l) = sum_Z (map f l) + sum_Z (map g l).
Proof. induction l as [|x l IH]; simpl; lia. Qed.

Lemma sum_Z_map_zero {A} (f : A -> Z) (l : list A) :
  (forall x, x ∈ l -> f x = 0) -> sum_Z (map f l) = 0.
Proof.
  induction l as [|x l IH]; intros H; simpl; [reflexivity|].
  rewrite (H x) by left. rewrite IH; [reflexivity|].
  intros y Hy. apply H. now right.
Qed.

Lemma sum_Z_indicator (keys : list Z) (z0 : Z) :
  NoDup keys -> z0 ∈ keys ->
  sum_Z (map (fun z => if z0 =? z then 1 else 0) keys) = 1.
Proof.
  induction 1 as [|k keys Hk Hnd IH]; intros Hin; [now apply elem_of_nil in Hin|].
  simpl. apply elem_of_cons in Hin as [->|Hin].
  - rewrite Z.eqb_refl. rewrite sum_Z_map_zero; [reflexivity|].
    intros y Hy. destruct (Z.eqb_spec k y) as [->|_]; [contradiction|reflexivity].
  - rewrite IH by assumption.
    destruct (Z.eqb_spec z0 k) as [->|_]; [contradiction|reflexivity].
Qed.

(** Bookings that each lie in one of the listed zones are counted once
    when the zones' occupancies are added. *)
Lemma occupancy_sum_rows st now (keys : list Z) (rows : list (Z * Booking)) :
  NoDup keys ->
  (forall bid b, In (bid, b) rows ->
     exists z, booking_zone st b = Some z /\ z ∈ keys) ->
  sum_Z (map (fun z => Z.of_nat (length (List.filter
                 (fun '(_, b) => in_zone st z b && is_active_status (status b)
                                 && contains b now) rows))) keys)
  = Z.of_nat (length (List.filter
                 (fun '(_, b) => is_active_status (status b)
                                 && col_leb (start_time b) now
                                 && col_gtb (end_time b) now) rows)).
Proof.
  intros Hnd. induction rows as [|[bid b] rows IH]; intros Hz.
  - simpl. now apply sum_Z_map_zero.
  - assert (Hrest : forall bid' b', In (bid', b') rows ->
                      exists z, booking_zone st b' = Some z /\ z ∈ keys).
    { intros bid' b' Hin. apply (Hz bid' b'). now right. }
    specialize (IH Hrest).
    destruct (Hz bid b (or_introl eq_refl)) as (z0 & Hz0 & Hin0).
    set (here := is_active_status (status b) && contains b now).
    assert (Hhere : is_active_status (status b) && col_leb (start_time b) now
                    && col_gtb (end_time b) now = here).
    { unfold here, contains, col_leb, col_gtb. rewrite <- andb_assoc. f_equal.
      destruct (start_time b), (end_time b); simpl; rewrite ?andb_false_r; reflexivity. }
    cbn [List.filter]. rewrite Hhere.
    rewrite (map_ext _ (fun z =>
               (if z0 =? z then (if here then 1 else 0) else 0)
               + Z.of_nat (length (List.filter
                   (fun '(_, b) => in_zone st z b && is_active_status (status b)
                                   && contains b now) rows)))).
    + rewrite sum_Z_map_add, IH. destruct here.
      * rewrite sum_Z_indicator by assumption. simpl length. lia.
      * rewrite sum_Z_map_zero; [reflexivity|].
        intros z _. now destruct (z0 =? z).
    + intros z. unfold in_zone. rewrite Hz0, <- andb_assoc. fold here.
      destruct (z0 =? z); simpl; [|reflexivity].
      destruct here; simpl length; lia.
Qed.

Lemma sweep_booking_zone st now b :
  booking_zone (auto_complete_expired_bookings st now None)
               (if expired now b then set_status Completed b else b)
  = booking_zone st b.
Proof. now destruct (expired now b). Qed.

Lemma sweep_bookings_reference_zones st now :
  bookings_reference_zones st ->
  bookings_reference_zones (auto_complete_expired_bookings st now None).
Proof.
  intros H bid b' Hb'. rewrite auto_complete_all_lookup in Hb'.
  destruct (bookings st !! bid) as [b|] eqn:Hb; [|discriminate].
  simpl in Hb'. injection Hb' as <-. rewrite sweep_booking_zone.
  exact (H bid b Hb).
Qed.

Section StatisticsFacts.
Context (order_by_name : list (Z * Zone) -> list (Z * Zone)).
Hypothesis order_by_name_perm : forall l, order_by_name l ≡ₚ l.

(** X17: when no user holds two overlapping active bookings and every
    booking lies in a zone of the store, the number of users in the
    coworking reported by [get_global_statistics] is the sum of the
    occupancies reported by [get_zones_statistics] at the same readings of
    the clock. *)
Theorem users_now_sum_of_occupancies (st : Store) (now0 now : Z) :
  no_self_overlap st ->
  bookings_reference_zones st ->
  users_in_coworking_now (fst (get_global_statistics st now0 now))
  = sum_Z (map ZoneStatistics.current_occupancy
               (fst (get_zones_statistics order_by_name st now0 now))).
Proof.
  intros Hinv Href.
  pose proof (global_statistics_counts st now0 now Hinv) as Husers.
  unfold get_zones_statistics. cbv zeta. cbn [fst].
  set (st1 := auto_complete_expired_bookings st now0 None) in *.
  rewrite Husers. rewrite map_map.
  rewrite (map_ext _ (fun row => occupancy st1 (fst row) now)).
  2:{ intros [zid z]. cbn [ZoneStatistics.current_occupancy fst].
      now destruct (stats_row_counts st1 now zid) as (_ & _ & ->). }
  rewrite (sum_Z_Permutation _ (map (fun row => occupancy st1 (fst row) now)
                                    (map_to_list (zones st1)))).
  2:{ change (((fun row => occupancy st1 (fst row) now) <$>
                 order_by_name (map_to_list (zones st1)))
              ≡ₚ ((fun row => occupancy st1 (fst row) now) <$>
                    map_to_list (zones st1))).
      now rewrite (order_by_name_perm _). }
  rewrite <- (map_map fst (fun z => occupancy st1 z now)).
  symmetry. unfold occupancy, present_bookings. apply occupancy_sum_rows.
  - apply NoDup_fst_map_to_list.
  - intros bid b Hin. apply In_map_to_list in Hin.
    destruct (sweep_bookings_reference_zones st now0 Href bid b Hin)
      as (z & Hz & [zone Hzone]).
    exists z. split; [exact Hz|].
    apply list_elem_of_In, in_map_iff. exists (z, zone).
    split; [reflexivity|]. now apply In_map_to_list.
Qed.

End StatisticsFacts.

(** ** Places of a new zone *)

Lemma filter_Permutation_list {A} (f : A -> bool) (l l' : list A) :
  l ≡ₚ l' -> List.filter f l ≡ₚ List.filter f l'.
Proof.
  induction 1 as [|x l l' _ IH|x y l|l l' l'' _ IH1 _ IH2]; simpl.
  - reflexivity.
  - destruct (f x); [now constructor|assumption].
  - destruct (f x), (f y); try reflexivity. apply Permutation_swap.
  - now rewrite IH1.
Qed.

Lemma active_places_add_place zid st i :
  active_places (add_place zid st i) zid
  ≡ₚ (next_id (places st), mkPlace (Some zid) ("Место " ++ pretty i)%string true)
       :: active_places st zid.
Proof.
  unfold active_places, add_place. cbn [places set_places].
  rewrite (filter_Permutation_list _ _ _ (scan_Permutation _)).
  rewrite (filter_Permutation_list _ _ _
             (map_to_list_insert (places st) (next_id (places st)) _
                                 (next_id_fresh (places st)))).
  cbn [List.filter]. unfold col_eqb at 1. cbn [place_zone_id place_is_active].
  rewrite Z.eqb_refl. cbn [andb]. constructor.
  symmetry. apply filter_Permutation_list, scan_Permutation.
Qed.

Lemma active_places_fold zid (l : list Z) st :
  map (fun row => place_name (snd row)) (active_places (foldl (add_place zid) st l) zid)
  ≡ₚ map (fun i => ("Место " ++ pretty i)%string) l
     ++ map (fun row => place_name (snd row)) (active_places st zid).
Proof.
  revert st. induction l as [|i l IH]; intros st; [reflexivity|].
  rewrite foldl_cons, IH.
  change (map (fun row => place_name (snd row)) (active_places (add_place zid st i) zid))
    with ((fun row : Z * Place => place_name (snd row))
            <$> active_places (add_place zid st i) zid).
  rewrite (active_places_add_place zid st i). simpl.
  symmetry. apply Permutation_middle.
Qed.

Lemma active_places_unreferenced st z :
  (forall pid p, places st !! pid = Some p -> place_zone_id p <> Some z) ->
  active_places st z = [].
Proof.
  intros H. unfold active_places. apply filter_none.
  intros [pid p] Hin. apply In_scan in Hin. specialize (H pid p Hin).
  unfold col_eqb. destruct (place_zone_id p) as [z'|]; [|reflexivity].
  replace (z' =? z) with false; [reflexivity|].
  symmetry. apply Z.eqb_neq. congruence.
Qed.

Section PlacesFacts.
Context (order_by_place_name : list (Z * Place) -> list (Z * Place)).
Hypothesis order_by_place_name_perm : forall l, order_by_place_name l ≡ₚ l.

(** X18: after [create_zone], [get_places_by_zone] for the new zone
    returns the places the call created and no other: their names are
    [Место 1] to [Место n] for [n = places_count], each once, all active
    and of the new zone; the listing is as long as the capacity that
    [check_zone_capacity] counts. *)
Theorem create_zone_then_list_places (st : Store) (data : ZoneCreate) :
  places_reference_zones st ->
  let '(zid, _, st') := create_zone st data in
  let listed := get_places_by_zone order_by_place_name st' zid in
  map (fun row => place_name (snd row)) listed
  ≡ₚ map (fun i => ("Место " ++ pretty i)%string) (seqZ 1 (places_count data)) /\
  (forall pid p, (pid, p) ∈ listed ->
     places st' !! pid = Some p /\ places st !! pid = None /\
     place_zone_id p = Some zid /\ place_is_active p = true) /\
  Z.of_nat (length listed) = max_capacity st' zid.
Proof.
  intros Hfk. unfold create_zone. cbv zeta.
  set (zid := next_id (zones st)).
  set (st1 := set_zones (<[zid := _]> (zones st)) st).
  set (st2 := foldl (add_place zid) st1 (seqZ 1 (places_count data))).
  assert (Hold : forall pid p, places st1 !! pid = Some p -> place_zone_id p <> Some zid).
  { intros pid p Hp Hz. destruct (Hfk pid p zid Hp Hz) as [x Hx].
    unfold zid in Hx. rewrite next_id_fresh in Hx. discriminate. }
  assert (Hlisted : get_places_by_zone order_by_place_name st2 zid
                    ≡ₚ active_places st2 zid).
  { unfold get_places_by_zone, active_places.
    rewrite (order_by_place_name_perm _).
    apply filter_Permutation_list. symmetry. apply scan_Permutation. }
  cbv zeta. split; [|split].
  - change (((fun row : Z * Place => place_name (snd row))
               <$> get_places_by_zone order_by_place_name st2 zid)
            ≡ₚ map (fun i => ("Место " ++ pretty i)%string)
                   (seqZ 1 (places_count data))).
    rewrite Hlisted. unfold st2.
    change (map (fun row => place_name (snd row))
                (active_places (foldl (add_place zid) st1
                                      (seqZ 1 (places_count data))) zid)
            ≡ₚ map (fun i => ("Место " ++ pretty i)%string)
                   (seqZ 1 (places_count data))).
    rewrite active_places_fold, (active_places_unreferenced st1 zid Hold).
    now rewrite app_nil_r.
  - intros pid p Hin. rewrite Hlisted in Hin.
    apply list_elem_of_In in Hin.
    assert (Ha : place_is_active p = true).
    { unfold active_places in Hin. apply filter_In in Hin as [_ Hin].
      now apply andb_true_iff in Hin as [_ Hin]. }
    apply active_places_In in Hin as (Hp & Hz).
    split; [exact Hp|]. split; [|split; assumption].
    destruct (add_places_fold zid (seqZ 1 (places_count data)) st1)
      as (_ & _ & _ & _ & _ & _ & _ & H).
    destruct (H pid p Hp) as [Hp1|(Hnone & _)]; [|exact Hnone].
    exfalso. exact (Hold pid p Hp1 Hz).
  - rewrite (Permutation_length Hlisted). symmetry. apply max_capacity_places.
Qed.

End PlacesFacts.

(** ** The history of a user *)

Lemma history_join_Some st b s p zid :
  history_join st b = Some (s, p, zid) <->
  exists sid pid zone,
    slot_id b = Some sid /\ slots st !! sid = Some s /\
    slot_place_id s = Some pid /\ places st !! pid = Some p /\
    place_zone_id p = Some zid /\ zones st !! zid = Some zone.
Proof.
  unfold history_join. split.
  - intros H.
    destruct (slot_id b) as [sid|]; [|discriminate]. simpl in H.
    destruct (slots st !! sid) as [s'|] eqn:Hs; [|discriminate]. simpl in H.
    destruct (slot_place_id s') as [pid|] eqn:Hpid; [|discriminate]. simpl in H.
    destruct (places st !! pid) as [p'|] eqn:Hp; [|discriminate]. simpl in H.
    destruct (place_zone_id p') as [zid'|] eqn:Hzid; [|discriminate]. simpl in H.
    destruct (zones st !! zid') as [zone|] eqn:Hz; [|discriminate]. simpl in H.
    injection H as <- <- <-. exists sid, pid, zone. repeat split; assumption.
  - intros (sid & pid & zone & -> & Hs & Hpid & Hp & Hzid & Hz). simpl.
    rewrite Hs. simpl. rewrite Hpid. simpl. rewrite Hp. simpl. rewrite Hzid. simpl.
    rewrite Hz. reflexivity.
Qed.

Section HistoryFacts.
Context (order_by_created_at : list (Z * Booking) -> list (Z * Booking)).
Context (default_filters : BookingHistoryFilters.t).
Hypothesis order_by_created_at_perm : forall l, order_by_created_at l ≡ₚ l.

(** X19: [get_booking_history] changes the store only by the sweep of
    expired bookings and returns each row at most once.  A row is
    returned exactly when, after the sweep, it is a booking of the user
    whose slot, place and zone are in the store and which meets the
    filters that are set: an empty status and a zone id of 0 count as not
    set, and the dates are compared with the start of the slot.  No
    returned booking is active with an end at or before the clock. *)
Theorem booking_history_rows
        (st : Store) (now user : Z) (filters : option BookingHistoryFilters.t) :
  let '(rows, st') :=
    get_booking_history order_by_created_at default_filters st now user filters in
  let f := match filters with Some f => f | None => default_filters end in
  st' = auto_complete_expired_bookings st now None /\
  NoDup (map fst rows) /\
  (forall bid b, (bid, b) ∈ rows <->
     bookings st' !! bid = Some b /\ user_id b = user /\
     exists sid s pid p zid zone,
       slot_id b = Some sid /\ slots st !! sid = Some s /\
       slot_place_id s = Some pid /\ places st !! pid = Some p /\
       place_zone_id p = Some zid /\ zones st !! zid = Some zone /\
       (forall x, BookingHistoryFilters.status f = Some x -> x <> ""%string ->
                  status_name (status b) = x) /\
       (forall z, BookingHistoryFilters.zone_id f = Some z -> z <> 0 -> zid = z) /\
       (forall d, BookingHistoryFilters.date_from f = Some d -> d <= slot_start_time s) /\
       (forall d, BookingHistoryFilters.date_to f = Some d -> slot_start_time s <= d)) /\
  (forall bid b e, (bid, b) ∈ rows -> status b = Active -> end_time b = Some e ->
                   now < e).
Proof.
  unfold get_booking_history. cbv zeta.
  set (st1 := auto_complete_expired_bookings st now None).
  set (f := match filters with Some f => f | None => default_filters end).
  set (keep := fun row : Z * Booking =>
                 let '(_, b) := row in
                 match history_join st1 b with
                 | Some (s, _, zid) => (user_id b =? user) && history_conds f b s zid
                 | None => false
                 end).
  assert (Hmem : forall bid b, (bid, b) ∈ order_by_created_at
                                 (List.filter keep (map_to_list (bookings st1))) <->
                   bookings st1 !! bid = Some b /\ keep (bid, b) = true).
  { intros bid b. rewrite (order_by_created_at_perm _).
    now rewrite list_elem_of_In, filter_In, In_map_to_list. }
  split; [reflexivity|]. split; [|split].
  - change (NoDup (fst <$> order_by_created_at
                     (List.filter keep (map_to_list (bookings st1))))).
    rewrite (order_by_created_at_perm _). apply NoDup_ListNoDup, filter_keys_NoDup.
  - intros bid b. rewrite Hmem. unfold keep.
    split.
    + intros [Hb Hk]. split; [exact Hb|].
      destruct (history_join st1 b) as [[[s p] zid]|] eqn:Hj; [|discriminate].
      apply andb_true_iff in Hk as [Hu Hc]. apply Z.eqb_eq in Hu.
      split; [exact Hu|].
      apply history_join_Some in Hj as (sid & pid & zone & H1 & H2 & H3 & H4 & H5 & H6).
      exists sid, s, pid, p, zid, zone.
      do 6 (split; [assumption|]).
      unfold history_conds in Hc.
      apply andb_true_iff in Hc as [Hc Hto]. apply andb_true_iff in Hc as [Hc Hfrom].
      apply andb_true_iff in Hc as [Hst Hzone].
      split; [|split; [|split]].
      * intros x Hx Hne. rewrite Hx in Hst. simpl in Hst.
        destruct (String.eqb_spec x ""); [contradiction|]. simpl in Hst.
        now apply String.eqb_eq in Hst.
      * intros z Hz Hne. rewrite Hz in Hzone. simpl in Hzone.
        destruct (Z.eqb_spec z 0); [contradiction|]. simpl in Hzone.
        now apply Z.eqb_eq in Hzone.
      * intros d Hd. rewrite Hd in Hfrom. now apply Z.leb_le in Hfrom.
      * intros d Hd. rewrite Hd in Hto. now apply Z.leb_le in Hto.
    + intros (Hb & Hu & sid & s & pid & p & zid & zone
              & H1 & H2 & H3 & H4 & H5 & H6 & Hst & Hzone & Hfrom & Hto).
      split; [exact Hb|].
      assert (Hj : history_join st1 b = Some (s, p, zid)).
      { apply history_join_Some. exists sid, pid, zone. repeat split; assumption. }
      rewrite Hj. apply andb_true_iff. split; [now apply Z.eqb_eq|].
      unfold history_conds. repeat (apply andb_true_iff; split).
      * destruct (BookingHistoryFilters.status f) as [x|]; [|reflexivity]. simpl.
        destruct (String.eqb_spec x ""); [reflexivity|]. simpl.
        apply String.eqb_eq. now apply Hst.
      * destruct (BookingHistoryFilters.zone_id f) as [z|]; [|reflexivity]. simpl.
        destruct (Z.eqb_spec z 0); [reflexivity|]. simpl.
        apply Z.eqb_eq. now apply Hzone.
      * destruct (BookingHistoryFilters.date_from f) as [d|]; [|reflexivity].
        apply Z.leb_le. now apply Hfrom.
      * destruct (BookingHistoryFilters.date_to f) as [d|]; [|reflexivity].
        apply Z.leb_le. now apply Hto.
  - intros bid b e Hin Hact Hend. apply Hmem in Hin as [Hb _].
    unfold st1 in Hb. rewrite auto_complete_all_lookup in Hb.
    destruct (bookings st !! bid) as [b0|]; [|discriminate]. simpl in Hb.
    injection Hb as <-.
    destruct (expired now b0) eqn:Hexp; [discriminate|].
    unfold expired in Hexp. apply is_active_status_true in Hact.
    rewrite Hact, Hend in Hexp. simpl in Hexp. apply Z.leb_gt in Hexp. lia.
Qed.

End HistoryFacts.

(** ** A new zone and the capacity invariant *)

Lemma add_places_zero zid (l : list Z) st :
  places st !! 0 = None -> places (foldl (add_place zid) st l) !! 0 = None.
Proof.
  revert st. induction l as [|i l IH]; intros st H; [exact H|].
  rewrite foldl_cons. apply IH. unfold add_place. cbn [places set_places].
  rewrite lookup_insert_ne; [exact H|].
  pose proof (next_id_positive (places st)). lia.
Qed.

Lemma create_zone_places st data pid p :
  places (snd (create_zone st data)) !! pid = Some p ->
  places st !! pid = Some p \/
  (places st !! pid = None /\ place_zone_id p = Some (next_id (zones st)) /\
   place_is_active p = true).
Proof.
  unfold create_zone. cbv zeta. cbn [snd]. intros Hp.
  match type of Hp with
  | places (foldl (add_place ?zid) ?st1 ?l) !! _ = _ =>
      destruct (add_places_fold zid l st1) as (_ & _ & _ & _ & _ & _ & _ & H)
  end.
  exact (H pid p Hp).
Qed.

Lemma create_zone_keeps_places st data pid p :
  places st !! pid = Some p -> places (snd (create_zone st data)) !! pid = Some p.
Proof.
  unfold create_zone. cbv zeta. cbn [snd]. intros Hp.
  match goal with
  | |- places (foldl (add_place ?zid) ?st1 ?l) !! _ = _ =>
      destruct (add_places_fold zid l st1) as (_ & _ & _ & _ & _ & _ & H & _)
  end.
  now apply H.
Qed.

(** With every slot on a place of the store, the new places change the
    zone of no booking. *)
Lemma create_zone_booking_zone st data b :
  slots_reference_places st ->
  booking_zone (snd (create_zone st data)) b = booking_zone st b.
Proof.
  intros Hsfk. destruct (create_zone_frame st data) as (_ & Hs & _).
  pose proof (create_zone_keeps_places st data) as Hkeep.
  set (st' := snd (create_zone st data)) in *.
  unfold booking_zone, booking_slot. rewrite Hs.
  destruct (slot_id b) as [sid|]; [|reflexivity]. simpl.
  destruct (slots st !! sid) as [s|] eqn:Hslot; [|reflexivity]. simpl.
  unfold slot_zone. destruct (slot_place_id s) as [pid|] eqn:Hpid; [|reflexivity].
  simpl. destruct (Hsfk sid s pid Hslot Hpid) as [p Hp].
  now rewrite Hp, (Hkeep pid p Hp).
Qed.

Lemma create_zone_occupancy st data z t :
  slots_reference_places st ->
  occupancy (snd (create_zone st data)) z t = occupancy st z t.
Proof.
  intros Hsfk. destruct (create_zone_frame st data) as (_ & _ & Hb).
  unfold occupancy. rewrite Hb. f_equal. apply filter_length_ext.
  intros [bid b] _. unfold in_zone. now rewrite create_zone_booking_zone.
Qed.

(** No booking lies in a zone that is not in the store. *)
Lemma occupancy_unknown_zone st z t :
  places_reference_zones st -> zones st !! z = None -> occupancy st z t = 0.
Proof.
  intros Hfk Hz. unfold occupancy.
  rewrite (filter_none _ (map_to_list (bookings st))); [reflexivity|].
  intros [bid b] _.
  destruct (in_zone st z b) eqn:Hin; [|reflexivity].
  exfalso. apply in_zone_true in Hin. unfold booking_zone, slot_zone in Hin.
  destruct (booking_slot st b) as [s|]; [|discriminate]. simpl in Hin.
  destruct (slot_place_id s) as [pid|]; [|discriminate]. simpl in Hin.
  destruct (places st !! pid) as [p|] eqn:Hp; [|discriminate]. simpl in Hin.
  destruct (Hfk pid p z Hp Hin) as [x Hx]. congruence.
Qed.

(** X20: [create_zone] keeps what the engine relies on.  In a store that
    is well formed, respects the capacities and in which places refer to
    zones and slots to places, the store after [create_zone] is again
    such a store: at every instant every zone, the new one included, has
    at most as many active bookings as active places. *)
Theorem create_zone_preserves_capacity (st : Store) (data : ZoneCreate) :
  well_formed st -> capacity_invariant st ->
  places_reference_zones st -> slots_reference_places st ->
  let st' := snd (create_zone st data) in
  well_formed st' /\ capacity_invariant st' /\
  places_reference_zones st' /\ slots_reference_places st'.
Proof.
  intros (Hz0 & Hp0 & Hbs) Hinv Hfk Hsfk. cbv zeta.
  destruct (create_zone_frame st data) as (Hzones & Hslots & Hbookings).
  set (st' := snd (create_zone st data)) in *.
  set (zid := next_id (zones st)) in *.
  assert (Hzid : zid <> 0) by (pose proof (next_id_positive (zones st)); unfold zid; lia).
  split; [|split; [|split]].
  - split; [|split].
    + rewrite Hzones, lookup_insert_ne by assumption. exact Hz0.
    + unfold st', create_zone. cbv zeta. cbn [snd]. now apply add_places_zero.
    + intros bid b sid Hb Hsid. rewrite Hslots. rewrite Hbookings in Hb.
      exact (Hbs bid b sid Hb Hsid).
  - intros z t Hz. unfold st'. rewrite create_zone_occupancy by assumption.
    destruct (decide (z = zid)) as [->|Hne].
    + rewrite (occupancy_unknown_zone st zid t Hfk (next_id_fresh (zones st))).
      unfold max_capacity. lia.
    + rewrite Hzones, lookup_insert_ne in Hz by congruence.
      etransitivity; [exact (Hinv z t Hz)|].
      unfold create_zone. cbv zeta. cbn [snd].
      match goal with
      | |- _ <= max_capacity (foldl (add_place ?zid') ?st1 ?l) _ =>
          destruct (add_places_fold zid' l st1) as (_ & H & _)
      end.
      rewrite (H z Hne). reflexivity.
  - intros pid p z Hp Hz. rewrite Hzones.
    destruct (create_zone_places st data pid p Hp) as [Hold|(_ & Hnew & _)].
    + destruct (Hfk pid p z Hold Hz) as [x Hx].
      destruct (decide (z = zid)) as [->|Hne].
      * rewrite lookup_insert_eq. eauto.
      * rewrite lookup_insert_ne by congruence. eauto.
    + assert (z = zid) by (unfold zid; congruence). subst z. rewrite lookup_insert_eq. eauto.
  - intros sid s pid Hs Hpid. rewrite Hslots in Hs.
    destruct (Hsfk sid s pid Hs Hpid) as [p Hp].
    exists p. now apply create_zone_keeps_places.
Qed.

(** ** The scenario, checked against the theorems *)

Import Scenario.

Lemma empty_hall_well_formed : well_formed empty_hall.
Proof.
  split; [vm_compute; reflexivity|]. split; [vm_compute; reflexivity|].
  intros bid b sid H. simpl in H. rewrite lookup_empty in H. discriminate.
Defined.

Lemma empty_hall_capacity : capacity_invariant empty_hall.
Proof.
  intros z t _. unfold occupancy, max_capacity. simpl bookings.
  rewrite map_to_list_empty. simpl. lia.
Defined.

Lemma booked_original : bookings booked !! 1 = Some original.
Proof. vm_compute. reflexivity. Defined.

Lemma booked_slots :
  slots booked = {[1 := mkSlot (Some 1) ten noon false]}.
Proof. vm_compute. reflexivity. Defined.

Lemma booked_bookings : bookings booked = {[1 := original]}.
Proof. vm_compute. reflexivity. Defined.

Lemma booked_places : places booked = {[1 := mkPlace (Some 1) "Place 1" true]}.
Proof. vm_compute. reflexivity. Defined.

Lemma ten_before_noon : ten <= ten < noon.
Proof. unfold ten, noon. lia. Defined.

(** The hall has one active place, and at ten one booking occupies it. *)
Lemma booked_capacity : number_of (active_place_of booked 1) 1.
Proof.
  exists [(1, mkPlace (Some 1) "Place 1" true)].
  split; [apply NoDup_singleton|]. split; [|reflexivity].
  intros [pid p]. rewrite list_elem_of_singleton. unfold active_place_of. cbn [fst snd].
  rewrite booked_places. split.
  - intros [= -> ->]. split; [apply lookup_singleton_eq|]. split; reflexivity.
  - intros (Hp & _). apply lookup_singleton_Some in Hp as [<- <-]. reflexivity.
Defined.

Lemma booked_overlaps_candidate : overlaps_candidate booked 1 ten noon (1, original).
Proof.
  split; [exact booked_original|]. split; [|split; [reflexivity|]].
  - exists 1, (mkSlot (Some 1) ten noon false), 1, (mkPlace (Some 1) "Place 1" true).
    split; [reflexivity|]. split; [rewrite booked_slots; apply lookup_singleton_eq|].
    split; [reflexivity|]. split; [rewrite booked_places; apply lookup_singleton_eq|].
    reflexivity.
  - exists ten, noon. split; [reflexivity|]. split; [reflexivity|].
    unfold ten, noon. lia.
Defined.

Lemma booked_occupancy : number_of (occupies booked 1 ten noon ten) 1.
Proof.
  exists [(1, original)].
  split; [apply NoDup_singleton|]. split; [|reflexivity].
  intros [bid b]. rewrite list_elem_of_singleton. split.
  - intros [= -> ->]. split; [exact booked_overlaps_candidate|].
    exists ten, noon. split; [reflexivity|]. split; [reflexivity|].
    exact ten_before_noon.
  - intros [(Hb & _) _]. cbn [fst snd] in Hb. rewrite booked_bookings in Hb.
    apply lookup_singleton_Some in Hb as [<- <-]. reflexivity.
Defined.

Lemma booked_slots_unique : slots_unique booked.
Proof.
  intros sid1 s1 sid2 s2 pid H1 H2 _ _ _ _. rewrite booked_slots in H1, H2.
  apply lookup_singleton_Some in H1 as [<- _].
  apply lookup_singleton_Some in H2 as [<- _]. reflexivity.
Defined.

Lemma capacity_invariant_reachable_witness :
  well_formed empty_hall /\ capacity_invariant empty_hall /\
  reachable max_hours parse empty_hall booked /\
  forall z t, is_Some (zones booked !! z) ->
              occupancy booked z t <= max_capacity booked z.
Proof.
  assert (Hreach : reachable max_hours parse empty_hall booked).
  { eapply reachable_step; [apply reachable_start|].
    apply step_create_booking_by_time_range. }
  split; [exact empty_hall_well_formed|]. split; [exact empty_hall_capacity|].
  split; [exact Hreach|].
  exact (capacity_invariant_reachable max_hours parse empty_hall booked
           empty_hall_well_formed empty_hall_capacity Hreach).
Defined.

Lemma check_zone_capacity_boundary_sweep_witness :
  check_zone_capacity booked 1 ten noon = false.
Proof.
  destruct (check_zone_capacity_boundary_sweep booked 1 ten noon)
    as (cap & Hcap & _ & _ & _ & _ & _ & H).
  assert (Hone : cap = 1) by exact (number_of_unique _ _ _ Hcap booked_capacity).
  assert (Hpos : cap <> 0) by (rewrite Hone; discriminate).
  apply (proj1 (H Hpos)). exists ten, 1.
  split; [now left|]. split; [exact ten_before_noon|].
  split; [exact booked_occupancy|]. rewrite Hone. reflexivity.
Defined.

Lemma check_zone_capacity_exact_witness :
  number_of (active_place_of booked 1) 1 /\ 1 <> 0 /\
  check_zone_capacity booked 1 ten noon = false.
Proof.
  assert (Hpos : 1 <> 0) by discriminate.
  split; [exact booked_capacity|]. split; [exact Hpos|].
  destruct (check_zone_capacity booked 1 ten noon) eqn:E; [|reflexivity].
  pose proof (proj1 (proj1 (check_zone_capacity_exact booked 1 ten noon 1
                              booked_capacity Hpos)) E
                    ten ten_before_noon 1 booked_occupancy) as Hle.
  exfalso. revert Hle. vm_compute. intros Hle. now apply Hle.
Defined.

Lemma create_by_time_range_validation_order_witness :
  valid_clock_fields morning /\ slots_unique booked /\
  create_booking_by_time_range max_hours parse booked 2 morning false
  = (Raise (BookingError ZONE_CAPACITY_EXCEEDED), booked).
Proof.
  assert (Hv : valid_clock_fields morning) by (unfold valid_clock_fields; simpl; lia).
  split; [exact Hv|]. split; [exact booked_slots_unique|].
  apply (proj1 (create_by_time_range_validation_order
                  max_hours parse booked 2 morning false Hv booked_slots_unique)
               CapacityAvailable).
  vm_compute. reflexivity.
Defined.

Lemma with_free_slot_no_bookings bid : bookings with_free_slot !! bid = None.
Proof. apply lookup_empty. Defined.

Lemma create_booking_outcomes_witness :
  single_active_booking with_free_slot 1 1 /\
  exists bid b st' slot',
    create_booking with_free_slot 1 1 false = (Return (Some (bid, b)), st') /\
    slots st' !! 1 = Some slot' /\ is_available slot' = false /\
    bookings st' !! bid = Some b /\ status b = Active /\
    start_time b = Some ten /\ end_time b = Some noon /\
    booking_zone_name b = Some "Hall" /\
    booking_zone_address b = Some "1 Main Street".
Proof.
  assert (H : single_active_booking with_free_slot 1 1)
    by (unfold single_active_booking; vm_compute; lia).
  split; [exact H|].
  assert (Hslot : slots with_free_slot !! 1 = Some (mkSlot (Some 1) ten noon true))
    by (vm_compute; reflexivity).
  assert (Hzone : zone_of_slot with_free_slot (mkSlot (Some 1) ten noon true) 1 hall).
  { exists 1, (mkPlace (Some 1) "Place 1" true).
    repeat split; first [discriminate|vm_compute; reflexivity]. }
  assert (Hgo : ~ (is_available (mkSlot (Some 1) ten noon true) = false \/
                   holds_active_on with_free_slot 1 1 \/
                   has_overlapping_booking with_free_slot 1 ten noon \/
                   capacity_rejects with_free_slot (mkSlot (Some 1) ten noon true) \/
                   false = true)).
  { intros [Hf|[(bid & b & Hb & _)|[(bid & b & bs & be & Hb & _)
                                   |[(zid & zone & Hz & Hcheck)|Hf]]]].
    - discriminate.
    - rewrite with_free_slot_no_bookings in Hb. discriminate.
    - rewrite with_free_slot_no_bookings in Hb. discriminate.
    - destruct Hz as (pid & place & Hpid & _ & Hp & Hzid & _).
      simpl in Hpid. injection Hpid as <-.
      assert (place = mkPlace (Some 1) "Place 1" true)
        by (revert Hp; vm_compute; congruence).
      subst place. simpl in Hzid. injection Hzid as <-.
      revert Hcheck. vm_compute. discriminate.
    - discriminate. }
  destruct (proj2 (proj2 (create_booking_outcomes with_free_slot 1 1 false H)
                         _ Hslot) Hgo)
    as (bid & b & st' & slot' & Hcall & _ & Hbs & Hsl & Hav & _ & _ & _ & _ & _ & _
        & _ & _ & Hact & Hst & Hen & _ & Hname & _).
  exists bid, b, st', slot'.
  split; [exact Hcall|]. split; [rewrite Hsl; apply lookup_insert_eq|].
  split; [exact Hav|]. split; [rewrite Hbs; apply lookup_insert_eq|].
  split; [exact Hact|]. split; [exact Hst|]. split; [exact Hen|].
  exact (Hname 1 hall Hzone).
Defined.

Lemma extend_booking_keeps_original_witness :
  bookings booked !! 1 = Some original /\
  extend_booking max_hours booked 0 0 1 1 1 0 false
  = (Return (2, extension), extended) /\
  bookings extended !! 1 = Some original /\
  bookings extended !! 2 = Some extension /\
  start_time extension = end_time original.
Proof.
  assert (H : extend_booking max_hours booked 0 0 1 1 1 0 false
              = (Return (2, extension), extended)) by (vm_compute; reflexivity).
  split; [exact booked_original|]. split; [exact H|].
  destruct (extend_booking_keeps_original max_hours booked extended 0 0 1 1 1 0 false
              2 extension original booked_original H)
    as (H1 & _ & _ & H2 & _ & _ & _ & H3 & _).
  split; [exact H1|]. split; [exact H2|exact H3].
Defined.

Lemma extend_booking_expired_witness :
  noon <= noon + 1 /\
  fst (extend_booking max_hours booked noon (noon + 1) 2 1 1 0 false)
  = Raise (BookingExtensionError booking_expired) /\
  exists b',
    bookings (snd (extend_booking max_hours booked noon (noon + 1) 2 1 1 0 false)) !! 1
    = Some b' /\
    status original = Active /\ status b' = Completed /\
    start_time b' = Some ten /\ end_time b' = Some noon.
Proof.
  assert (Hclock : noon <= noon + 1) by lia.
  split; [exact Hclock|].
  pose proof (extend_booking_expired max_hours booked noon (noon + 1) 2 1 1 0 false
                Hclock) as H.
  rewrite booked_original in H.
  destruct (H noon eq_refl (Z.le_refl noon)) as (H1 & H2 & _).
  split; [exact H1|].
  destruct (H2 eq_refl) as (b' & Hb' & Hs & _ & _ & _ & _ & _ & Hst & Hen).
  exists b'. split; [exact Hb'|]. split; [reflexivity|]. split; [exact Hs|].
  split; [exact Hst|exact Hen].
Defined.

Lemma expiry_boundary_inclusive_witness :
  (exists b',
     bookings (auto_complete_expired_bookings booked noon None) !! 1 = Some b' /\
     status b' = Completed) /\
  bookings (auto_complete_expired_bookings booked (noon - 1) None) !! 1
  = Some original /\
  status original = Active /\ end_time original = Some noon.
Proof.
  destruct (expiry_boundary_inclusive max_hours booked noon) as (Hflip & _).
  destruct (Hflip 1 original booked_original eq_refl eq_refl)
    as (_ & (b' & Hb' & Hs & _) & _).
  split; [exists b'; split; assumption|].
  destruct (expiry_boundary_inclusive max_hours booked (noon - 1)) as (_ & Hkeep & _).
  split; [|split; reflexivity].
  apply (Hkeep 1 original booked_original). right. exists noon.
  split; [reflexivity|lia].
Defined.

Lemma cancel_booking_idempotent_witness :
  bookings cancelled !! 1 = Some (set_status Cancelled original) /\
  cancel_booking cancelled 1 1 false false
  = (Return (Some (1, set_status Cancelled original)), cancelled) /\
  cancel_booking cancelled 2 1 false false = (Return None, cancelled).
Proof.
  assert (H : bookings cancelled !! 1 = Some (set_status Cancelled original))
    by (vm_compute; reflexivity).
  split; [exact H|].
  destruct (cancel_booking_idempotent cancelled 1 1 false false _ H) as [H1 _].
  destruct (cancel_booking_idempotent cancelled 2 1 false false _ H) as [_ H2].
  split.
  - apply H1; [now left|now right].
  - apply H2; [reflexivity|]. simpl. lia.
Defined.

Lemma booked_hit_by_closure : hit_by_closure booked 1 closure original.
Proof.
  split; [reflexivity|].
  exists 1, (mkSlot (Some 1) ten noon false), 1, (mkPlace (Some 1) "Place 1" true).
  split; [reflexivity|]. split; [rewrite booked_slots; apply lookup_singleton_eq|].
  split; [reflexivity|]. split; [rewrite booked_places; apply lookup_singleton_eq|].
  split; [reflexivity|]. split; vm_compute; reflexivity.
Defined.

Lemma close_zone_effect_witness :
  zones booked !! 1 = Some hall /\
  close_zone booked 1 closure
  = (fst (close_zone booked 1 closure), snd (close_zone booked 1 closure)) /\
  zones (snd (close_zone booked 1 closure)) !! 1
  = Some (mkZone "Hall" "1 Main Street" false (Some "repairs")
                 (Some (to_time closure))) /\
  exists b' s',
    bookings (snd (close_zone booked 1 closure)) !! 1 = Some b' /\
    status b' = Cancelled /\
    slots booked !! 1 = Some (mkSlot (Some 1) ten noon false) /\
    slots (snd (close_zone booked 1 closure)) !! 1 = Some s' /\
    is_available s' = true /\
    In (1, b') (fst (close_zone booked 1 closure)).
Proof.
  assert (Hz : zones booked !! 1 = Some hall) by (vm_compute; reflexivity).
  assert (Hc : close_zone booked 1 closure
               = (fst (close_zone booked 1 closure), snd (close_zone booked 1 closure)))
    by apply surjective_pairing.
  assert (Hslot : slots booked !! 1 = Some (mkSlot (Some 1) ten noon false))
    by (rewrite booked_slots; apply lookup_singleton_eq).
  split; [exact Hz|]. split; [exact Hc|].
  destruct (close_zone_effect booked _ 1 closure hall _ Hz Hc)
    as (H1 & _ & _ & H2 & _ & _ & _ & _ & H3).
  split; [exact H1|].
  destruct (H2 1 original booked_original booked_hit_by_closure)
    as (b' & Hb' & Hs & Hr & Hcols & sid & s & s' & Hsid & Hsl & Hsl' & Hav & _).
  simpl in Hsid. injection Hsid as <-.
  exists b', s'. split; [exact Hb'|]. split; [exact Hs|]. split; [exact Hslot|].
  split; [exact Hsl'|]. split; [exact Hav|].
  apply H3. exists original. split; [exact booked_original|].
  split; [exact booked_hit_by_closure|]. tauto.
Defined.

(** ** The scenario, continued *)

Lemma empty_hall_no_bookings bid : bookings empty_hall !! bid = None.
Proof. apply lookup_empty. Defined.

Lemma empty_hall_no_slots sid : slots empty_hall !! sid = None.
Proof. apply lookup_empty. Defined.

Lemma empty_hall_consistent : consistent empty_hall.
Proof.
  split; [|split; [|split]].
  - intros bid b sid H. rewrite empty_hall_no_bookings in H. discriminate.
  - intros sid1 s1 sid2 s2 pid H. rewrite empty_hall_no_slots in H. discriminate.
  - intros bid b sid slot H. rewrite empty_hall_no_bookings in H. discriminate.
  - intros bid1 b1 bid2 b2 sid H. rewrite empty_hall_no_bookings in H. discriminate.
Defined.

Lemma empty_hall_no_self_overlap : no_self_overlap empty_hall.
Proof.
  intros bid1 b1 bid2 b2 _ H. rewrite empty_hall_no_bookings in H. discriminate.
Defined.

Lemma booked_reachable : reachable max_hours parse empty_hall booked.
Proof.
  eapply reachable_step; [apply reachable_start|].
  apply step_create_booking_by_time_range.
Defined.

Lemma extended_reachable : reachable max_hours parse empty_hall extended.
Proof.
  eapply reachable_step; [exact booked_reachable|]. apply step_extend_booking.
Defined.

Lemma extended_rows :
  bookings extended !! 1 = Some original /\ bookings extended !! 2 = Some extension.
Proof. split; vm_compute; reflexivity. Defined.

Lemma no_self_overlap_reachable_witness :
  no_self_overlap empty_hall /\
  reachable max_hours parse empty_hall extended /\
  (noon + 3600 <= ten \/ noon <= noon).
Proof.
  split; [exact empty_hall_no_self_overlap|]. split; [exact extended_reachable|].
  apply (no_self_overlap_reachable max_hours parse empty_hall extended
           empty_hall_no_self_overlap extended_reachable
           1 original 2 extension ten noon noon (noon + 3600));
    first [exact (proj1 extended_rows)|exact (proj2 extended_rows)
          |reflexivity|discriminate].
Defined.

Lemma booking_rows_settle_witness :
  reachable max_hours parse booked cancelled /\
  bookings booked !! 1 = Some original /\
  exists b', bookings cancelled !! 1 = Some b' /\ user_id b' = user_id original /\
             start_time b' = start_time original /\ end_time b' = end_time original.
Proof.
  assert (Hreach : reachable max_hours parse booked cancelled).
  { eapply reachable_step; [apply reachable_start|]. apply step_cancel_booking. }
  split; [exact Hreach|]. split; [exact booked_original|].
  destruct (booking_rows_settle max_hours parse booked cancelled 1 original
              Hreach booked_original)
    as (b' & H1 & H2 & _ & H3 & H4 & _).
  exists b'. repeat split; assumption.
Defined.

Lemma failed_extension_writes_nothing_witness :
  extend_booking max_hours booked 0 0 1 1 100000000 0 false
  = (Raise OverflowError, snd (extend_booking max_hours booked 0 0 1 1 100000000 0 false))
  /\ snd (extend_booking max_hours booked 0 0 1 1 100000000 0 false) = booked.
Proof.
  assert (H : extend_booking max_hours booked 0 0 1 1 100000000 0 false
              = (Raise OverflowError,
                 snd (extend_booking max_hours booked 0 0 1 1 100000000 0 false)))
    by (vm_compute; reflexivity).
  split; [exact H|].
  apply (proj1 (failed_extension_writes_nothing max_hours booked _ 0 0 1 1 100000000 0
                  false _ H)).
  discriminate.
Defined.

Lemma cancel_booking_active_witness :
  bookings booked !! 1 = Some original /\ status original = Active /\
  (false = true \/ user_id original = 1) /\
  slots booked !! 1 = Some (mkSlot (Some 1) ten noon false) /\
  exists b' st' s',
    cancel_booking booked 1 1 false false = (Return (Some (1, b')), st') /\
    bookings st' !! 1 = Some b' /\ status b' = Cancelled /\
    slots st' !! 1 = Some s' /\ is_available s' = true.
Proof.
  assert (Hp : false = true \/ user_id original = 1) by (right; reflexivity).
  assert (Hslot : slots booked !! 1 = Some (mkSlot (Some 1) ten noon false))
    by (rewrite booked_slots; apply lookup_singleton_eq).
  split; [exact booked_original|]. split; [reflexivity|]. split; [exact Hp|].
  split; [exact Hslot|].
  destruct (proj2 (cancel_booking_active booked 1 1 false false original
                     booked_original eq_refl Hp) eq_refl)
    as (b' & st' & H1 & Hs & _ & _ & Hb' & _ & _ & _ & _ & Hfree & _).
  destruct (Hfree 1 _ eq_refl ltac:(discriminate) Hslot) as (s' & Hs' & Hav & _).
  exists b', st', s'. repeat split; assumption.
Defined.

Lemma slot_discipline_reachable_witness :
  consistent empty_hall /\ reachable max_hours parse empty_hall extended /\
  forall bid b sid,
    bookings extended !! bid = Some b -> slot_id b = Some sid ->
    exists slot, slots extended !! sid = Some slot /\
                 (status b = Active -> is_available slot = false).
Proof.
  split; [exact empty_hall_consistent|]. split; [exact extended_reachable|].
  exact (proj2 (proj2 (slot_discipline_reachable max_hours parse empty_hall extended
                         empty_hall_consistent extended_reachable))).
Defined.

Lemma morning_fields : valid_clock_fields morning.
Proof. unfold valid_clock_fields. simpl. lia. Defined.

Lemma two_places_slots_unique : slots_unique two_places.
Proof. intros sid1 s1 sid2 s2 pid H. simpl in H. now rewrite lookup_empty in H. Defined.

Lemma two_places_takes pid : takes_interval two_places ten noon pid.
Proof.
  right. split; intros sid slot H; simpl in H; now rewrite lookup_empty in H.
Defined.

Lemma two_places_least pid p :
  active_place_of two_places 1 (pid, p) -> 1 <= pid.
Proof.
  intros [Hp _]. cbn [fst snd two_places places] in Hp.
  destruct (decide (pid = 1)) as [->|Hne]; [lia|].
  rewrite lookup_insert_ne in Hp by congruence.
  apply lookup_singleton_Some in Hp as [<- _]. lia.
Defined.

Lemma create_by_time_range_first_fit_witness :
  valid_clock_fields morning /\ slots_unique two_places /\
  first_failing_check max_hours parse two_places 1 morning = None /\
  requested_interval parse morning = Some (ten, noon) /\
  active_place_of two_places 1 (1, mkPlace (Some 1) "Place 1" true) /\
  active_place_of two_places 1 (2, mkPlace (Some 1) "Place 2" true) /\
  takes_interval two_places ten noon 1 /\ takes_interval two_places ten noon 2 /\
  exists bid b sid slot st',
    create_booking_by_time_range max_hours parse two_places 1 morning false
    = (Return (bid, b), st') /\
    slot_id b = Some sid /\ slots st' !! sid = Some slot /\
    slot_place_id slot = Some 1 /\ is_available slot = false.
Proof.
  assert (H1 : first_failing_check max_hours parse two_places 1 morning = None)
    by (vm_compute; reflexivity).
  assert (H2 : requested_interval parse morning = Some (ten, noon))
    by (vm_compute; reflexivity).
  assert (Ha : active_place_of two_places 1 (1, mkPlace (Some 1) "Place 1" true))
    by (repeat split).
  assert (Hb : active_place_of two_places 1 (2, mkPlace (Some 1) "Place 2" true))
    by (repeat split).
  split; [exact morning_fields|]. split; [exact two_places_slots_unique|].
  split; [exact H1|]. split; [exact H2|]. split; [exact Ha|]. split; [exact Hb|].
  split; [exact (two_places_takes 1)|]. split; [exact (two_places_takes 2)|].
  destruct (proj2 (create_by_time_range_first_fit max_hours parse two_places 1 morning
                     ten noon morning_fields two_places_slots_unique H1 H2)
                  1 _ Ha (two_places_takes 1)
                  (fun pid' p' Hact _ => two_places_least pid' p' Hact))
    as (_ & bid & b & sid & slot & st' & Hcall & _ & _ & _ & _ & Hsid & _ & _ & _
        & Hslot & _ & Hpl & _ & _ & Hav & _).
  exists bid, b, sid, slot, st'. repeat split; assumption.
Defined.

Lemma extend_booking_check_order_witness :
  slots_unique booked /\
  first_failing_extension_check max_hours booked 0 1 1 100000000 0 false
  = Some EndRepresentable /\
  fst (extend_booking max_hours booked 0 0 1 1 100000000 0 false)
  = Raise OverflowError /\
  first_failing_extension_check max_hours booked 0 1 1 1 0 false = None /\
  exists nid nb,
    fst (extend_booking max_hours booked 0 0 1 1 1 0 false) = Return (nid, nb).
Proof.
  assert (H : first_failing_extension_check max_hours booked 0 1 1 100000000 0 false
              = Some EndRepresentable) by (vm_compute; reflexivity).
  assert (H' : first_failing_extension_check max_hours booked 0 1 1 1 0 false = None)
    by (vm_compute; reflexivity).
  split; [exact booked_slots_unique|]. split; [exact H|].
  split; [exact (proj1 (extend_booking_check_order max_hours booked 0 0 1 1
                          100000000 0 false booked_slots_unique)
                       EndRepresentable H)|].
  split; [exact H'|].
  exact (proj2 (extend_booking_check_order max_hours booked 0 0 1 1 1 0 false
                  booked_slots_unique) H').
Defined.

Lemma empty_hall_places_reference_zones : places_reference_zones empty_hall.
Proof.
  intros pid p z Hp Hz. unfold empty_hall in Hp. cbn [places] in Hp.
  apply lookup_singleton_Some in Hp as [<- <-].
  injection Hz as <-. eexists. reflexivity.
Defined.

Lemma empty_hall_slots_reference_places : slots_reference_places empty_hall.
Proof.
  intros sid s pid Hs. rewrite empty_hall_no_slots in Hs. discriminate.
Defined.

Lemma create_zone_capacity_witness :
  places_reference_zones empty_hall /\
  let '(zid, zone, st') := create_zone empty_hall annex in
  zones empty_hall !! zid = None /\
  zones st' = <[zid := zone]> (zones empty_hall) /\
  zone = mkZone (name annex) (address annex) (is_active annex) None None /\
  max_capacity st' zid = Z.max 0 (places_count annex) /\
  (forall z, z <> zid -> max_capacity st' z = max_capacity empty_hall z) /\
  (forall pid p, places empty_hall !! pid = Some p -> places st' !! pid = Some p) /\
  slots st' = slots empty_hall /\ bookings st' = bookings empty_hall /\
  events st' = events empty_hall.
Proof.
  split; [exact empty_hall_places_reference_zones|].
  exact (create_zone_capacity empty_hall annex empty_hall_places_reference_zones).
Defined.

Lemma create_zone_then_book_witness :
  places_reference_zones empty_hall /\
  slots_reference_places empty_hall /\
  is_active annex = true /\
  1 <= places_count annex /\
  zone_id annex_morning = fst (fst (create_zone empty_hall annex)) /\
  valid_clock_fields annex_morning /\
  requested_interval parse annex_morning = Some (ten, noon) /\
  ten < noon /\ noon - ten <= max_hours * 3600 /\
  check_user_booking_conflicts empty_hall 1 ten noon None = false /\
  exists bid b st',
    create_booking_by_time_range max_hours parse (snd (create_zone empty_hall annex))
                                 1 annex_morning false
    = (Return (bid, b), st') /\
    user_id b = 1 /\ status b = Active /\
    start_time b = Some ten /\ end_time b = Some noon /\
    booking_zone_name b = Some (name annex) /\
    bookings st' !! bid = Some b /\ bookings empty_hall !! bid = None.
Proof.
  assert (H3 : is_active annex = true) by reflexivity.
  assert (H4 : 1 <= places_count annex) by (vm_compute; discriminate).
  assert (H5 : zone_id annex_morning = fst (fst (create_zone empty_hall annex)))
    by (vm_compute; reflexivity).
  assert (H6 : valid_clock_fields annex_morning)
    by (vm_compute; repeat split; discriminate).
  assert (H7 : requested_interval parse annex_morning = Some (ten, noon))
    by (vm_compute; reflexivity).
  assert (H8 : ten < noon) by (vm_compute; reflexivity).
  assert (H9 : noon - ten <= max_hours * 3600) by (vm_compute; discriminate).
  assert (H10 : check_user_booking_conflicts empty_hall 1 ten noon None = false)
    by (vm_compute; reflexivity).
  repeat (split; [first [exact empty_hall_places_reference_zones
                        |exact empty_hall_slots_reference_places
                        |assumption]|]).
  exact (create_zone_then_book max_hours parse empty_hall annex 1 annex_morning
           ten noon empty_hall_places_reference_zones
           empty_hall_slots_reference_places H3 H4 H5 H6 H7 H8 H9 H10).
Defined.

Lemma insert_by_perm {A} (leb : A -> A -> bool) x l : insert_by leb x l ≡ₚ x :: l.
Proof.
  induction l as [|y l IH]; simpl; [reflexivity|].
  destruct (leb x y); [reflexivity|].
  rewrite IH. apply Permutation_swap.
Defined.

Lemma sort_by_perm {A} (leb : A -> A -> bool) l : sort_by leb l ≡ₚ l.
Proof.
  induction l as [|x l IH]; simpl; [reflexivity|].
  rewrite insert_by_perm. now rewrite IH.
Defined.

Lemma by_name_perm l : by_name l ≡ₚ l.
Proof. apply sort_by_perm. Defined.

Lemma by_place_name_perm l : by_place_name l ≡ₚ l.
Proof. apply sort_by_perm. Defined.

Lemma latest_first_perm l : latest_first l ≡ₚ l.
Proof. apply sort_by_perm. Defined.

Lemma booked_no_self_overlap : no_self_overlap booked.
Proof.
  exact (step_no_self_overlap max_hours parse empty_hall booked
           empty_hall_no_self_overlap
           (step_create_booking_by_time_range max_hours parse empty_hall 1 morning false)).
Defined.

Lemma booked_bookings_reference_zones : bookings_reference_zones booked.
Proof.
  intros bid b Hb. rewrite booked_bookings in Hb.
  apply lookup_singleton_Some in Hb as [<- <-].
  exists 1. split; [vm_compute; reflexivity|]. exists hall. vm_compute. reflexivity.
Defined.

Lemma booked_hall : zones booked !! 1 = Some hall.
Proof. vm_compute. reflexivity. Defined.

Lemma get_zones_reactivates_witness :
  (forall l, by_name l ≡ₚ l) /\
  let '(outs, st') := get_zones by_name closed 0 five false in
  (forall zid, zones st' !! zid
               = (fun z => if negb (zone_is_active z) && col_leb (closed_until z) five
                           then mkZone (zone_name z) (zone_address z) true None None
                           else z) <$> zones closed !! zid) /\
  places st' = places closed /\ slots st' = slots closed /\
  bookings st' = bookings (auto_complete_expired_bookings closed 0 None) /\
  NoDup (map ZoneOut.id outs) /\
  (forall out, out ∈ outs ->
     exists z, zones st' !! ZoneOut.id out = Some z /\
               (false = false -> zone_is_active z = true) /\
               ZoneOut.name out = zone_name z /\
               ZoneOut.address out = zone_address z /\
               ZoneOut.is_active out = zone_is_active z /\
               ZoneOut.closure_reason out = closure_reason z /\
               ZoneOut.closed_until out = closed_until z) /\
  (forall zid z, zones st' !! zid = Some z ->
     false = true \/ zone_is_active z = true ->
     exists out, out ∈ outs /\ ZoneOut.id out = zid).
Proof.
  split; [exact by_name_perm|].
  exact (get_zones_reactivates by_name by_name_perm closed 0 five false).
Defined.

Lemma close_zone_then_get_zones_witness :
  (forall l, by_name l ≡ₚ l) /\
  zones booked !! 1 = Some hall /\
  let '(outs, st') := get_zones by_name (snd (close_zone booked 1 closure)) 0 five false in
  (five < to_time closure ->
   zones st' !! 1 = Some (mkZone (zone_name hall) (zone_address hall) false
                                 (Some (reason closure)) (Some (to_time closure))) /\
   forall out, out ∈ outs -> ZoneOut.id out <> 1) /\
  (to_time closure <= five ->
   zones st' !! 1 = Some (mkZone (zone_name hall) (zone_address hall) true None None) /\
   exists out, out ∈ outs /\ ZoneOut.id out = 1 /\
               ZoneOut.name out = zone_name hall /\
               ZoneOut.is_active out = true /\
               ZoneOut.closure_reason out = None /\
               ZoneOut.closed_until out = None).
Proof.
  split; [exact by_name_perm|]. split; [exact booked_hall|].
  exact (close_zone_then_get_zones by_name by_name_perm booked 1 hall closure 0 five
           booked_hall).
Defined.

Lemma listed_occupancy_within_capacity_witness :
  (forall l, by_name l ≡ₚ l) /\
  well_formed empty_hall /\ capacity_invariant empty_hall /\
  reachable max_hours parse empty_hall booked /\
  (let '(outs, st') := get_zones by_name booked 0 ten true in
   forall out, out ∈ outs ->
     ZoneOut.current_occupancy out = occupancy st' (ZoneOut.id out) ten /\
     0 <= ZoneOut.current_occupancy out <= max_capacity st' (ZoneOut.id out)) /\
  (let '(outs, st') := get_zones_statistics by_name booked 0 ten in
   forall out, out ∈ outs ->
     ZoneStatistics.current_occupancy out
     = occupancy st' (ZoneStatistics.zone_id out) ten /\
     0 <= ZoneStatistics.current_occupancy out
       <= max_capacity st' (ZoneStatistics.zone_id out)).
Proof.
  split; [exact by_name_perm|]. split; [exact empty_hall_well_formed|].
  split; [exact empty_hall_capacity|]. split; [exact booked_reachable|].
  exact (listed_occupancy_within_capacity max_hours parse by_name by_name_perm
           empty_hall booked 0 ten true
           empty_hall_well_formed empty_hall_capacity booked_reachable).
Defined.

Lemma zones_statistics_complete_witness :
  (forall l, by_name l ≡ₚ l) /\
  let '(outs, st') := get_zones_statistics by_name booked 0 ten in
  st' = auto_complete_expired_bookings booked 0 None /\
  map ZoneStatistics.zone_id outs ≡ₚ map fst (map_to_list (zones booked)) /\
  forall out, out ∈ outs ->
    let z := ZoneStatistics.zone_id out in
    (exists zone, zones booked !! z = Some zone /\
                  ZoneStatistics.zone_name out = zone_name zone /\
                  ZoneStatistics.is_active out = zone_is_active zone /\
                  ZoneStatistics.closure_reason out = closure_reason zone /\
                  ZoneStatistics.closed_until out = closed_until zone) /\
    ZoneStatistics.active_bookings out
    = zone_count st' z (fun b => is_active_status (status b)) /\
    ZoneStatistics.cancelled_bookings out
    = zone_count st' z (fun b => is_cancelled_status (status b)) /\
    ZoneStatistics.current_occupancy out <= ZoneStatistics.active_bookings out /\
    (0 <= ten -> ZoneStatistics.current_occupancy out = occupancy booked z ten).
Proof.
  split; [exact by_name_perm|].
  exact (zones_statistics_complete by_name by_name_perm booked 0 ten).
Defined.

Lemma global_statistics_users_witness :
  no_self_overlap booked /\
  users_in_coworking_now (fst (get_global_statistics booked 0 ten)) = 1.
Proof.
  split; [exact booked_no_self_overlap|].
  pose proof (global_statistics_users booked 0 ten) as H.
  destruct (get_global_statistics booked 0 ten) as [g st'] eqn:E.
  destruct H as (-> & _ & _ & _ & H).
  cbn [fst]. rewrite (H booked_no_self_overlap). vm_compute. reflexivity.
Defined.

Lemma users_now_sum_of_occupancies_witness :
  (forall l, by_name l ≡ₚ l) /\
  no_self_overlap booked /\
  bookings_reference_zones booked /\
  users_in_coworking_now (fst (get_global_statistics booked 0 ten))
  = sum_Z (map ZoneStatistics.current_occupancy
               (fst (get_zones_statistics by_name booked 0 ten))).
Proof.
  split; [exact by_name_perm|]. split; [exact booked_no_self_overlap|].
  split; [exact booked_bookings_reference_zones|].
  exact (users_now_sum_of_occupancies by_name by_name_perm booked 0 ten
           booked_no_self_overlap booked_bookings_reference_zones).
Defined.

Lemma create_zone_then_list_places_witness :
  (forall l, by_place_name l ≡ₚ l) /\
  places_reference_zones empty_hall /\
  let '(zid, _, st') := create_zone empty_hall annex in
  let listed := get_places_by_zone by_place_name st' zid in
  map (fun row => place_name (snd row)) listed
  ≡ₚ map (fun i => ("Место " ++ pretty i)%string) (seqZ 1 (places_count annex)) /\
  (forall pid p, (pid, p) ∈ listed ->
     places st' !! pid = Some p /\ places empty_hall !! pid = None /\
     place_zone_id p = Some zid /\ place_is_active p = true) /\
  Z.of_nat (length listed) = max_capacity st' zid.
Proof.
  split; [exact by_place_name_perm|].
  split; [exact empty_hall_places_reference_zones|].
  exact (create_zone_then_list_places by_place_name by_place_name_perm
           empty_hall annex empty_hall_places_reference_zones).
Defined.

Lemma booking_history_rows_witness :
  (forall l, latest_first l ≡ₚ l) /\
  let '(rows, st') :=
    get_booking_history latest_first no_filters extended noon 1 (Some hall_only) in
  let f := hall_only in
  st' = auto_complete_expired_bookings extended noon None /\
  NoDup (map fst rows) /\
  (forall bid b, (bid, b) ∈ rows <->
     bookings st' !! bid = Some b /\ user_id b = 1 /\
     exists sid s pid p zid zone,
       slot_id b = Some sid /\ slots extended !! sid = Some s /\
       slot_place_id s = Some pid /\ places extended !! pid = Some p /\
       place_zone_id p = Some zid /\ zones extended !! zid = Some zone /\
       (forall x, BookingHistoryFilters.status f = Some x -> x <> ""%string ->
                  status_name (status b) = x) /\
       (forall z, BookingHistoryFilters.zone_id f = Some z -> z <> 0 -> zid = z) /\
       (forall d, BookingHistoryFilters.date_from f = Some d -> d <= slot_start_time s) /\
       (forall d, BookingHistoryFilters.date_to f = Some d -> slot_start_time s <= d)) /\
  (forall bid b e, (bid, b) ∈ rows -> status b = Active -> end_time b = Some e ->
                   noon < e).
Proof.
  split; [exact latest_first_perm|].
  exact (booking_history_rows latest_first no_filters latest_first_perm
           extended noon 1 (Some hall_only)).
Defined.

Lemma create_zone_preserves_capacity_witness :
  well_formed empty_hall /\ capacity_invariant empty_hall /\
  places_reference_zones empty_hall /\
  slots_reference_places empty_hall /\
  let st' := snd (create_zone empty_hall annex) in
  well_formed st' /\ capacity_invariant st' /\
  places_reference_zones st' /\ slots_reference_places st'.
Proof.
  split; [exact empty_hall_well_formed|]. split; [exact empty_hall_capacity|].
  split; [exact empty_hall_places_reference_zones|].
  split; [exact empty_hall_slots_reference_places|].
  exact (create_zone_preserves_capacity empty_hall annex
           empty_hall_well_formed empty_hall_capacity
           empty_hall_places_reference_zones empty_hall_slots_reference_places).
Defined.
